(** * Structural Thinking MCP: scoring, drafting, gap detection and result cache

    A shallow embedding of the TypeScript sources of the repository:
    - [JS]         : the fragment of JavaScript strings and regular
                     expressions the analysis code relies on (UTF-16 code
                     units, [trim], [split], [join], backtracking matching,
                     [RegExp.prototype.test] with and without the [g] flag,
                     [String.prototype.match]);
    - [Patterns]   : config/patterns.config.ts;
    - [Scoring]    : config/scoring.config.ts;
    - [Formatting] : utils/formatting.ts ([safeRound], [getWordCount]);
    - [Validation] : utils/validation.ts ([validateInputDetailed] on strings);
    - [Analyzer]   : core/analyzer.ts;
    - [Legacy]     : the monolithic server (index.ts) with its own copies of
                     the drafter, the scorers and the gap detector;
    - [Cache]      : utils/cache.ts, the LRU cache with TTL.

    Modelling choices.
    - The numbers of the scorers are exact rationals ([Q]): every constant
      of the scoring tables is a short decimal, and the only divisions are
      by a positive count and by the rounding factor.  At an exact rounding
      tie the rational [safeRound] goes up where the doubles of the program
      can fall just below the tie; what is proved of the scores (ranges,
      two decimals, comparisons) does not depend on that hundredth.
    - The hit rate of the cache statistics is computed in binary64
      ([Double.fl]): there the reported value does depend on the rounding
      of the quotient.
    - A domain is one of the five tags the server accepts, or absent.
    - A regular-expression object with the [g] flag keeps its [lastIndex]
      between calls of [test]; the functions that use such shared objects
      take the [lastIndex] values and return the new ones.
    - [Date.now()] is an argument of the cache operations.
    - The [try]/[catch] of the scorers has no counterpart: no step of their
      bodies throws on a string and a specification object. *)

From Stdlib Require Import List String Ascii Bool Arith NArith ZArith.
From Stdlib Require Import QArith Qminmax Qround Qpower Lia Lqa.
Import ListNotations.

Set Implicit Arguments.
Set Warnings "-abstract-large-number".

(* ================================================================== *)
(** ** JavaScript strings and regular expressions *)
(* ================================================================== *)

Module JS.

(** A JavaScript string is a sequence of UTF-16 code units. *)
Definition jsstring := list N.

(** Code units of an ASCII literal. *)
Definition js (s : string) : jsstring :=
  map N_of_ascii (list_ascii_of_string s).

Definition length (s : jsstring) : nat := List.length s.

Definition in_range (c lo hi : N) : bool := ((lo <=? c) && (c <=? hi))%N.

(** WhiteSpace and LineTerminator code points: the set used by [\s] and by
    [String.prototype.trim]. *)
Definition is_space (c : N) : bool :=
  (in_range c 9 13 || (c =? 32) || (c =? 160) || (c =? 5760)
   || in_range c 8192 8202 || (c =? 8232) || (c =? 8233) || (c =? 8239)
   || (c =? 8287) || (c =? 12288) || (c =? 65279))%N.

Definition is_digit (c : N) : bool := in_range c 48 57.

(** [\w] without the [u] flag: [A-Za-z0-9_]. *)
Definition is_word (c : N) : bool :=
  (in_range c 65 90 || in_range c 97 122 || in_range c 48 57 || (c =? 95))%N.

(** Canonicalize of the [i] flag.  On ASCII it is upper-casing; a code unit
    outside ASCII never canonicalizes to an ASCII one, and every literal of
    the [i]-flagged patterns of this program is ASCII, so the identity is
    exact on the rest for the comparisons made here. *)
Definition canon (c : N) : N :=
  if in_range c 97 122 then (c - 32)%N else c.

Definition lower (c : N) : N :=
  if in_range c 65 90 then (c + 32)%N else c.

Definition eqs (a b : jsstring) : bool :=
  if list_eq_dec N.eq_dec a b then true else false.

Fixpoint drop_space (s : jsstring) : jsstring :=
  match s with
  | c :: s' => if is_space c then drop_space s' else s
  | [] => []
  end.

(** [s.trim()] *)
Definition trim (s : jsstring) : jsstring :=
  rev (drop_space (rev (drop_space s))).

(** [s.substring(p, q)] for [p <= q]. *)
Definition substring (s : jsstring) (p q : nat) : jsstring :=
  firstn (q - p) (skipn p s).

(** [s.slice(0, n)] *)
Definition slice0 (s : jsstring) (n : nat) : jsstring := firstn n s.

(** [s.split(c)] for a one-character string separator. *)
Fixpoint split_chr (sep : N) (s : jsstring) : list jsstring :=
  match s with
  | [] => [[]]
  | c :: s' =>
      if (c =? sep)%N then [] :: split_chr sep s'
      else match split_chr sep s' with
           | w :: ws => (c :: w) :: ws
           | [] => [[c]]
           end
  end.

(** [l.join(sep)] *)
Fixpoint join (sep : jsstring) (l : list jsstring) : jsstring :=
  match l with
  | [] => []
  | [x] => x
  | x :: l' => x ++ sep ++ join sep l'
  end.

(** *** Regular expressions *)

Inductive regex : Type :=
| Empty
| Chr (c : N)
| Cls (ranges : list (N * N))
| Digit
| Space
| Wordb
| Seq (r1 r2 : regex)
| Alt (r1 r2 : regex)
| Rep (lo : nat) (hi : option nat) (r : regex)
| Grp (n : nat) (r : regex).

(** A literal ASCII word. *)
Definition Lit (s : string) : regex :=
  fold_right (fun a r => Seq (Chr (N_of_ascii a)) r) Empty
             (list_ascii_of_string s).

Definition Star (r : regex) : regex := Rep 0 None r.
Definition Plus (r : regex) : regex := Rep 1 None r.
Definition Opt (r : regex) : regex := Rep 0 (Some 1%nat) r.

(** [a|b|c|...] *)
Fixpoint Alts (rs : list regex) : regex :=
  match rs with
  | [] => Empty
  | [r] => r
  | r :: rs' => Alt r (Alts rs')
  end.

Fixpoint Seqs (rs : list regex) : regex :=
  match rs with
  | [] => Empty
  | [r] => r
  | r :: rs' => Seq r (Seqs rs')
  end.

(** Captures: group number, start and end index. *)
Definition caps := list (nat * (nat * nat)).
Definition mresult := option (nat * caps).
Definition cont := nat -> caps -> mresult.
Definition matcher := nat -> caps -> cont -> mresult.

Definition pred_hi (hi : option nat) : option nat :=
  match hi with Some n => Some (Nat.pred n) | None => None end.

Section Matching.
Variable s : jsstring.
Variable ic : bool.   (* the [i] flag *)

Definition char_m (p : N -> bool) : matcher := fun i cs k =>
  match nth_error s i with
  | Some c => if p c then k (S i) cs else None
  | None => None
  end.

(** A class matches [c] when one of its members has the same canonical
    form; for ASCII ranges that is [c] itself or its other letter case. *)
Definition in_class (rs : list (N * N)) (c : N) : bool :=
  existsb (fun r => in_range c (fst r) (snd r)
                    || (ic && (in_range (canon c) (fst r) (snd r)
                               || in_range (lower c) (fst r) (snd r))))
          rs.

Definition word_at (i : nat) : bool :=
  match nth_error s i with Some c => is_word c | None => false end.

Definition boundary (i : nat) : bool :=
  xorb (match i with O => false | S j => word_at j end) (word_at i).

(** RepeatMatcher, greedy: [lo] mandatory iterations, then optional ones
    up to [hi]; an optional iteration that consumes nothing is rejected. *)
Fixpoint rep_m (fuel : nat) (m : matcher) (lo : nat) (hi : option nat)
  : matcher := fun i cs k =>
  match fuel with
  | O => None
  | S f =>
      match hi with
      | Some O => k i cs
      | _ =>
          match lo with
          | S lo' => m i cs (fun j cs' => rep_m f m lo' (pred_hi hi) j cs' k)
          | O =>
              match m i cs (fun j cs' =>
                              if Nat.eqb j i then None
                              else rep_m f m O (pred_hi hi) j cs' k) with
              | Some x => Some x
              | None => k i cs
              end
          end
      end
  end.

Fixpoint compile (r : regex) : matcher :=
  match r with
  | Empty => fun i cs k => k i cs
  | Chr c =>
      char_m (fun d => if ic then (canon d =? canon c)%N else (d =? c)%N)
  | Cls rs => char_m (in_class rs)
  | Digit => char_m is_digit
  | Space => char_m is_space
  | Wordb => fun i cs k => if boundary i then k i cs else None
  | Seq r1 r2 => fun i cs k =>
      compile r1 i cs (fun j cs' => compile r2 j cs' k)
  | Alt r1 r2 => fun i cs k =>
      match compile r1 i cs k with
      | Some x => Some x
      | None => compile r2 i cs k
      end
  | Rep lo hi r' => rep_m (lo + List.length s + 2) (compile r') lo hi
  | Grp n r' => fun i cs k =>
      compile r' i cs (fun j cs' => k j ((n, (i, j)) :: cs'))
  end.

(** One attempt at index [i]: end index and captures. *)
Definition match_at (r : regex) (i : nat) : mresult :=
  compile r i [] (fun j cs => Some (j, cs)).

(** RegExpBuiltinExec from [lastIndex = i]: first index that matches. *)
Fixpoint search (r : regex) (n i : nat) : option (nat * nat * caps) :=
  match match_at r i with
  | Some (j, cs) => Some (i, j, cs)
  | None => match n with
            | O => None
            | S n' => search r n' (S i)
            end
  end.

Definition exec_from (r : regex) (i : nat) : option (nat * nat * caps) :=
  if List.length s <? i then None
  else search r (List.length s - i) i.

(** [String.prototype.match] with the [g] flag: [lastIndex] is reset to 0,
    all successive matches are collected; after an empty match the index
    advances by one. *)
Fixpoint match_all_from (r : regex) (fuel i : nat) : list (nat * nat) :=
  match fuel with
  | O => []
  | S f =>
      match exec_from r i with
      | None => []
      | Some (b, e, _) =>
          (b, e) :: match_all_from r f (if Nat.eqb e b then S e else e)
      end
  end.

(** RegExp.prototype[Symbol.split] (no limit, no capture groups in the
    separators used by this program). *)
Fixpoint split_loop (r : regex) (fuel p q : nat) : list jsstring :=
  match fuel with
  | O => [substring s p (List.length s)]
  | S f =>
      if List.length s <=? q then [substring s p (List.length s)]
      else match match_at r q with
           | None => split_loop r f p (S q)
           | Some (e0, _) =>
               let e := Nat.min e0 (List.length s) in
               if Nat.eqb e p then split_loop r f p (S q)
               else substring s p q :: split_loop r f e e
           end
  end.

End Matching.

(** A regular-expression object: its pattern and its flags. *)
Record RegExp := mkRegExp { source : regex; flag_i : bool; flag_g : bool }.

Definition rx (r : regex) : RegExp := mkRegExp r false false.
Definition rx_i (r : regex) : RegExp := mkRegExp r true false.
Definition rx_g (r : regex) : RegExp := mkRegExp r false true.
Definition rx_gi (r : regex) : RegExp := mkRegExp r true true.

(** [re.exec(s)] seen from [lastIndex]. *)
Definition exec (re : RegExp) (s : jsstring) (lastIndex : nat)
  : option (nat * nat * caps) :=
  exec_from s (flag_i re) (source re) lastIndex.

(** [re.test(s)] on a regular expression without the [g] flag (or on a
    freshly evaluated literal, whose [lastIndex] is 0). *)
Definition test (re : RegExp) (s : jsstring) : bool :=
  match exec re s 0 with Some _ => true | None => false end.

(** [re.test(s)] on a shared regular-expression object.  With the [g] flag
    the search starts at the object's [lastIndex], which is set to the end of
    the match on success and to 0 on failure; without it [lastIndex] is
    neither read nor written. *)
Definition test_obj (re : RegExp) (s : jsstring) (lastIndex : nat)
  : bool * nat :=
  if flag_g re then
    match exec re s lastIndex with
    | Some (_, e, _) => (true, e)
    | None => (false, O)
    end
  else (test re s, lastIndex).

(** [(s.match(re) || []).length] for a [g]-flagged [re]. *)
Definition match_count (re : RegExp) (s : jsstring) : nat :=
  List.length (match_all_from s (flag_i re) (source re) (List.length s + 2) 0).

(** [s.match(re)] for a [re] without the [g] flag: the matched text followed
    by the text of capture groups [1..ngroups] ([None] for a group that did
    not take part). *)
Definition group_text (s : jsstring) (cs : caps) (n : nat)
  : option jsstring :=
  match find (fun c => Nat.eqb (fst c) n) cs with
  | Some (_, (b, e)) => Some (substring s b e)
  | None => None
  end.

Definition match_first (re : RegExp) (ngroups : nat) (s : jsstring)
  : option (jsstring * list (option jsstring)) :=
  match exec re s 0 with
  | Some (b, e, cs) =>
      Some (substring s b e, map (group_text s cs) (seq 1 ngroups))
  | None => None
  end.

(** [s.split(re)] *)
Definition split_re (re : RegExp) (s : jsstring) : list jsstring :=
  match s with
  | [] => match match_at [] (flag_i re) (source re) 0 with
          | Some _ => []
          | None => [[]]
          end
  | _ => split_loop s (flag_i re) (source re) (2 * List.length s + 2) 0 0
  end.

End JS.

Import JS.

(** [s.toLowerCase()] on ASCII letters. *)
Definition toLowerCase (s : jsstring) : jsstring := map lower s.

(** [s.includes(t)] *)
Fixpoint prefix (t s : jsstring) : bool :=
  match t, s with
  | [], _ => true
  | a :: t', b :: s' => (a =? b)%N && prefix t' s'
  | _ :: _, [] => false
  end.

Fixpoint includes (s t : jsstring) : bool :=
  prefix t s || match s with
                | [] => false
                | _ :: s' => includes s' t
                end.

(** [[...new Set(l)]]: first occurrences, in order. *)
Fixpoint unique_from (seen l : list jsstring) : list jsstring :=
  match l with
  | [] => []
  | x :: l' =>
      if existsb (eqs x) seen then unique_from seen l'
      else x :: unique_from (x :: seen) l'
  end.

Definition unique (l : list jsstring) : list jsstring := unique_from [] l.

(** Numbers. *)
Definition QofNat (n : nat) : Q := inject_Z (Z.of_nat n).

Definition Qgtb (a b : Q) : bool :=
  match a ?= b with Gt => true | _ => false end.

Definition Qgeb (a b : Q) : bool :=
  match a ?= b with Lt => false | _ => true end.

Definition Qltb (a b : Q) : bool := Qgtb b a.

(** [Math.round]: the nearest integer, ties towards positive infinity. *)
Definition Math_round (x : Q) : Z := Qfloor (x + (1 # 2)).

(** *** Binary64 arithmetic

    A JavaScript number is an IEEE 754 double.  Where the result of the
    program depends on the rounding of its arithmetic, an operation is its
    exact rational result rounded to the nearest double, ties to the even
    significand: [fl].  The exponent range is not modelled; every number
    this is used for lies well inside it. *)

Module Double.

(** The integer nearest to [s], ties to the even one. *)
Definition round_even (s : Q) : Z :=
  let q := Qfloor s in
  match Qcompare (s - inject_Z q) (1 # 2) with
  | Lt => q
  | Gt => (q + 1)%Z
  | Eq => if Z.even q then q else (q + 1)%Z
  end.

Definition pow2 (e : Z) : Q := Qpower 2 e.

(** The exponent [e] of the last bit of a positive [x]:
    [2^52 <= x / 2^e < 2^53]. *)
Definition exponent (x : Q) : Z :=
  let e0 := (Z.log2 (Qnum x) - Z.log2 (Zpos (Qden x)) - 52)%Z in
  if Qltb (x / pow2 e0) (pow2 52) then (e0 - 1)%Z else e0.

(** The double nearest to a positive [x]: a 53-bit significand times
    [2^e]. *)
Definition fl_pos (x : Q) : Q :=
  inject_Z (round_even (x / pow2 (exponent x))) * pow2 (exponent x).

(** The double nearest to [x]. *)
Definition fl (x : Q) : Q :=
  match Qnum x with
  | Z0 => 0
  | Zpos _ => fl_pos x
  | Zneg _ => - fl_pos (- x)
  end.

(** The unit roundoff [2^-53]. *)
Definition u53 : Q := pow2 (-53).

End Double.

(* ================================================================== *)
(** ** config/patterns.config.ts *)
(* ================================================================== *)

(** The five domain tags accepted by the server ([validateDomain], and the
    [z.enum] of the tool schema). *)
Inductive Domain : Type := code | docs | data | product | research.

Definition domain_name (d : Domain) : jsstring :=
  match d with
  | code => js "code" | docs => js "docs" | data => js "data"
  | product => js "product" | research => js "research"
  end.

Module Patterns.

(** Class of the listed ASCII characters. *)
Definition chars (s : string) : regex :=
  Cls (map (fun a => (N_of_ascii a, N_of_ascii a)) (list_ascii_of_string s)).

(** [\b...\b] *)
Definition word (r : regex) : regex := Seqs [Wordb; r; Wordb].

(** [(w1|w2|...)] of literal words; the parentheses capture nothing that the
    program reads. *)
Definition oneof (ws : list string) : regex := Alts (map Lit ws).

(** [lit] followed by an optional character of [suffix]: [lit[suffix]?]. *)
Definition lit_opt (lit suffix : string) : regex :=
  Seq (Lit lit) (Opt (chars suffix)).

Definition VAGUE_WORDS : list RegExp :=
  [ rx_i (word (Seqs [Lit "optimi"; chars "sz"; Lit "e"; Opt (chars "ds")]));
    rx_i (word (Lit "better"));
    rx_i (word (Lit "quickly"));
    rx_i (word (lit_opt "improve" "ds"));
    rx_i (word (Lit "nice"));
    rx_i (word (Lit "good"));
    rx_i (word (Lit "clean"));
    rx_i (word (Lit "efficient"));
    rx_i (word (Lit "simple"));
    rx_i (word (Lit "easy"));
    rx_i (word (Lit "fast"));
    rx_i (word (Lit "smooth"));
    rx_i (word (Lit "pretty"));
    rx_i (word (Lit "quite"));
    rx_i (word (Lit "very"));
    rx_i (word (Lit "really"));
    rx_i (word (Lit "somewhat"));
    rx_i (word (Lit "rather"));
    rx_i (word (Lit "basically"));
    rx_i (word (Lit "obviously"));
    rx_i (word (Lit "clearly")) ].

Definition CLARITY_INDICATORS : list RegExp :=
  map (fun w => rx_i (word (Lit w)))
    [ "specifically"; "exactly"; "must"; "shall"; "required"; "mandatory";
      "will"; "should"; "precisely"; "explicitly"; "defined as";
      "measured by"; "strictly"; "compulsory" ]%string.

Definition COMPLETENESS_INDICATORS : list RegExp :=
  [ rx_i (word (Lit "input"));
    rx_i (word (Lit "output"));
    rx_i (word (Lit "format"));
    rx_i (word (lit_opt "constraint" "s"));
    rx_i (word (lit_opt "limit" "s"));
    rx_i (word (lit_opt "step" "s"));
    rx_i (word (Lit "process"));
    rx_i (word (lit_opt "method" "s"));
    rx_i (word (lit_opt "workflow" "s"));
    rx_i (word (lit_opt "pipeline" "s"));
    rx_i (word (lit_opt "requirement" "s"));
    rx_i (word (lit_opt "specification" "s"));
    rx_i (word (lit_opt "parameter" "s"));
    rx_i (word (Lit "criteria")) ].

Definition CONCRETE_VERBS : list RegExp :=
  [ rx_i (word (lit_opt "create" "ds"));
    rx_i (word (lit_opt "generate" "ds"));
    rx_i (word (lit_opt "write" "ns"));
    rx_i (word (lit_opt "analyze" "ds"));
    rx_i (word (lit_opt "compare" "ds"));
    rx_i (word (lit_opt "list" "s"));
    rx_i (word (Seqs [Lit "summari"; chars "sz"; Lit "e"; Opt (chars "ds")]));
    rx_i (word (lit_opt "extract" "s"));
    rx_i (word (Lit "identify"));
    rx_i (word (lit_opt "calculate" "ds"));
    rx_i (word (lit_opt "implement" "s"));
    rx_i (word (lit_opt "design" "s")) ].

(** [words?|characters?|...]: each unit with an optional plural [s]. *)
Definition units (ws : list string) : regex :=
  Alts (map (fun w => lit_opt w "s") ws).

(** The en dash of [[-–]]. *)
Definition en_dash : N := 8211.
(** The bullet of [[-•*]]. *)
Definition bullet : N := 8226.

Definition MEASUREMENT_PATTERNS : list RegExp :=
  [ rx_gi (Seqs [Wordb; Plus Digit; Star Space;
                 Alts [lit_opt "word" "s"; lit_opt "character" "s";
                       lit_opt "minute" "s"; lit_opt "hour" "s";
                       lit_opt "day" "s"; Lit "%"; Lit "percent";
                       lit_opt "item" "s"; lit_opt "step" "s"];
                 Wordb]);
    rx_gi (Seqs [Wordb; oneof ["approximately"; "about"; "roughly"]%string;
                 Plus Space; Plus Digit]);
    rx_gi (Seqs [Wordb; Plus Digit; Cls [(45, 45); (en_dash, en_dash)]%N;
                 Plus Digit; Star Space;
                 units ["word"; "item"; "step"]%string]);
    rx_gi (Seqs [Wordb;
                 oneof ["less than"; "more than"; "at least"; "up to"]%string;
                 Plus Space; Plus Digit]) ].

Definition STRUCTURE_PATTERNS : list RegExp :=
  [ rx_g (Seq (Cls [(45, 45); (bullet, bullet); (42, 42)]%N) (Plus Space));
    rx_g (Seqs [Plus Digit; Lit "."; Plus Space]);
    rx_g (Seq (Rep 1 (Some 6%nat) (Lit "#")) (Plus Space));
    rx_gi (word (oneof ["first"; "second"; "third"; "then"; "next";
                        "finally"]%string)) ].

Definition QUESTION_WORDS : RegExp :=
  rx_gi (word (oneof ["what"; "how"; "why"; "when"; "where"; "which";
                      "who"]%string)).

(** [DOMAIN_PATTERNS[domain]]; the table has no entry for [data]. *)
Definition DOMAIN_PATTERNS (d : Domain) : option (list RegExp) :=
  match d with
  | code => Some
      [ rx_gi (word (oneof ["function"; "class"; "method"; "variable"; "API";
                            "endpoint"; "database"; "framework"]%string));
        rx_gi (word (oneof ["implement"; "deploy"; "debug"; "test";
                            "refactor"; "optimize"]%string));
        rx_gi (word (oneof ["TypeScript"; "JavaScript"; "Python"; "React";
                            "Node.js"; "SQL"]%string)) ]
  | docs => Some
      [ rx_gi (word (oneof ["documentation"; "guide"; "tutorial";
                            "reference"; "manual"; "FAQ"]%string));
        rx_gi (word (oneof ["section"; "chapter"; "appendix"; "glossary";
                            "index"]%string));
        rx_gi (word (oneof ["explain"; "describe"; "outline";
                            "summarize"]%string)) ]
  | product => Some
      [ rx_gi (word (oneof ["feature"; "requirement"; "user story";
                            "acceptance criteria"; "MVP"]%string));
        rx_gi (word (oneof ["stakeholder"; "customer"; "user"; "persona";
                            "journey"]%string));
        rx_gi (word (oneof ["prioritize"; "roadmap"; "milestone"; "release";
                            "sprint"]%string)) ]
  | research => Some
      [ rx_gi (word (oneof ["hypothesis"; "methodology"; "analysis";
                            "findings"; "conclusion"]%string));
        rx_gi (word (oneof ["data"; "sample"; "statistical"; "correlation";
                            "significance"]%string));
        rx_gi (word (oneof ["study"; "experiment"; "survey"; "interview";
                            "observation"]%string)) ]
  | data => None
  end.

(** [VAGUE_LANGUAGE_SUGGESTIONS]: each key, read both as a substring and as
    a pattern, with its suggestions, in declaration order. *)
Definition VAGUE_LANGUAGE_SUGGESTIONS
  : list (string * regex * list string) :=
  [ ("better", Lit "better",
      ["Specify measurable improvements"; "Define quality criteria"]);
    ("optimi", Lit "optimi",
      ["Define optimization criteria and metrics";
       "Specify performance targets"]);
    ("improve", Lit "improve",
      ["Quantify the improvement goals"; "Define success metrics"]);
    ("good|nice", oneof ["good"; "nice"],
      ["Define quality criteria specifically"; "Use measurable standards"]);
    ("fast|quick", oneof ["fast"; "quick"],
      ["Specify performance requirements"; "Define time constraints"]);
    ("clean", Lit "clean",
      ["Define code quality standards"; "Specify formatting rules"]);
    ("efficient", Lit "efficient",
      ["Define efficiency metrics"; "Specify resource constraints"]);
    ("simple", Lit "simple",
      ["Define complexity constraints"; "Specify simplicity criteria"]);
    ("easy", Lit "easy",
      ["Define usability requirements"; "Specify learning curve goals"])
  ]%string.

Definition getDomainPatterns (domain : option Domain) : list RegExp :=
  match domain with
  | None => []
  | Some d => match DOMAIN_PATTERNS d with
              | None => []
              | Some ps => ps
              end
  end.

Definition getVagueSuggestions (vagueTerms : list jsstring)
  : list jsstring :=
  unique
    (flat_map
       (fun term =>
          let normalizedTerm := toLowerCase term in
          flat_map
            (fun entry =>
               match entry with
               | (pattern, re, termSuggestions) =>
                   if includes normalizedTerm (js pattern)
                      || test (rx_i re) normalizedTerm
                   then map js termSuggestions
                   else []
               end)
            VAGUE_LANGUAGE_SUGGESTIONS)
       vagueTerms).

End Patterns.

(* ================================================================== *)
(** ** config/scoring.config.ts *)
(* ================================================================== *)

Module Scoring.

(** A configuration object is a finite map from its property names to
    numbers; [Partial<...>] objects leave some properties out, and the object
    spread [{...a, ...b}] lets [b] override [a]. *)

Module Cl.
Inductive key : Type :=
| baseScore | vagueWordPenalty | maxVagueWordPenalty
| clarityIndicatorBonus | maxClarityIndicatorBonus
| measurementBonus | maxMeasurementBonus | verbBonus | maxVerbBonus
| minSentenceLength | sentenceLengthThreshold1 | sentenceLengthThreshold2
| longSentencePenalty1 | longSentencePenalty2 | structureBonus.
End Cl.

Module Co.
Inductive key : Type :=
| baseScore | titleBonus | titleMinLength | instructionsBonus
| constraintsBonus | domainBonus | formatBonus | sectionsBonus
| maxSectionsBonus | completenessIndicatorBonus
| maxCompletenessIndicatorBonus | exampleBonus
| depthBonus1 | depthBonus2 | depthBonus3
| depthThreshold1 | depthThreshold2 | depthThreshold3
| shortInstructionPenalty | shortInstructionThreshold.
End Co.

Record ClarityConfig := {
  clarity_num : Cl.key -> Q;
  proportionalScoring : bool
}.

Definition CompletenessConfig := Co.key -> Q.

Record ValidationConfig := {
  minPromptLength : nat;
  maxPromptLength : nat;
  roundingPrecision : nat
}.

Record ScoringConfig := {
  clarity : ClarityConfig;
  completeness : CompletenessConfig;
  validation : ValidationConfig
}.

Definition DEFAULT_SCORING_CONFIG : ScoringConfig := {|
  clarity := {|
    clarity_num := fun k =>
      match k with
      | Cl.baseScore => 0.5
      | Cl.vagueWordPenalty => 0.05
      | Cl.maxVagueWordPenalty => 0.25
      | Cl.clarityIndicatorBonus => 0.03
      | Cl.maxClarityIndicatorBonus => 0.15
      | Cl.measurementBonus => 0.02
      | Cl.maxMeasurementBonus => 0.1
      | Cl.verbBonus => 0.02
      | Cl.maxVerbBonus => 0.1
      | Cl.minSentenceLength => 5
      | Cl.sentenceLengthThreshold1 => 150
      | Cl.sentenceLengthThreshold2 => 250
      | Cl.longSentencePenalty1 => 0.05
      | Cl.longSentencePenalty2 => 0.1
      | Cl.structureBonus => 0.05
      end;
    proportionalScoring := true |};
  completeness := fun k =>
    match k with
    | Co.baseScore => 0.35
    | Co.titleBonus => 0.08
    | Co.titleMinLength => 5
    | Co.instructionsBonus => 0.18
    | Co.constraintsBonus => 0.12
    | Co.domainBonus => 0.08
    | Co.formatBonus => 0.08
    | Co.sectionsBonus => 0.04
    | Co.maxSectionsBonus => 0.16
    | Co.completenessIndicatorBonus => 0.025
    | Co.maxCompletenessIndicatorBonus => 0.1
    | Co.exampleBonus => 0.08
    | Co.depthBonus1 => 0.04
    | Co.depthBonus2 => 0.04
    | Co.depthBonus3 => 0.04
    | Co.depthThreshold1 => 50
    | Co.depthThreshold2 => 100
    | Co.depthThreshold3 => 200
    | Co.shortInstructionPenalty => 0.1
    | Co.shortInstructionThreshold => 50
    end;
  validation := {|
    minPromptLength := 3;
    maxPromptLength := 10000;
    roundingPrecision := 2 |}
|}.

(** One entry of [DOMAIN_CONFIGS]: the properties it overrides.  No entry
    overrides [proportionalScoring] or a property of [validation]. *)
Record DomainConfig := {
  clarity_override : Cl.key -> option Q;
  completeness_override : Co.key -> option Q
}.

Definition DOMAIN_CONFIGS (d : Domain) : option DomainConfig :=
  match d with
  | code => Some {|
      clarity_override := fun k =>
        match k with
        | Cl.verbBonus => Some 0.03
        | Cl.maxVerbBonus => Some 0.15
        | _ => None
        end;
      completeness_override := fun k =>
        match k with
        | Co.constraintsBonus => Some 0.15
        | Co.exampleBonus => Some 0.1
        | _ => None
        end |}
  | docs => Some {|
      clarity_override := fun k =>
        match k with
        | Cl.structureBonus => Some 0.08
        | Cl.clarityIndicatorBonus => Some 0.04
        | _ => None
        end;
      completeness_override := fun k =>
        match k with
        | Co.sectionsBonus => Some 0.06
        | Co.maxSectionsBonus => Some 0.2
        | _ => None
        end |}
  | product => Some {|
      clarity_override := fun _ => None;
      completeness_override := fun k =>
        match k with
        | Co.exampleBonus => Some 0.12
        | Co.depthBonus1 => Some 0.06
        | Co.depthBonus2 => Some 0.06
        | Co.depthBonus3 => Some 0.06
        | _ => None
        end |}
  | research => Some {|
      clarity_override := fun k =>
        match k with
        | Cl.measurementBonus => Some 0.04
        | Cl.maxMeasurementBonus => Some 0.15
        | _ => None
        end;
      completeness_override := fun k =>
        match k with
        | Co.depthThreshold1 => Some 75
        | Co.depthThreshold2 => Some 150
        | Co.depthThreshold3 => Some 300
        | _ => None
        end |}
  | data => None
  end.

(** [{...base, ...over}] *)
Definition spread {K : Type} (base : K -> Q) (over : K -> option Q)
  : K -> Q :=
  fun k => match over k with Some v => v | None => base k end.

Definition getScoringConfig (domain : option Domain) : ScoringConfig :=
  match domain with
  | None => DEFAULT_SCORING_CONFIG
  | Some d =>
      match DOMAIN_CONFIGS d with
      | None => DEFAULT_SCORING_CONFIG
      | Some domainConfig => {|
          clarity := {|
            clarity_num :=
              spread (clarity_num (clarity DEFAULT_SCORING_CONFIG))
                     (clarity_override domainConfig);
            proportionalScoring :=
              proportionalScoring (clarity DEFAULT_SCORING_CONFIG) |};
          completeness :=
            spread (completeness DEFAULT_SCORING_CONFIG)
                   (completeness_override domainConfig);
          validation := validation DEFAULT_SCORING_CONFIG |}
      end
  end.

End Scoring.

(* ================================================================== *)
(** ** utils/formatting.ts and utils/validation.ts *)
(* ================================================================== *)

Module Formatting.

(** [safeRound(value, precision)] *)
Definition safeRound_at (precision : nat) (value : Q) : Q :=
  let factor := inject_Z (10 ^ Z.of_nat precision) in
  inject_Z (Math_round (value * factor)) / factor.

(** [safeRound(value)] with the default precision. *)
Definition safeRound (value : Q) : Q :=
  safeRound_at
    (Scoring.roundingPrecision
       (Scoring.validation Scoring.DEFAULT_SCORING_CONFIG))
    value.

(** [getWordCount(text)] *)
Definition getWordCount (text : jsstring) : nat :=
  match text with
  | [] => O
  | _ =>
      List.length
        (filter (fun word => Nat.ltb 0 (JS.length word))
                (split_re (rx (Plus Space)) (trim text)))
  end.

End Formatting.

Module Validation.

Inductive code : Type := TOO_SHORT | TOO_LONG.

(** [validateInputDetailed(value, 'string', minLength, maxLength)] on a
    value that is a string: [None] when valid, otherwise the error code. *)
Definition validateInputDetailed (value : jsstring)
           (minLength maxLength : option nat) : option code :=
  if match minLength with
     | Some m => Nat.ltb (JS.length value) m
     | None => false
     end
  then Some TOO_SHORT
  else if match maxLength with
          | Some M => Nat.ltb M (JS.length value)
          | None => false
          end
       then Some TOO_LONG
       else None.

Definition valid (r : option code) : bool :=
  match r with None => true | Some _ => false end.

End Validation.

(* ================================================================== *)
(** ** The specification object and the issues of the gap detector *)
(* ================================================================== *)

(** [StructuralThinking], as declared in core/analyzer.ts and in index.ts.
    Optional properties are [option]s; [metrics] has optional members in
    index.ts and both members in core/analyzer.ts. *)

Module Spec.

Record Input := { type : jsstring; ref : jsstring }.

Record Context := {
  domain : option Domain;
  inputs : option (list Input)
}.

Record Contract := {
  sections : option (list jsstring);
  schemaRef : option jsstring
}.

Record IO := { format : jsstring; contract : option Contract }.

Record Metrics := { clarity : option Q; completeness : option Q }.

Inductive Severity : Type := error | warn | info.

Record Issue := {
  path : jsstring;
  message : jsstring;
  severity : Severity
}.

Record StructuralThinking := {
  version : jsstring;
  intent : jsstring;
  title : option jsstring;
  context : option Context;
  instructions : list jsstring;
  constraints : option (list jsstring);
  io : IO;
  ambiguities : option (list Issue);
  metrics : option Metrics;
  notes : option jsstring
}.

Record GapDetection := {
  issues : list Issue;
  score : Q * Q          (* clarity, completeness *)
}.

(** Truthiness of a string and of an optional array's [length]. *)
Definition truthy (s : jsstring) : bool :=
  match s with [] => false | _ => true end.

Definition opt_truthy (s : option jsstring) : bool :=
  match s with Some t => truthy t | None => false end.

Definition opt_length {A : Type} (l : option (list A)) : nat :=
  match l with Some x => List.length x | None => O end.

(** [spec.io?.contract?.sections] *)
Definition contract_sections (spec : StructuralThinking)
  : option (list jsstring) :=
  match contract (io spec) with
  | Some c => sections c
  | None => None
  end.

(** [spec.context?.domain] and [spec.context?.inputs] *)
Definition context_domain (spec : StructuralThinking) : option Domain :=
  match context spec with Some c => domain c | None => None end.

Definition context_inputs (spec : StructuralThinking)
  : option (list Input) :=
  match context spec with Some c => inputs c | None => None end.

End Spec.

Import Spec.

(** [list.filter(rx => rx.test(text)).length] for patterns without the [g]
    flag. *)
Definition count_tests (ps : list RegExp) (text : jsstring) : nat :=
  List.length (filter (fun re => test re text) ps).

(** [list.reduce((count, p) => count + (text.match(p) || []).length, 0)] *)
Definition count_matches (ps : list RegExp) (text : jsstring) : nat :=
  fold_left (fun count p => (count + match_count p text)%nat) ps O.

(** [list.some(p => p.test(text))] over shared pattern objects whose
    [lastIndex] values are [st]; it stops at the first success. *)
Fixpoint some_test (ps : list RegExp) (st : list nat) (text : jsstring)
  : bool * list nat :=
  match ps, st with
  | p :: ps', l :: st' =>
      let (b, l') := test_obj p text l in
      if b then (true, l' :: st')
      else let (b', st'') := some_test ps' st' text in (b', l' :: st'')
  | _, _ => (false, st)
  end.

(* ================================================================== *)
(** ** core/analyzer.ts *)
(* ================================================================== *)

Module Analyzer.

Import Patterns Scoring Formatting Validation Spec.

(** The mutable state the module's functions share: the [lastIndex] of each
    element of [STRUCTURE_PATTERNS], the only [g]-flagged pattern objects
    that are used through [test].  ([String.prototype.match] resets and
    leaves [lastIndex] at 0, so the other shared patterns carry no state.) *)
Definition RegexState := list nat.

Definition fresh : RegexState := [0; 0; 0; 0]%nat.

Record VagueLanguageAnalysis := {
  hasVague : bool;
  vagueTerms : list jsstring;
  suggestions : list jsstring
}.

Definition analyzeVagueLanguage (text : jsstring) : VagueLanguageAnalysis :=
  let vagueTerms :=
    flat_map (fun re => match match_first re 0 text with
                        | Some (m, groups) => [m]
                        | None => []
                        end) VAGUE_WORDS in
  let uniqueTerms := unique vagueTerms in
  {| hasVague := Nat.ltb 0 (List.length uniqueTerms);
     vagueTerms := uniqueTerms;
     suggestions := getVagueSuggestions uniqueTerms |}.

Definition calculateClarity (st : RegexState) (text : jsstring)
           (hasConstraints : bool) (domain : option Domain)
  : Q * RegexState :=
  if negb (valid (validateInputDetailed text (Some 3%nat) None)) then (0, st)
  else
    let config := Scoring.clarity (getScoringConfig domain) in
    let c := clarity_num config in
    let clarityScore := c Cl.baseScore in
    let totalWords := getWordCount text in
    (* Proportional vague language penalty *)
    let vagueCount := count_tests VAGUE_WORDS text in
    let clarityScore :=
      if proportionalScoring config && Nat.ltb 0 totalWords then
        let vagueRatio := QofNat vagueCount / QofNat totalWords in
        clarityScore
        - Qmin (vagueRatio * QofNat totalWords * c Cl.vagueWordPenalty)
               (c Cl.maxVagueWordPenalty)
      else
        clarityScore
        - Qmin (QofNat vagueCount * c Cl.vagueWordPenalty)
               (c Cl.maxVagueWordPenalty) in
    (* Reward clarity indicators *)
    let clarityCount := count_tests CLARITY_INDICATORS text in
    let clarityScore :=
      clarityScore
      + Qmin (QofNat clarityCount * c Cl.clarityIndicatorBonus)
             (c Cl.maxClarityIndicatorBonus) in
    (* Reward specific numbers/measurements *)
    let numberMatches := count_matches MEASUREMENT_PATTERNS text in
    let clarityScore :=
      clarityScore
      + Qmin (QofNat numberMatches * c Cl.measurementBonus)
             (c Cl.maxMeasurementBonus) in
    (* Reward concrete verbs *)
    let verbCount := count_tests CONCRETE_VERBS text in
    let clarityScore :=
      clarityScore
      + Qmin (QofNat verbCount * c Cl.verbBonus) (c Cl.maxVerbBonus) in
    (* Penalize overly long sentences *)
    let sentences :=
      filter (fun s => Qgtb (QofNat (JS.length (trim s)))
                            (c Cl.minSentenceLength))
             (split_re (rx (Plus (chars ".!?"))) text) in
    let clarityScore :=
      if Nat.ltb 0 (List.length sentences) then
        let avgSentenceLength :=
          QofNat (fold_left (fun sum s => (sum + JS.length s)%nat)
                            sentences O)
          / QofNat (List.length sentences) in
        let clarityScore :=
          if Qgtb avgSentenceLength (c Cl.sentenceLengthThreshold1)
          then clarityScore - c Cl.longSentencePenalty1
          else clarityScore in
        if Qgtb avgSentenceLength (c Cl.sentenceLengthThreshold2)
        then clarityScore - c Cl.longSentencePenalty2
        else clarityScore
      else clarityScore in
    (* Reward structured language (bullets, numbered lists) *)
    let (hasStructure, st') := some_test STRUCTURE_PATTERNS st text in
    let clarityScore :=
      if hasStructure then clarityScore + c Cl.structureBonus
      else clarityScore in
    (* Bonus for question words that indicate clear intent *)
    let questionMatches := match_count QUESTION_WORDS text in
    let clarityScore :=
      if Nat.ltb 0 questionMatches
      then clarityScore + Qmin (QofNat questionMatches * 0.02) 0.08
      else clarityScore in
    (* Domain-specific bonuses *)
    let domainPatterns := getDomainPatterns domain in
    let domainMatches := count_matches domainPatterns text in
    let clarityScore :=
      if Nat.ltb 0 domainMatches
      then clarityScore + Qmin (QofNat domainMatches * 0.01) 0.05
      else clarityScore in
    (safeRound (Qmax 0 (Qmin 1 clarityScore)), st').

Definition calculateCompleteness (text : jsstring)
           (spec : StructuralThinking) (domain : option Domain) : Q :=
  let config := Scoring.completeness (getScoringConfig domain) in
  let completenessScore := config Co.baseScore in
  (* Title quality *)
  let completenessScore :=
    match title spec with
    | Some t =>
        if truthy t && Qgeb (QofNat (JS.length t)) (config Co.titleMinLength)
        then completenessScore + config Co.titleBonus
        else completenessScore
    | None => completenessScore
    end in
  (* Instructions depth and quality *)
  let completenessScore :=
    if Nat.ltb 0 (List.length (instructions spec)) then
      let completenessScore := completenessScore + config Co.instructionsBonus in
      let instructionText := join (js " ") (instructions spec) in
      let instructionWordCount := QofNat (getWordCount instructionText) in
      let completenessScore :=
        if Qgtb instructionWordCount (config Co.depthThreshold1)
        then completenessScore + config Co.depthBonus1
        else completenessScore in
      let completenessScore :=
        if Qgtb instructionWordCount (config Co.depthThreshold2)
        then completenessScore + config Co.depthBonus2
        else completenessScore in
      let completenessScore :=
        if Qgtb instructionWordCount (config Co.depthThreshold3)
        then completenessScore + config Co.depthBonus3
        else completenessScore in
      (* Penalty for very short instructions *)
      if Qltb instructionWordCount (config Co.shortInstructionThreshold)
      then completenessScore - config Co.shortInstructionPenalty
      else completenessScore
    else completenessScore in
  (* Constraints presence *)
  let completenessScore :=
    if Nat.ltb 0 (opt_length (constraints spec))
    then completenessScore + config Co.constraintsBonus
    else completenessScore in
  (* Domain context *)
  let completenessScore :=
    match context_domain spec with
    | Some _ => completenessScore + config Co.domainBonus
    | None => completenessScore
    end in
  (* Output format specification *)
  let completenessScore :=
    if truthy (format (io spec))
    then completenessScore + config Co.formatBonus
    else completenessScore in
  (* Output contract sections *)
  let completenessScore :=
    if Nat.ltb 0 (opt_length (contract_sections spec)) then
      let sectionBonus :=
        Qmin (QofNat (opt_length (contract_sections spec))
              * config Co.sectionsBonus)
             (config Co.maxSectionsBonus) in
      completenessScore + sectionBonus
    else completenessScore in
  (* Completeness indicators in text *)
  let completenessCount := count_tests COMPLETENESS_INDICATORS text in
  let indicatorBonus :=
    Qmin (QofNat completenessCount * config Co.completenessIndicatorBonus)
         (config Co.maxCompletenessIndicatorBonus) in
  let completenessScore := completenessScore + indicatorBonus in
  (* Examples and concrete details *)
  let hasExamples :=
    test (rx_gi (word (oneof ["example"; "instance"; "such as"; "like";
                              "including"]%string))) text in
  let completenessScore :=
    if hasExamples then completenessScore + config Co.exampleBonus
    else completenessScore in
  safeRound (Qmax 0 (Qmin 1 completenessScore)).

(** The issues of [detectGaps]. *)
Definition issue_sections : Issue := {|
  path := js "/io/contract/sections";
  message := js "Missing markdown sections for output contract";
  severity := warn |}.

Definition issue_vague : Issue := {|
  path := js "/instructions";
  message := js "Vague language detected (optimize/better/quickly/etc.)";
  severity := warn |}.

Definition issue_constraints : Issue := {|
  path := js "/constraints";
  message := js "Consider adding constraints (word limit, style, tone)";
  severity := info |}.

Definition issue_inputs : Issue := {|
  path := js "/context/inputs";
  message :=
    js "No inputs linked (file/url/text). Add at least one if applicable.";
  severity := info |}.

(** [cond ? [issue] : []], the effect of a guarded [issues.push]. *)
Definition push_if (cond : bool) (i : Issue) : list Issue :=
  if cond then [i] else [].

(** [spec.metrics!.completeness = v] *)
Definition set_completeness (spec : StructuralThinking) (v : Q)
  : StructuralThinking := {|
  version := version spec;
  intent := intent spec;
  title := title spec;
  context := context spec;
  instructions := instructions spec;
  constraints := constraints spec;
  io := io spec;
  ambiguities := ambiguities spec;
  metrics :=
    Some {| clarity := match metrics spec with
                       | Some m => clarity m
                       | None => None
                       end;
            completeness := Some v |};
  notes := notes spec
|}.

Definition draftFromText (st : RegexState) (prompt : jsstring)
           (domain : option Domain) : StructuralThinking * RegexState :=
  let lines := filter (fun line => truthy (trim line))
                      (split_chr 10 prompt) in
  let joined := trim (join (js " ") lines) in
  (* Determine intent based on content analysis *)
  let intent_ :=
    if test (rx_i (word (oneof ["create"; "build"; "implement"; "develop";
                                "generate"]%string))) joined
    then js "generate_code"
    else if test (rx_i (word (oneof ["analyze"; "review"; "evaluate";
                                     "assess"]%string))) joined
    then js "analyze"
    else if test (rx_i (word (oneof ["explain"; "describe"; "document";
                                     "outline"]%string))) joined
    then js "explain"
    else js "general" in
  let (clarity0, st') := calculateClarity st joined false domain in
  (* Extract word limit constraints *)
  let wordLimitMatch :=
    match_first
      (rx_i (Seqs [Grp 1 (Rep 2 (Some 4%nat) Digit); Star Space;
                   lit_opt "word" "s"])) 1 joined in
  let constraints_ :=
    match wordLimitMatch with
    | Some (_, [Some g1]) => [js "max " ++ g1 ++ js " words"]
    | _ => []
    end in
  (* Detect common section hints *)
  let sections_ :=
    (if test (rx_i (word (oneof ["overview"; "summary";
                                 "introduction"]%string))) joined
     then [js "Overview"] else [])
    ++ (if test (rx_i (word (Alts [lit_opt "detail" "s";
                                   Lit "implementation";
                                   lit_opt "step" "s"]))) joined
        then [js "Details"] else [])
    ++ (if test (rx_i (word (Alts [lit_opt "next step" "s";
                                   Lit "conclusion";
                                   Seqs [Lit "follow"; Opt (chars "- ");
                                         Lit "up"]]))) joined
        then [js "NextSteps"] else [])
    ++ (if test (rx_i (word (Alts [lit_opt "example" "s";
                                   lit_opt "sample" "s"]))) joined
        then [js "Examples"] else []) in
  let spec := {|
    version := js "1.0";
    intent := intent_;
    title := Some (match lines with
                   | l :: _ => if truthy l then l else slice0 joined 100
                   | [] => slice0 joined 100
                   end);
    context := Some {| domain := domain; inputs := None |};
    instructions := [joined];
    constraints := Some constraints_;
    io := {| format := js "markdown";
             contract :=
               Some {| sections :=
                         if Nat.ltb 0 (List.length sections_)
                         then Some sections_ else None;
                       schemaRef := None |} |};
    ambiguities := Some [];
    metrics := Some {| clarity := Some clarity0; completeness := Some 0 |};
    notes := Some []
  |} in
  (* Calculate final completeness score *)
  (set_completeness spec (calculateCompleteness joined spec domain), st').

Definition metric_or_0 (m : option Q) : Q :=
  match m with
  | Some v => v      (* [v || 0] is [v], also when [v] is 0 *)
  | None => 0
  end.

Definition detectGaps (spec : StructuralThinking) : GapDetection :=
  (* Check for missing sections *)
  let i1 :=
    push_if (eqs (format (io spec)) (js "markdown")
             && Nat.eqb (opt_length (contract_sections spec)) 0)
            issue_sections in
  (* Check for vague language *)
  let instructionText := join (js " ") (instructions spec) in
  let vagueAnalysis := analyzeVagueLanguage instructionText in
  let i2 := push_if (hasVague vagueAnalysis) issue_vague in
  (* Check for missing constraints *)
  let i3 :=
    push_if (Nat.eqb (opt_length (constraints spec)) 0) issue_constraints in
  (* Check for missing inputs *)
  let i4 :=
    push_if (Nat.eqb (opt_length (context_inputs spec)) 0) issue_inputs in
  {| issues := i1 ++ i2 ++ i3 ++ i4;
     score :=
       (metric_or_0 (match metrics spec with
                     | Some m => clarity m | None => None end),
        metric_or_0 (match metrics spec with
                     | Some m => completeness m | None => None end)) |}.

End Analyzer.

(** *** The signals [calculateClarity] reads off a text

    The scorer is one accumulator; to compare two texts "all other signals
    held constant" its inputs are named here, one per step of
    [Analyzer.calculateClarity], and the accumulator is split into the vague
    language penalty and the steps that follow it. *)

Module Signals.

Import Patterns Scoring Formatting Validation Spec.

Record ClaritySignals := {
  clarityCount : nat;        (* matching CLARITY_INDICATORS *)
  numberMatches : nat;       (* matches of MEASUREMENT_PATTERNS *)
  verbCount : nat;           (* matching CONCRETE_VERBS *)
  longSentences1 : bool;     (* mean sentence length above threshold 1 *)
  longSentences2 : bool;     (* mean sentence length above threshold 2 *)
  hasStructure : bool;       (* a STRUCTURE_PATTERNS element tests true *)
  questionMatches : nat;     (* matches of QUESTION_WORDS *)
  domainMatches : nat        (* matches of the domain's patterns *)
}.

Definition valid_text (text : jsstring) : bool :=
  valid (validateInputDetailed text (Some 3%nat) None).

Definition vagueCount (text : jsstring) : nat :=
  count_tests VAGUE_WORDS text.

Definition sentences (c : Cl.key -> Q) (text : jsstring) : list jsstring :=
  filter (fun s => Qgtb (QofNat (JS.length (trim s)))
                        (c Cl.minSentenceLength))
         (split_re (rx (Plus (chars ".!?"))) text).

Definition avgSentenceLength (ss : list jsstring) : Q :=
  QofNat (fold_left (fun sum s => (sum + JS.length s)%nat) ss O)
  / QofNat (List.length ss).

Definition other_signals (st : Analyzer.RegexState)
           (domain : option Domain) (text : jsstring) : ClaritySignals :=
  let c := clarity_num (Scoring.clarity (getScoringConfig domain)) in
  let ss := sentences c text in
  {| clarityCount := count_tests CLARITY_INDICATORS text;
     numberMatches := count_matches MEASUREMENT_PATTERNS text;
     verbCount := count_tests CONCRETE_VERBS text;
     longSentences1 :=
       Nat.ltb 0 (List.length ss)
       && Qgtb (avgSentenceLength ss) (c Cl.sentenceLengthThreshold1);
     longSentences2 :=
       Nat.ltb 0 (List.length ss)
       && Qgtb (avgSentenceLength ss) (c Cl.sentenceLengthThreshold2);
     hasStructure := fst (some_test STRUCTURE_PATTERNS st text);
     questionMatches := match_count QUESTION_WORDS text;
     domainMatches := count_matches (getDomainPatterns domain) text |}.

(** The vague language penalty of a text with [n] matching vague patterns. *)
Definition vague_penalty (c : Cl.key -> Q) (n : nat) : Q :=
  Qmin (QofNat n * c Cl.vagueWordPenalty) (c Cl.maxVagueWordPenalty).

(** What the steps after the vague language penalty add to the score. *)
Definition bonuses (c : Cl.key -> Q) (sg : ClaritySignals) : Q :=
  Qmin (QofNat (clarityCount sg) * c Cl.clarityIndicatorBonus)
       (c Cl.maxClarityIndicatorBonus)
  + Qmin (QofNat (numberMatches sg) * c Cl.measurementBonus)
         (c Cl.maxMeasurementBonus)
  + Qmin (QofNat (verbCount sg) * c Cl.verbBonus) (c Cl.maxVerbBonus)
  - (if longSentences1 sg then c Cl.longSentencePenalty1 else 0)
  - (if longSentences2 sg then c Cl.longSentencePenalty2 else 0)
  + (if hasStructure sg then c Cl.structureBonus else 0)
  + (if Nat.ltb 0 (questionMatches sg)
     then Qmin (QofNat (questionMatches sg) * 0.02) 0.08 else 0)
  + (if Nat.ltb 0 (domainMatches sg)
     then Qmin (QofNat (domainMatches sg) * 0.01) 0.05 else 0).

(** The score before clamping and rounding. *)
Definition raw_clarity (st : Analyzer.RegexState) (domain : option Domain)
           (text : jsstring) : Q :=
  let c := clarity_num (Scoring.clarity (getScoringConfig domain)) in
  c Cl.baseScore - vague_penalty c (vagueCount text)
  + bonuses c (other_signals st domain text).

(** A number between 0 and 1 with two decimals. *)
Definition two_decimals_in_unit (q : Q) : Prop :=
  0 <= q <= 1 /\ exists k : Z, (0 <= k <= 100)%Z /\ q == inject_Z k / 100.

(** The entry of the gap detector's list that scenario D asks for. *)
Definition is_constraints_info (i : Issue) : bool :=
  match severity i with
  | info => eqs (path i) (js "/constraints")
  | _ => false
  end.

End Signals.

(* ================================================================== *)
(** ** index.ts: the monolithic server's own drafter, scorers and detector *)
(* ================================================================== *)

Module Legacy.

Import Patterns Spec.
Module Cl := Scoring.Cl.
Module Co := Scoring.Co.

(** [SCORING_CONFIG] *)
Definition SCORING_CONFIG_clarity (k : Cl.key) : Q :=
  match k with
  | Cl.baseScore => 0.5
  | Cl.vagueWordPenalty => 0.08
  | Cl.maxVagueWordPenalty => 0.4
  | Cl.clarityIndicatorBonus => 0.12
  | Cl.maxClarityIndicatorBonus => 0.35
  | Cl.measurementBonus => 0.1
  | Cl.maxMeasurementBonus => 0.25
  | Cl.verbBonus => 0.06
  | Cl.maxVerbBonus => 0.18
  | Cl.longSentencePenalty1 => 0.08
  | Cl.longSentencePenalty2 => 0.12
  | Cl.structureBonus => 0.12
  | Cl.sentenceLengthThreshold1 => 150
  | Cl.sentenceLengthThreshold2 => 200
  | Cl.minSentenceLength => 10
  end.

Definition SCORING_CONFIG_proportionalScoring : bool := true.

Definition SCORING_CONFIG_completeness (k : Co.key) : Q :=
  match k with
  | Co.baseScore => 0.35
  | Co.titleBonus => 0.08
  | Co.titleMinLength => 5
  | Co.instructionsBonus => 0.18
  | Co.constraintsBonus => 0.12
  | Co.domainBonus => 0.08
  | Co.formatBonus => 0.08
  | Co.sectionsBonus => 0.04
  | Co.maxSectionsBonus => 0.16
  | Co.completenessIndicatorBonus => 0.025
  | Co.maxCompletenessIndicatorBonus => 0.1
  | Co.exampleBonus => 0.08
  | Co.depthBonus1 => 0.04
  | Co.depthBonus2 => 0.04
  | Co.depthBonus3 => 0.04
  | Co.depthThreshold1 => 50
  | Co.depthThreshold2 => 100
  | Co.depthThreshold3 => 200
  | Co.shortInstructionPenalty => 0.1
  | Co.shortInstructionThreshold => 50
  end.

Definition SCORING_CONFIG_minPromptLength : nat := 3.
Definition SCORING_CONFIG_maxPromptLength : nat := 10000.
Definition SCORING_CONFIG_roundingPrecision : nat := 2.

(** The four word lists of index.ts are, pattern for pattern, those of
    config/patterns.config.ts. *)
Definition vagueWords : list RegExp := VAGUE_WORDS.
Definition clarityIndicators : list RegExp := CLARITY_INDICATORS.
Definition completenessIndicators : list RegExp := COMPLETENESS_INDICATORS.
Definition concreteVerbs : list RegExp := CONCRETE_VERBS.

Definition validateInput (value : jsstring) (minLength maxLength : option nat)
  : bool :=
  Validation.valid (Validation.validateInputDetailed value minLength maxLength).

Definition safeRound (value : Q) : Q :=
  Formatting.safeRound_at SCORING_CONFIG_roundingPrecision value.

Definition hasVagueLanguage (text : jsstring) : bool :=
  existsb (fun re => test re text) vagueWords.

Definition getWordCount (text : jsstring) : nat :=
  match text with
  | [] => O
  | _ =>
      List.length
        (filter (fun word => Nat.ltb 0 (JS.length word))
                (split_re (rx (Plus Space)) (trim text)))
  end.

Definition calculateClarity (text : jsstring) (hasConstraints : bool) : Q :=
  if negb (validateInput text (Some SCORING_CONFIG_minPromptLength) None)
  then 0
  else
    let c := SCORING_CONFIG_clarity in
    let clarityScore := c Cl.baseScore in
    let totalWords := getWordCount text in
    (* Proportional vague language penalty *)
    let vagueCount := count_tests vagueWords text in
    let clarityScore :=
      if SCORING_CONFIG_proportionalScoring && Nat.ltb 0 totalWords then
        let vagueRatio := QofNat vagueCount / QofNat totalWords in
        clarityScore
        - Qmin (vagueRatio * QofNat totalWords * c Cl.vagueWordPenalty)
               (c Cl.maxVagueWordPenalty)
      else
        clarityScore
        - Qmin (QofNat vagueCount * c Cl.vagueWordPenalty)
               (c Cl.maxVagueWordPenalty) in
    (* Reward clarity indicators *)
    let clarityCount := count_tests clarityIndicators text in
    let clarityScore :=
      clarityScore
      + Qmin (QofNat clarityCount * c Cl.clarityIndicatorBonus)
             (c Cl.maxClarityIndicatorBonus) in
    (* Reward specific numbers/measurements *)
    let numberMatches :=
      match_count
        (rx_gi (Seqs [Wordb; Plus Digit; Star Space;
                      Alts [lit_opt "word" "s"; lit_opt "character" "s";
                            lit_opt "minute" "s"; lit_opt "hour" "s";
                            lit_opt "day" "s"; Lit "%"; Lit "percent";
                            lit_opt "item" "s"; lit_opt "step" "s"];
                      Wordb])) text in
    let clarityScore :=
      clarityScore
      + Qmin (QofNat numberMatches * c Cl.measurementBonus)
             (c Cl.maxMeasurementBonus) in
    (* Reward concrete verbs *)
    let verbCount := count_tests concreteVerbs text in
    let clarityScore :=
      clarityScore
      + Qmin (QofNat verbCount * c Cl.verbBonus)
             (c Cl.maxVerbBonus) in
    (* Penalize overly long sentences *)
    let sentences :=
      filter (fun s => Qgtb (QofNat (JS.length (trim s)))
                            (c Cl.minSentenceLength))
             (split_re (rx (Plus (chars ".!?"))) text) in
    let clarityScore :=
      if Nat.ltb 0 (List.length sentences) then
        let avgSentenceLength :=
          QofNat (fold_left (fun sum s => (sum + JS.length s)%nat)
                            sentences O)
          / QofNat (List.length sentences) in
        let clarityScore :=
          if Qgtb avgSentenceLength (c Cl.sentenceLengthThreshold1)
          then clarityScore - c Cl.longSentencePenalty1
          else clarityScore in
        if Qgtb avgSentenceLength (c Cl.sentenceLengthThreshold2)
        then clarityScore - c Cl.longSentencePenalty2
        else clarityScore
      else clarityScore in
    (* Reward structured language (bullets, numbered lists): two regular
       expression literals, evaluated anew at every call *)
    let clarityScore :=
      if test (rx_g (Seq (Cls [(45, 45); (bullet, bullet); (42, 42)]%N)
                         (Plus Space))) text
         || test (rx_g (Seqs [Plus Digit; Lit "."; Plus Space])) text
      then clarityScore + c Cl.structureBonus
      else clarityScore in
    Qmax 0 (Qmin 1 clarityScore).

Definition calculateCompleteness (text : jsstring)
           (spec : StructuralThinking) : Q :=
  let config := SCORING_CONFIG_completeness in
  let completenessScore := config Co.baseScore in
  (* Check for key components *)
  let completenessScore :=
    match title spec with
    | Some t =>
        if truthy t
           && Qgtb (QofNat (JS.length t)) (config Co.titleMinLength)
        then completenessScore + config Co.titleBonus
        else completenessScore
    | None => completenessScore
    end in
  let completenessScore :=
    if Nat.ltb 0 (List.length (instructions spec))
    then completenessScore + config Co.instructionsBonus
    else completenessScore in
  let completenessScore :=
    if Nat.ltb 0 (opt_length (constraints spec))
    then completenessScore + config Co.constraintsBonus
    else completenessScore in
  let completenessScore :=
    match context_domain spec with
    | Some _ => completenessScore + config Co.domainBonus
    | None => completenessScore
    end in
  let completenessScore :=
    if truthy (format (io spec))
    then completenessScore + config Co.formatBonus
    else completenessScore in
  (* Reward specific format requirements *)
  let completenessScore :=
    if Nat.ltb 0 (opt_length (contract_sections spec)) then
      completenessScore
      + Qmin (QofNat (opt_length (contract_sections spec))
              * config Co.sectionsBonus)
             (config Co.maxSectionsBonus)
    else completenessScore in
  (* Check for completeness indicators in text *)
  let completenessCount := count_tests completenessIndicators text in
  let completenessScore :=
    completenessScore
    + Qmin (QofNat completenessCount
            * config Co.completenessIndicatorBonus)
           (config Co.maxCompletenessIndicatorBonus) in
  (* Reward examples or concrete references *)
  let completenessScore :=
    if test (rx_i (word (lit_opt "example" "s"))) text
       || test (rx_i (word (Lit "for instance"))) text
       || test (rx_i (word (Lit "such as"))) text
    then completenessScore + config Co.exampleBonus
    else completenessScore in
  (* Check instruction depth using word count instead of character count *)
  let instructionText := join (js " ") (instructions spec) in
  let instructionWordCount := QofNat (getWordCount instructionText) in
  let completenessScore :=
    if Qgtb instructionWordCount (config Co.depthThreshold1)
    then completenessScore + config Co.depthBonus1
    else completenessScore in
  let completenessScore :=
    if Qgtb instructionWordCount (config Co.depthThreshold2)
    then completenessScore + config Co.depthBonus2
    else completenessScore in
  let completenessScore :=
    if Qgtb instructionWordCount (config Co.depthThreshold3)
    then completenessScore + config Co.depthBonus3
    else completenessScore in
  (* Penalize overly brief instructions *)
  let completenessScore :=
    match instructions spec with
    | [only] =>
        if Qltb (QofNat (getWordCount only))
                (config Co.shortInstructionThreshold)
        then completenessScore - config Co.shortInstructionPenalty
        else completenessScore
    | _ => completenessScore
    end in
  Qmax 0 (Qmin 1 completenessScore).

(** [text.split(/\r?\n/).map(s => s.trim()).filter(Boolean)] *)
Definition toLines (text : jsstring) : list jsstring :=
  filter truthy
         (map trim (split_re (rx (Seq (Opt (Chr 13)) (Chr 10))) text)).

(** [spec.metrics = { clarity, completeness }] *)
Definition set_metrics (spec : StructuralThinking) (cl co : Q)
  : StructuralThinking := {|
  version := version spec;
  intent := intent spec;
  title := title spec;
  context := context spec;
  instructions := instructions spec;
  constraints := constraints spec;
  io := io spec;
  ambiguities := ambiguities spec;
  metrics := Some {| clarity := Some cl; completeness := Some co |};
  notes := notes spec
|}.

(** [draftFromText(prompt, domain)]; its intent and section patterns have no
    word boundaries and match anywhere in the text. *)
Definition draftFromText (prompt : jsstring) (domain : option Domain)
  : StructuralThinking :=
  let lines := toLines prompt in
  let joined := join (js " ") lines in
  let intent_ :=
    if test (rx_i (Lit "translate")) joined then js "translate"
    else if test (rx_i (oneof ["refactor"; "rewrite"]%string)) joined
    then js "refactor"
    else if test (rx_i (Lit "classify")) joined then js "classify"
    else if test (rx_i (Lit "explain")) joined then js "explain"
    else if test (rx_i (Lit "plan")) joined then js "plan"
    else if test (rx_i (Lit "compare")) joined then js "compare"
    else if test (rx_i (Seqs [Lit "summari"; chars "sz"; Lit "e"])) joined
    then js "summarize"
    else if test (rx_i (oneof ["generate"; "create"; "write"]%string)) joined
    then js "generate_code"
    else js "general" in
  (* Extract word limit like "in 200 words" *)
  let m :=
    match_first
      (rx_i (Seqs [Grp 1 (Rep 2 (Some 4%nat) Digit); Star Space;
                   lit_opt "word" "s"])) 1 joined in
  let constraints_ :=
    match m with
    | Some (_, [Some g1]) => [js "max " ++ g1 ++ js " words"]
    | _ => []
    end in
  (* Common section hints *)
  let sections_ :=
    (if test (rx_i (Lit "risk")) joined then [js "Risks"] else [])
    ++ (if test (rx_i (Seqs [Lit "next"; Star Space; lit_opt "step" "s"]))
                joined
        then [js "NextSteps"] else [])
    ++ (if test (rx_i (Alt (lit_opt "highlight" "s") (Lit "summary"))) joined
        then [js "Highlights"] else []) in
  let spec := {|
    version := js "1.0";
    intent := intent_;
    title := match lines with
             | l :: _ => Some (slice0 l 80)
             | [] => None
             end;
    context := Some {| domain := domain; inputs := None |};
    instructions := lines;
    constraints := Some constraints_;
    io := {| format := js "markdown";
             contract :=
               Some {| sections :=
                         if Nat.ltb 0 (List.length sections_)
                         then Some sections_ else None;
                       schemaRef := None |} |};
    ambiguities := Some [];
    metrics := Some {| clarity := Some 0.0; completeness := Some 0.0 |};
    notes := Some []
  |} in
  (* Dynamic clarity and completeness calculation *)
  let clarity_ :=
    calculateClarity joined (Nat.ltb 0 (List.length constraints_)) in
  let completeness_ := calculateCompleteness joined spec in
  set_metrics spec (safeRound clarity_) (safeRound completeness_).

Definition issue_format : Issue := {|
  path := js "/io/format";
  message := js "Missing output format";
  severity := error |}.

Definition issue_sections : Issue := {|
  path := js "/io/contract/sections";
  message := js "Missing markdown sections for output contract";
  severity := warn |}.

Definition issue_no_instructions : Issue := {|
  path := js "/instructions";
  message := js "No instructions provided";
  severity := error |}.

Definition issue_vague : Issue := {|
  path := js "/instructions";
  message := js "Vague language detected (optimize/better/quickly/etc.)";
  severity := warn |}.

Definition issue_constraints : Issue := {|
  path := js "/constraints";
  message := js "Consider adding constraints (word limit, style, tone)";
  severity := info |}.

Definition issue_inputs : Issue := {|
  path := js "/context/inputs";
  message :=
    js "No inputs linked (file/url/text). Add at least one if applicable.";
  severity := info |}.

Definition push_if (cond : bool) (i : Issue) : list Issue :=
  if cond then [i] else [].

Definition detectGaps (spec : StructuralThinking) : GapDetection :=
  let i1 := push_if (negb (truthy (format (io spec)))) issue_format in
  let i2 :=
    push_if (eqs (format (io spec)) (js "markdown")
             && Nat.eqb (opt_length (contract_sections spec)) 0)
            issue_sections in
  let i3 :=
    push_if (Nat.eqb (List.length (instructions spec)) 0)
            issue_no_instructions in
  let joined := join (js " ") (instructions spec) in
  let i4 := push_if (hasVagueLanguage joined) issue_vague in
  let i5 :=
    push_if (Nat.eqb (opt_length (constraints spec)) 0) issue_constraints in
  let i6 :=
    push_if (match context spec with
             | Some c => Nat.eqb (opt_length (inputs c)) 0
             | None => false
             end) issue_inputs in
  (* Recalculate metrics if not present or seem outdated *)
  let recalculatedClarity :=
    calculateClarity joined (Nat.ltb 0 (opt_length (constraints spec))) in
  let recalculatedCompleteness := calculateCompleteness joined spec in
  let clarity_ :=
    match metrics spec with
    | Some {| clarity := Some v |} => v
    | _ => recalculatedClarity
    end in
  let completeness_ :=
    match metrics spec with
    | Some {| completeness := Some v |} => v
    | _ => recalculatedCompleteness
    end in
  {| issues := i1 ++ i2 ++ i3 ++ i4 ++ i5 ++ i6;
     score := (safeRound clarity_, safeRound completeness_) |}.

End Legacy.

(* ================================================================== *)
(** ** utils/cache.ts *)
(* ================================================================== *)

Module Cache.

(** A JavaScript [Map] with string keys: its entries in insertion order,
    with at most one entry per key. *)
Section JSMap.
Variable V : Type.

Definition Map := list (jsstring * V).

Definition map_get (k : jsstring) (m : Map) : option V :=
  match find (fun kv => eqs (fst kv) k) m with
  | Some kv => Some (snd kv)
  | None => None
  end.

Definition map_has (k : jsstring) (m : Map) : bool :=
  existsb (fun kv => eqs (fst kv) k) m.

(** [m.delete(k)]: the map without [k]. *)
Definition map_delete (k : jsstring) (m : Map) : Map :=
  filter (fun kv => negb (eqs (fst kv) k)) m.

(** [m.set(k, v)]: a present key keeps its place, a new key goes last. *)
Fixpoint map_set (k : jsstring) (v : V) (m : Map) : Map :=
  match m with
  | [] => [(k, v)]
  | (k', v') :: m' =>
      if eqs k' k then (k, v) :: m' else (k', v') :: map_set k v m'
  end.

Definition map_size (m : Map) : nat := List.length m.

(** [m.keys().next().value] *)
Definition first_key (m : Map) : option jsstring :=
  match m with
  | (k, _) :: _ => Some k
  | [] => None
  end.

Definition map_keys (m : Map) : list jsstring := map fst m.

(** A well-formed map (one entry per key) without the empty-string key. *)
Definition wf (m : Map) : Prop :=
  NoDup (map_keys m) /\ Forall (fun k => truthy k = true) (map_keys m).
End JSMap.

Section LRU.
Variable T : Type.

(** [JSON.stringify(entry).length], which depends on the stored value. *)
Variable json_length : jsstring -> T -> Z -> Z -> nat -> Z -> nat.

Record CacheEntry := {
  key : jsstring;
  value : T;
  timestamp : Z;
  ttl : Z;
  accessCount : nat;
  lastAccessed : Z
}.

Record CacheStats := {
  stat_hits : nat;
  stat_misses : nat;
  stat_size : nat;
  stat_maxSize : Z;
  hitRate : Q;
  memoryUsage : nat
}.

(** An [LRUCache] object: the private map and the [stats] counters. *)
Record LRUCache := {
  cache : Map CacheEntry;
  maxSize : Z;
  defaultTTL : Z;
  hits : nat;
  misses : nat
}.

(** [new LRUCache(maxSize, defaultTTL)] *)
Definition create (maxSize defaultTTL : Z) : LRUCache := {|
  cache := [];
  maxSize := maxSize;
  defaultTTL := defaultTTL;
  hits := 0;
  misses := 0 |}.

Definition with_cache (c : LRUCache) (m : Map CacheEntry) : LRUCache := {|
  cache := m;
  maxSize := maxSize c;
  defaultTTL := defaultTTL c;
  hits := hits c;
  misses := misses c |}.

Definition miss (c : LRUCache) : LRUCache := {|
  cache := cache c;
  maxSize := maxSize c;
  defaultTTL := defaultTTL c;
  hits := hits c;
  misses := S (misses c) |}.

Definition hit (c : LRUCache) : LRUCache := {|
  cache := cache c;
  maxSize := maxSize c;
  defaultTTL := defaultTTL c;
  hits := S (hits c);
  misses := misses c |}.

(** [Date.now() - entry.timestamp > entry.ttl] *)
Definition expired (now : Z) (entry : CacheEntry) : bool :=
  (now - timestamp entry >? ttl entry)%Z.

(** [get(key)] at time [now]. *)
Definition get (now : Z) (k : jsstring) (c : LRUCache)
  : option T * LRUCache :=
  match map_get k (cache c) with
  | None => (None, miss c)
  | Some entry =>
      (* Check if entry has expired *)
      if expired now entry
      then (None, miss (with_cache c (map_delete k (cache c))))
      else
        (* Update access information *)
        let entry' := {|
          key := key entry;
          value := value entry;
          timestamp := timestamp entry;
          ttl := ttl entry;
          accessCount := S (accessCount entry);
          lastAccessed := now |} in
        (* Move to end (most recently used) *)
        (Some (value entry),
         hit (with_cache c (map_set k entry' (map_delete k (cache c)))))
  end.

(** [ttl || this.defaultTTL] *)
Definition actualTTL (c : LRUCache) (ttl : option Z) : Z :=
  match ttl with
  | Some t => if (t =? 0)%Z then defaultTTL c else t
  | None => defaultTTL c
  end.

(** [set(key, value, ttl)] at time [now]. *)
Definition set (now : Z) (k : jsstring) (v : T) (ttl : option Z)
           (c : LRUCache) : LRUCache :=
  (* If at capacity, remove least recently used *)
  let m1 :=
    if (Z.of_nat (map_size (cache c)) >=? maxSize c)%Z
       && negb (map_has k (cache c))
    then match first_key (cache c) with
         | Some firstKey =>
             if truthy firstKey then map_delete firstKey (cache c)
             else cache c
         | None => cache c
         end
    else cache c in
  (* Remove existing entry if it exists *)
  let m2 := if map_has k m1 then map_delete k m1 else m1 in
  (* Add new entry *)
  let entry := {|
    key := k;
    value := v;
    timestamp := now;
    ttl := actualTTL c ttl;
    accessCount := 1;
    lastAccessed := now |} in
  with_cache c (map_set k entry m2).

(** [has(key)] at time [now]. *)
Definition has (now : Z) (k : jsstring) (c : LRUCache)
  : bool * LRUCache :=
  match map_get k (cache c) with
  | None => (false, c)
  | Some entry =>
      if expired now entry
      then (false, with_cache c (map_delete k (cache c)))
      else (true, c)
  end.

(** [delete(key)] *)
Definition delete (k : jsstring) (c : LRUCache) : bool * LRUCache :=
  (map_has k (cache c), with_cache c (map_delete k (cache c))).

(** [clear()] *)
Definition clear (c : LRUCache) : LRUCache := {|
  cache := [];
  maxSize := maxSize c;
  defaultTTL := defaultTTL c;
  hits := 0;
  misses := 0 |}.

(** [getStats()].  The counters are integers, so their sum is exact; the
    quotient, the product with 100 and the final quotient by 100 are each
    rounded to a double. *)
Definition getStats (c : LRUCache) : CacheStats :=
  let totalRequests := (hits c + misses c)%nat in
  let hitRate :=
    if Nat.ltb 0 totalRequests
    then Double.fl (QofNat (hits c) / QofNat totalRequests)
    else 0 in
  let memoryUsage :=
    fold_left
      (fun acc kv =>
         let e := snd kv in
         (acc + json_length (key e) (value e) (timestamp e) (ttl e)
                            (accessCount e) (lastAccessed e) * 2)%nat)
      (cache c) O in
  {| stat_hits := hits c;
     stat_misses := misses c;
     stat_size := map_size (cache c);
     stat_maxSize := maxSize c;
     hitRate :=
       Double.fl (inject_Z (Math_round (Double.fl (hitRate * 100))) / 100);
     memoryUsage := memoryUsage |}.

(** [keys()] and [size()] *)
Definition keys (c : LRUCache) : list jsstring := map_keys (cache c).
Definition size (c : LRUCache) : nat := map_size (cache c).

(** [cleanup()] at time [now]: the number of entries removed. *)
Definition cleanup (now : Z) (c : LRUCache) : nat * LRUCache :=
  (List.length (filter (fun kv => expired now (snd kv)) (cache c)),
   with_cache c (filter (fun kv => negb (expired now (snd kv))) (cache c))).

(** [updateTTL(key, newTTL)] at time [now]. *)
Definition updateTTL (now : Z) (k : jsstring) (newTTL : Z) (c : LRUCache)
  : bool * LRUCache :=
  match map_get k (cache c) with
  | None => (false, c)
  | Some entry =>
      (true,
       with_cache c
         (map_set k {| key := key entry;
                       value := value entry;
                       timestamp := now;
                       ttl := newTTL;
                       accessCount := accessCount entry;
                       lastAccessed := lastAccessed entry |}
                  (cache c)))
  end.

(** A cache whose map is well formed, holds no empty-string key and
    respects the capacity. *)
Definition bounded (c : LRUCache) : Prop :=
  NoDup (keys c)
  /\ Forall (fun k => truthy k = true) (keys c)
  /\ (Z.of_nat (size c) <= maxSize c)%Z.

(** The operations a client can issue, each stamped with the clock value
    it observes. *)
Inductive op : Type :=
| OpGet (now : Z) (k : jsstring)
| OpSet (now : Z) (k : jsstring) (v : T) (ttl : option Z)
| OpHas (now : Z) (k : jsstring)
| OpDelete (k : jsstring)
| OpClear
| OpCleanup (now : Z)
| OpUpdateTTL (now : Z) (k : jsstring) (newTTL : Z).

Definition step (c : LRUCache) (o : op) : LRUCache :=
  match o with
  | OpGet now k => snd (get now k c)
  | OpSet now k v ttl => set now k v ttl c
  | OpHas now k => snd (has now k c)
  | OpDelete k => snd (delete k c)
  | OpClear => clear c
  | OpCleanup now => snd (cleanup now c)
  | OpUpdateTTL now k newTTL => snd (updateTTL now k newTTL c)
  end.

Definition run (c : LRUCache) (ops : list op) : LRUCache :=
  fold_left step ops c.

(** The keys written by a sequence of operations. *)
Definition set_keys (ops : list op) : list jsstring :=
  flat_map (fun o => match o with
                     | OpSet _ k _ _ => [k]
                     | _ => []
                     end) ops.

End LRU.

(** The hit rate in the specification's words: hits / (hits + misses), or 0
    if no requests yet. *)
Definition spec_hit_rate (hits misses : nat) : Q :=
  match (hits + misses)%nat with
  | O => 0
  | S _ => QofNat hits / QofNat (hits + misses)
  end.

End Cache.

(** *** Counting the operations of a run *)

Module CacheOps.
Import Cache.

Section Ops.
Variable T : Type.

Definition is_get (o : op T) : bool :=
  match o with OpGet _ _ _ => true | _ => false end.

Definition is_clear (o : op T) : bool :=
  match o with OpClear _ => true | _ => false end.

(** The number of [get] calls in a run. *)
Definition count_gets (ops : list (op T)) : nat :=
  List.length (filter is_get ops).

(** A run without [clear]. *)
Definition no_clear (ops : list (op T)) : bool :=
  forallb (fun o => negb (is_clear o)) ops.

End Ops.

End CacheOps.

(** *** Cache keys: [generateCacheKey] of utils/cache.ts *)

Module CacheKey.

(** The base64 alphabet. *)
Definition b64_char (n : N) : N :=
  (if n <? 26 then 65 + n
   else if n <? 52 then 97 + (n - 26)
   else if n <? 62 then 48 + (n - 52)
   else if n =? 62 then 43
   else 47)%N.

(** Base64 of a sequence of bytes, three bytes to four characters, padded
    with [=]. *)
Fixpoint b64_encode (bs : list N) : jsstring :=
  match bs with
  | a :: b :: c :: rest =>
      b64_char (a / 4) :: b64_char ((a mod 4) * 16 + b / 16)
      :: b64_char ((b mod 16) * 4 + c / 64) :: b64_char (c mod 64)
      :: b64_encode rest
  | [a; b] =>
      [b64_char (a / 4); b64_char ((a mod 4) * 16 + b / 16);
       b64_char ((b mod 16) * 4); 61]%N
  | [a] => [b64_char (a / 4); b64_char ((a mod 4) * 16); 61; 61]%N
  | [] => []
  end.

(** [btoa(s)]: it throws (here [None]) when a code unit is above 255. *)
Definition btoa (s : jsstring) : option jsstring :=
  if forallb (fun c => (c <=? 255)%N) s then Some (b64_encode s) else None.

Definition is_high_surrogate (c : N) : bool := in_range c 55296 56319.
Definition is_low_surrogate (c : N) : bool := in_range c 56320 57343.

Definition hex_digit (n : N) : N :=
  (if n <? 10 then 48 + n else 97 + (n - 10))%N.

(** [\uXXXX] with lower-case digits. *)
Definition unicode_escape (c : N) : jsstring :=
  [92; 117; hex_digit (c / 4096); hex_digit ((c / 256) mod 16);
   hex_digit ((c / 16) mod 16); hex_digit (c mod 16)]%N.

(** QuoteJSONString, between the quotes: the two-character escapes, the
    [\u] escapes of the other control characters and of lone surrogates, and
    every other code unit as it is. *)
Fixpoint quote_body (s : jsstring) : jsstring :=
  match s with
  | [] => []
  | c :: s' =>
      if (c =? 8)%N then js "\b" ++ quote_body s'
      else if (c =? 9)%N then js "\t" ++ quote_body s'
      else if (c =? 10)%N then js "\n" ++ quote_body s'
      else if (c =? 12)%N then js "\f" ++ quote_body s'
      else if (c =? 13)%N then js "\r" ++ quote_body s'
      else if (c =? 34)%N then [92; 34]%N ++ quote_body s'
      else if (c =? 92)%N then [92; 92]%N ++ quote_body s'
      else if (c <? 32)%N then unicode_escape c ++ quote_body s'
      else if is_high_surrogate c then
        match s' with
        | d :: s'' =>
            if is_low_surrogate d then c :: d :: quote_body s''
            else unicode_escape c ++ quote_body s'
        | [] => unicode_escape c
        end
      else if is_low_surrogate c then unicode_escape c ++ quote_body s'
      else c :: quote_body s'
  end.

Definition json_quote (s : jsstring) : jsstring :=
  [34%N] ++ quote_body s ++ [34%N].

(** [JSON.stringify({ prompt, domain, options })]: a property whose value is
    [undefined] is left out; [options] is given by its own JSON text. *)
Definition stringify_data (prompt : jsstring) (domain : option jsstring)
           (options_json : option jsstring) : jsstring :=
  js "{" ++ json_quote (js "prompt") ++ js ":" ++ json_quote prompt
  ++ match domain with
     | Some d => js "," ++ json_quote (js "domain") ++ js ":" ++ json_quote d
     | None => []
     end
  ++ match options_json with
     | Some o => js "," ++ json_quote (js "options") ++ js ":" ++ o
     | None => []
     end
  ++ js "}".

(** [generateCacheKey(prompt, domain, options)] *)
Definition generateCacheKey (prompt : jsstring) (domain : option jsstring)
           (options_json : option jsstring) : option jsstring :=
  match btoa (stringify_data prompt domain options_json) with
  | Some b => Some (slice0 b 32)
  | None => None
  end.

(** A code unit that QuoteJSONString copies and [btoa] accepts. *)
Definition plain (c : N) : bool :=
  ((32 <=? c) && (c <=? 255) && negb (c =? 34) && negb (c =? 92))%N.

End CacheKey.

(** *** More of utils/validation.ts and utils/formatting.ts *)

Module Utils.

Inductive error_code : Type :=
| TOO_SHORT | TOO_LONG | INVALID_DOMAIN | NO_EXTENSION | INVALID_EXTENSION.

(** [list.includes(s)] *)
Definition list_includes (l : list jsstring) (s : jsstring) : bool :=
  existsb (eqs s) l.

(** [validateDomain(domain)] on a string: [None] when valid. *)
Definition validateDomain (domain : jsstring) : option error_code :=
  let validDomains :=
    [js "code"; js "docs"; js "data"; js "product"; js "research"] in
  if negb (list_includes validDomains domain) then Some INVALID_DOMAIN
  else None.

(** The text built by RegExp.prototype[Symbol.replace] from the successive
    matches [spans] of a [g]-flagged pattern: the text between the matches
    is kept, each match is replaced by [f] of its text. *)
Fixpoint splice (s : jsstring) (spans : list (nat * nat)) (pos : nat)
         (f : jsstring -> jsstring) : jsstring :=
  match spans with
  | [] => skipn pos s
  | (b, e) :: rest =>
      substring s pos b ++ f (substring s b e) ++ splice s rest e f
  end.

(** [s.replace(re, ...)] for a [g]-flagged [re]. *)
Definition replace_all (re : RegExp) (f : jsstring -> jsstring)
           (s : jsstring) : jsstring :=
  splice s
         (match_all_from s (flag_i re) (source re) (List.length s + 2) 0)
         0 f.

(** [\w] as a class. *)
Definition word_chars : regex :=
  Cls [(65, 90); (97, 122); (48, 57); (95, 95)]%N.

(** [sanitizeString(input)] *)
Definition sanitizeString (input : jsstring) : jsstring :=
  trim
    (replace_all (rx_gi (Seqs [Lit "on"; Plus word_chars; Lit "="]))
                 (fun _ => [])                  (* Remove event handlers *)
       (replace_all (rx_gi (Lit "javascript:"))
                    (fun _ => [])               (* Remove javascript: *)
          (replace_all (rx_g (Patterns.chars "<>"))
                       (fun _ => [])            (* Remove angle brackets *)
                       input))).

(** [validateAndSanitize(input, maxLength)]: the error code, or the
    sanitized text. *)
Definition validateAndSanitize (input : jsstring) (maxLength : nat)
  : error_code + jsstring :=
  match Validation.validateInputDetailed input (Some 1%nat) (Some maxLength)
  with
  | Some Validation.TOO_SHORT => inl TOO_SHORT
  | Some Validation.TOO_LONG => inl TOO_LONG
  | None => inr (sanitizeString input)
  end.

(** [text.slice(0, e)] for an integer [e]: a negative end counts from the
    end of the text. *)
Definition slice_to (text : jsstring) (e : Z) : jsstring :=
  if (e <? 0)%Z
  then firstn (Z.to_nat (Z.max (Z.of_nat (List.length text) + e) 0)) text
  else firstn (Z.to_nat e) text.

(** [truncateText(text, maxLength)] for an integer [maxLength]. *)
Definition truncateText (text : jsstring) (maxLength : Z) : jsstring :=
  if negb (truthy text) || (Z.of_nat (List.length text) <=? maxLength)%Z
  then text
  else slice_to text (maxLength - 3) ++ js "...".

Section FileExtension.
(** [String.prototype.toLowerCase], which follows the Unicode tables. *)
Variable toLowerCase : jsstring -> jsstring.

(** [validateFileExtension(filename, allowedExtensions)] *)
Definition validateFileExtension (filename : jsstring)
           (allowedExtensions : list jsstring) : option error_code :=
  let extension := toLowerCase (last (split_chr 46 filename) []) in
  if negb (truthy extension) then Some NO_EXTENSION
  else if negb (list_includes allowedExtensions extension)
       then Some INVALID_EXTENSION
       else None.
End FileExtension.

End Utils.

(** *** The improvement suggestions of the [st_refine] handler (index.ts) *)

Module Server.
Import Spec.

Inductive PatchOp : Type := add | replace | remove.

Inductive PatchValue : Type :=
| VContract (sections : list jsstring)
| VString (s : jsstring)
| VList (l : list jsstring).

Record Patch := {
  op : PatchOp;
  path : jsstring;
  value : PatchValue
}.

Definition push_if (cond : bool) (p : Patch) : list Patch :=
  if cond then [p] else [].

(** Step 4 of the handler: the patches pushed for a specification. *)
Definition improvementPatches (spec : StructuralThinking)
           (domain : option Domain) : list Patch :=
  (* Suggest adding sections for markdown format *)
  push_if (eqs (format (io spec)) (js "markdown")
           && Nat.eqb (opt_length (contract_sections spec)) 0)
          {| op := add; path := js "/io/contract";
             value := VContract [js "Highlights"; js "Details";
                                 js "NextSteps"] |}
  (* Suggest adding title if missing or too short *)
  ++ push_if (negb (opt_truthy (title spec))
              || Qltb (QofNat (match title spec with
                               | Some t => JS.length t
                               | None => O
                               end))
                      (Legacy.SCORING_CONFIG_completeness
                         Scoring.Co.titleMinLength))
             {| op := if opt_truthy (title spec) then replace else add;
                path := js "/title";
                value :=
                  VString (js "Enhanced Structural Thinking Specification")
             |}
  (* Suggest adding domain if missing *)
  ++ push_if (match context_domain spec with
              | Some _ => false
              | None => true
              end)
             {| op := add; path := js "/context/domain";
                value := VString (match domain with
                                  | Some d => domain_name d
                                  | None => js "general"
                                  end) |}
  (* Suggest adding more detailed instructions if too brief *)
  ++ push_if (Qltb (QofNat (Legacy.getWordCount
                              (join (js " ") (instructions spec))))
                   (Legacy.SCORING_CONFIG_completeness
                      Scoring.Co.depthThreshold1))
             {| op := replace; path := js "/instructions";
                value :=
                  VList (instructions spec
                         ++ [js "Provide specific examples where applicable";
                             js "Include measurable criteria for success"])
             |}.

(** The readiness flag of the handler. *)
Definition isReady (gapAnalysis : GapDetection) : bool :=
  Nat.eqb (List.length
             (filter (fun i => match severity i with
                               | error => true
                               | _ => false
                               end) (issues gapAnalysis))) 0
  && Qgtb (fst (score gapAnalysis)) 0.6
  && Qgtb (snd (score gapAnalysis)) 0.6.

End Server.

(** The signals other than the count of clarity indicators. *)
Definition rest_signals (sg : Signals.ClaritySignals)
  : nat * nat * bool * bool * bool * nat * nat :=
  (Signals.numberMatches sg, Signals.verbCount sg,
   Signals.longSentences1 sg, Signals.longSentences2 sg,
   Signals.hasStructure sg, Signals.questionMatches sg,
   Signals.domainMatches sg).

(** A text with no white space at either end. *)
Definition no_outer_space (s : jsstring) : Prop :=
  match s with c :: _ => is_space c = false | [] => True end
  /\ match rev s with c :: _ => is_space c = false | [] => True end.

(** A text without angle brackets. *)
Definition no_angle_brackets (s : jsstring) : Prop :=
  Forall (fun c => c <> 60%N /\ c <> 62%N) s.

(** An issue of severity "error". *)
Definition is_error (i : Spec.Issue) : bool :=
  match Spec.severity i with
  | Spec.error => true
  | _ => false
  end.

(* ================================================================== *)
(** ** server.ts: the result cache of the st_refine handler *)
(* ================================================================== *)

Module Refine.

Import CacheKey.

(** What the handler answers: one of its two validation errors, the text
    of an analysis, or the "Internal Server Error" text of its [catch]. *)
Inductive Reply : Type :=
| InputValidationError (c : Validation.code)
| DomainValidationError
| Text (t : jsstring)
| InternalServerError.

Definition json_bool (b : bool) : jsstring :=
  if b then js "true" else js "false".

(** [JSON.stringify({ includeValidation, includeImprovements })] *)
Definition options_json (includeValidation includeImprovements : bool)
  : jsstring :=
  js "{" ++ json_quote (js "includeValidation") ++ js ":"
  ++ json_bool includeValidation
  ++ js "," ++ json_quote (js "includeImprovements") ++ js ":"
  ++ json_bool includeImprovements ++ js "}".

Section Handler.

(** Steps 1 to 4 of the handler, which build the response text.  They do
    not touch the cache; [State] is whatever else they read and write
    (the [lastIndex] of the shared patterns). *)
Variable State : Type.
Variable analyse :
  State -> jsstring -> option Domain -> bool -> bool -> jsstring * State.

(** The handler, with [Date.now()] equal to [t_get] inside
    [analysisCache.get] and to [t_set] inside [analysisCache.set]. *)
Definition st_refine (st : State) (t_get t_set : Z) (prompt : jsstring)
           (domain : option Domain)
           (includeValidation includeImprovements : bool)
           (c : Cache.LRUCache jsstring)
  : Reply * State * Cache.LRUCache jsstring :=
  match Validation.validateInputDetailed prompt (Some 3%nat)
                                         (Some 10000%nat) with
  | Some err => (InputValidationError err, st, c)
  | None =>
      (* Validate domain if provided *)
      if match domain with
         | Some d =>
             match Utils.validateDomain (domain_name d) with
             | Some _ => true
             | None => false
             end
         | None => false
         end
      then (DomainValidationError, st, c)
      else
        (* Generate cache key and check cache first *)
        match generateCacheKey prompt (option_map domain_name domain)
                (Some (options_json includeValidation includeImprovements))
        with
        | None => (InternalServerError, st, c)
        | Some cacheKey =>
            let (cached, c1) := Cache.get t_get cacheKey c in
            let computed :=
              let (userResponse, st') :=
                analyse st prompt domain includeValidation
                        includeImprovements in
              (* Cache the result *)
              (Text userResponse, st',
               Cache.set t_set cacheKey userResponse None c1) in
            match cached with
            | Some t => if Spec.truthy t then (Text t, st, c1) else computed
            | None => computed
            end
        end
  end.

End Handler.

(** [analysisCache]: [new LRUCache<any>(500, 600000)] *)
Definition analysisCache : Cache.LRUCache jsstring :=
  Cache.create jsstring 500 600000.

End Refine.

(* ================================================================== *)
(** * Properties *)
(* ================================================================== *)

Unset Implicit Arguments.

(** ** Strings *)

Lemma eqs_iff (a b : jsstring) : eqs a b = true <-> a = b.
Proof.
  unfold eqs. destruct (list_eq_dec N.eq_dec a b); split; congruence.
Qed.

Lemma eqs_refl (a : jsstring) : eqs a a = true.
Proof. now apply eqs_iff. Qed.

Lemma eqs_neq (a b : jsstring) : a <> b -> eqs a b = false.
Proof.
  intros H. destruct (eqs a b) eqn:E; [|reflexivity].
  now apply eqs_iff in E.
Qed.

(** ** Binary64 rounding *)

Module DoubleFacts.

Import Double.

Lemma Qltb_lt (a b : Q) : Qltb a b = true <-> a < b.
Proof.
  unfold Qltb, Qgtb. change (a < b) with (b > a). rewrite Qgt_alt.
  destruct (Qcompare b a); split; intros E; congruence.
Qed.

Lemma Qltb_ge (a b : Q) : Qltb a b = false <-> b <= a.
Proof.
  split; intros H.
  - apply Qnot_lt_le. intros L. apply Qltb_lt in L. congruence.
  - destruct (Qltb a b) eqn:E; [|reflexivity].
    apply Qltb_lt in E. exfalso. apply (Qlt_irrefl a).
    now apply Qlt_le_trans with b.
Qed.

Lemma round_even_error (s : Q) :
  inject_Z (round_even s) - (1 # 2) <= s
  /\ s <= inject_Z (round_even s) + (1 # 2).
Proof.
  unfold round_even. cbv zeta.
  pose proof (Qfloor_le s) as L. pose proof (Qlt_floor s) as U.
  rewrite inject_Z_plus in U. change (inject_Z 1) with 1 in U.
  destruct (Qcompare_spec (s - inject_Z (Qfloor s)) (1 # 2)) as [H|H|H].
  - destruct (Z.even (Qfloor s)); rewrite ?inject_Z_plus;
      change (inject_Z 1) with 1; split; lra.
  - split; lra.
  - rewrite inject_Z_plus. change (inject_Z 1) with 1. split; lra.
Qed.

Lemma two_neq_0 : ~ 2 == 0.
Proof. discriminate. Qed.

Lemma pow2_pos (e : Z) : 0 < pow2 e.
Proof. apply Qpower_0_lt. reflexivity. Qed.

Lemma pow2_plus (a b : Z) : pow2 (a + b) == pow2 a * pow2 b.
Proof. apply Qpower_plus, two_neq_0. Qed.

Lemma pow2_Z (k : Z) : (0 <= k)%Z -> inject_Z (2 ^ k) == pow2 k.
Proof. intros H. unfold pow2. now rewrite Zpower_Qpower. Qed.

(** The scaled significand is at least [2^52]. *)
Lemma exponent_lower (x : Q) :
  0 < x -> pow2 52 <= x / pow2 (exponent x).
Proof.
  intros Hx. unfold exponent. cbv zeta.
  set (a := Z.log2 (Qnum x)). set (b := Z.log2 (Z.pos (Qden x))).
  assert (Hn : (0 < Qnum x)%Z).
  { unfold Qlt in Hx. simpl in Hx. lia. }
  assert (Ha : (0 <= a)%Z) by apply Z.log2_nonneg.
  assert (Hb : (0 <= b)%Z) by apply Z.log2_nonneg.
  destruct (Z.log2_spec (Qnum x) Hn) as [La _]. fold a in La.
  destruct (Z.log2_spec (Z.pos (Qden x)) eq_refl) as [_ Ub]. fold b in Ub.
  (* 2^51 < x / 2^e0 *)
  assert (H51 : pow2 51 < x / pow2 (a - b - 52)).
  { apply Qlt_shift_div_l; [apply pow2_pos|].
    rewrite <- pow2_plus.
    replace (51 + (a - b - 52))%Z with (a - (b + 1))%Z by lia.
    assert (E : pow2 (a - (b + 1)) == pow2 a / pow2 (b + 1))
      by (apply Qpower_minus, two_neq_0).
    rewrite E. apply Qlt_shift_div_r; [apply pow2_pos|].
    rewrite <- (pow2_Z a Ha), <- (pow2_Z (b + 1)) by lia.
    apply Qle_lt_trans with (inject_Z (Qnum x)).
    - rewrite <- Zle_Qle. exact La.
    - assert (Ex : x == inject_Z (Qnum x) / inject_Z (Z.pos (Qden x))).
      { rewrite <- (Qmake_Qdiv (Qnum x) (Qden x)). now destruct x. }
      assert (Hd : 0 < inject_Z (Z.pos (Qden x))) by reflexivity.
      assert (Ux : inject_Z (Z.pos (Qden x)) < inject_Z (2 ^ Z.succ b))
        by (rewrite <- Zlt_Qlt; exact Ub).
      replace (b + 1)%Z with (Z.succ b) by lia.
      assert (En : inject_Z (Qnum x) == x * inject_Z (Z.pos (Qden x))).
      { rewrite Ex at 2. field. intros E0. rewrite E0 in Hd.
        now apply Qlt_irrefl in Hd. }
      rewrite En. apply Qmult_lt_l; [exact Hx|exact Ux]. }
  destruct (Qltb (x / pow2 (a - b - 52)) (pow2 52)) eqn:E.
  - replace (a - b - 52 - 1)%Z with ((a - b - 52) + (-1))%Z by lia.
    rewrite pow2_plus. change (pow2 (-1)) with (/ 2).
    change (pow2 52) with (2 * pow2 51).
    set (P := pow2 (a - b - 52)) in *.
    assert (HP : 0 < P) by apply pow2_pos.
    assert (E2 : x / (P * / 2) == 2 * (x / P)).
    { field. intros E0. rewrite E0 in HP. now apply Qlt_irrefl in HP. }
    rewrite E2. lra.
  - now apply Qltb_ge in E.
Qed.

Lemma fl_pos_error (x : Q) :
  0 < x -> x * (1 - u53) <= fl_pos x /\ fl_pos x <= x * (1 + u53).
Proof.
  intros Hx. unfold fl_pos.
  pose proof (exponent_lower x Hx) as Hs.
  set (P := pow2 (exponent x)) in *.
  assert (HP : 0 < P) by apply pow2_pos.
  set (s := x / P) in *.
  destruct (round_even_error s) as [L U].
  set (m := inject_Z (round_even s)) in *.
  assert (Ex : x == s * P).
  { unfold s. field. intros E0. rewrite E0 in HP.
    now apply Qlt_irrefl in HP. }
  assert (Hu : (1 # 2) <= s * u53).
  { assert (E : pow2 52 * u53 == 1 # 2) by reflexivity.
    rewrite <- E. apply Qmult_le_compat_r; [exact Hs|discriminate]. }
  rewrite Ex. clearbody m s P.
  split.
  - setoid_replace (s * P * (1 - u53)) with ((s - s * u53) * P) by ring.
    apply Qmult_le_compat_r; lra.
  - setoid_replace (s * P * (1 + u53)) with ((s + s * u53) * P) by ring.
    apply Qmult_le_compat_r; lra.
Qed.

(** The relative error of one rounding is at most [2^-53]. *)
Lemma fl_error (x : Q) :
  0 <= x -> x * (1 - u53) <= fl x /\ fl x <= x * (1 + u53).
Proof.
  intros Hx. unfold fl. destruct x as [n d]. cbn [Qnum].
  destruct n as [|n|n].
  - assert (E : 0 # d == 0) by reflexivity. rewrite E. split; lra.
  - apply fl_pos_error. reflexivity.
  - exfalso. unfold Qle in Hx. simpl in Hx. lia.
Qed.


(** The scaled significand is below [2^53]: it has 53 bits. *)
Lemma exponent_upper (x : Q) :
  0 < x -> x / pow2 (exponent x) < pow2 53.
Proof.
  intros Hx. unfold exponent. cbv zeta.
  set (a := Z.log2 (Qnum x)). set (b := Z.log2 (Z.pos (Qden x))).
  assert (Hn : (0 < Qnum x)%Z).
  { unfold Qlt in Hx. simpl in Hx. lia. }
  assert (Ha : (0 <= a)%Z) by apply Z.log2_nonneg.
  assert (Hb : (0 <= b)%Z) by apply Z.log2_nonneg.
  destruct (Z.log2_spec (Qnum x) Hn) as [_ Ua]. fold a in Ua.
  destruct (Z.log2_spec (Z.pos (Qden x)) eq_refl) as [Lb _]. fold b in Lb.
  assert (H53 : x / pow2 (a - b - 52) < pow2 53).
  { apply Qlt_shift_div_r; [apply pow2_pos|].
    rewrite <- pow2_plus.
    replace (53 + (a - b - 52))%Z with ((a + 1) - b)%Z by lia.
    assert (E : pow2 ((a + 1) - b) == pow2 (a + 1) / pow2 b)
      by (apply Qpower_minus, two_neq_0).
    rewrite E. apply Qlt_shift_div_l; [apply pow2_pos|].
    rewrite <- (pow2_Z b Hb), <- (pow2_Z (a + 1)) by lia.
    apply Qle_lt_trans with (inject_Z (Qnum x)).
    - assert (Ex : x == inject_Z (Qnum x) / inject_Z (Z.pos (Qden x))).
      { rewrite <- (Qmake_Qdiv (Qnum x) (Qden x)). now destruct x. }
      assert (Hd : 0 < inject_Z (Z.pos (Qden x))) by reflexivity.
      assert (Lx : inject_Z (2 ^ b) <= inject_Z (Z.pos (Qden x)))
        by (rewrite <- Zle_Qle; exact Lb).
      assert (En : inject_Z (Qnum x) == x * inject_Z (Z.pos (Qden x))).
      { rewrite Ex at 2. field. intros E0. rewrite E0 in Hd.
        now apply Qlt_irrefl in Hd. }
      rewrite En. apply Qmult_le_l; [exact Hx|exact Lx].
    - replace (a + 1)%Z with (Z.succ a) by lia.
      rewrite <- Zlt_Qlt. exact Ua. }
  destruct (Qltb (x / pow2 (a - b - 52)) (pow2 52)) eqn:E.
  - apply Qltb_lt in E.
    replace (a - b - 52 - 1)%Z with ((a - b - 52) + (-1))%Z by lia.
    rewrite pow2_plus. change (pow2 (-1)) with (/ 2).
    assert (E53 : pow2 53 == 2 * pow2 52) by reflexivity.
    rewrite E53.
    set (P := pow2 (a - b - 52)) in *.
    assert (HP : 0 < P) by apply pow2_pos.
    assert (E2 : x / (P * / 2) == 2 * (x / P)).
    { field. intros E0. rewrite E0 in HP. now apply Qlt_irrefl in HP. }
    rewrite E2. lra.
  - exact H53.
Qed.

(** Two roundings of a percentage: the double [fl (fl x * 100)] is within
    [300 * 2^-53] of [100 * x], for [0 <= x <= 1]. *)
Lemma percentage_error (x : Q) :
  0 <= x <= 1 ->
  x * 100 - 300 * u53 <= fl (fl x * 100)
  /\ fl (fl x * 100) <= x * 100 + 300 * u53.
Proof.
  intros [H0 H1].
  destruct (fl_error x H0) as [L1 U1].
  assert (Hu : 0 < u53 /\ u53 <= 1 # 100)
    by (split; [reflexivity|unfold Qle; vm_compute; discriminate]).
  assert (Hf : 0 <= fl x * 100).
  { assert (0 <= x * (1 - u53)) by (apply Qmult_le_0_compat; lra). lra. }
  destruct (fl_error (fl x * 100) Hf) as [L2 U2].
  set (f := fl x) in *. set (y := fl (f * 100)) in *.
  clearbody f y. destruct Hu as [Hu0 Hu1]. set (u := u53) in *.
  clearbody u.
  assert (Hxu : 0 <= x * u /\ x * u <= u).
  { split; [apply Qmult_le_0_compat; lra|].
    setoid_replace u with (1 * u) at 2 by ring.
    apply Qmult_le_compat_r; lra. }
  assert (Hfu : 0 <= f * u /\ f * u <= 2 * u).
  { split; [apply Qmult_le_0_compat; lra|].
    apply Qmult_le_compat_r; lra. }
  split; lra.
Qed.

Lemma inject_Z_sub (a b : Z) : inject_Z (a - b) == inject_Z a - inject_Z b.
Proof. unfold Z.sub. now rewrite inject_Z_plus, inject_Z_opp. Qed.

End DoubleFacts.

(** ** The result cache *)

Module CacheFacts.
Import Cache Double.

Section MapFacts.
Variable V : Type.
Implicit Types (m : Map V) (k : jsstring).

Lemma map_get_delete_same m k : map_get k (map_delete k m) = None.
Proof.
  unfold map_get, map_delete.
  induction m as [|[k' v'] m IH]; simpl; [reflexivity|].
  destruct (eqs k' k) eqn:E; simpl; [exact IH|].
  now rewrite E.
Qed.

Lemma map_get_delete_other m k k' :
  k' <> k -> map_get k' (map_delete k m) = map_get k' m.
Proof.
  intros Hne. unfold map_get, map_delete.
  induction m as [|[k1 v1] m IH]; simpl; [reflexivity|].
  destruct (eqs k1 k) eqn:E; simpl.
  - apply eqs_iff in E. subst k1.
    rewrite (eqs_neq _ _ (fun H => Hne (eq_sym H))). exact IH.
  - destruct (eqs k1 k'); [reflexivity|exact IH].
Qed.

Lemma map_has_get m k :
  map_has k m = match map_get k m with Some _ => true | None => false end.
Proof.
  unfold map_has, map_get.
  induction m as [|[k' v'] m IH]; simpl; [reflexivity|].
  destruct (eqs k' k); simpl; [reflexivity|exact IH].
Qed.

Lemma map_has_delete_same m k : map_has k (map_delete k m) = false.
Proof. now rewrite map_has_get, map_get_delete_same. Qed.

Lemma map_get_set_same m k v : map_get k (map_set k v m) = Some v.
Proof.
  unfold map_get.
  induction m as [|[k' v'] m IH]; simpl.
  - now rewrite eqs_refl.
  - destruct (eqs k' k) eqn:E; simpl.
    + now rewrite eqs_refl.
    + now rewrite E.
Qed.

Lemma map_set_absent m k v :
  map_has k m = false -> map_set k v m = m ++ [(k, v)].
Proof.
  unfold map_has.
  induction m as [|[k' v'] m IH]; simpl; [reflexivity|].
  intros H. apply orb_false_iff in H as [E H].
  rewrite E. f_equal. now apply IH.
Qed.

Lemma map_delete_absent m k : map_has k m = false -> map_delete k m = m.
Proof.
  unfold map_has, map_delete.
  induction m as [|[k' v'] m IH]; simpl; [reflexivity|].
  intros H. apply orb_false_iff in H as [E H].
  rewrite E. simpl. f_equal. now apply IH.
Qed.

Lemma map_has_in m k : map_has k m = true <-> In k (map_keys m).
Proof.
  unfold map_has, map_keys. rewrite existsb_exists. split.
  - intros [[k' v'] [Hin E]]. apply eqs_iff in E. simpl in E. subst.
    now apply (in_map fst) in Hin.
  - intros Hin. apply in_map_iff in Hin as [[k' v'] [E Hin]].
    exists (k', v'). split; [assumption|]. now apply eqs_iff.
Qed.

Lemma map_has_not_in m k : map_has k m = false <-> ~ In k (map_keys m).
Proof.
  rewrite <- map_has_in. destruct (map_has k m); split; congruence.
Qed.

Lemma map_keys_delete m k :
  map_keys (map_delete k m)
  = filter (fun k' => negb (eqs k' k)) (map_keys m).
Proof.
  unfold map_keys, map_delete.
  induction m as [|[k' v'] m IH]; simpl; [reflexivity|].
  destruct (eqs k' k); simpl; now rewrite IH.
Qed.

Lemma map_size_delete_le m k : (map_size (map_delete k m) <= map_size m)%nat.
Proof. apply filter_length_le. Qed.

(** Deleting the first key of a well-formed map drops its first entry. *)
Lemma map_delete_first k v m :
  NoDup (map_keys ((k, v) :: m)) -> map_delete k ((k, v) :: m) = m.
Proof.
  intros Hnd. inversion Hnd as [|? ? Hnotin _]; subst.
  unfold map_delete at 1. simpl. rewrite eqs_refl. simpl.
  apply map_delete_absent. now apply map_has_not_in.
Qed.

Lemma NoDup_map_keys_delete m k :
  NoDup (map_keys m) -> NoDup (map_keys (map_delete k m)).
Proof. intros H. rewrite map_keys_delete. now apply NoDup_filter. Qed.

Lemma map_keys_set_present m k v :
  map_has k m = true -> map_keys (map_set k v m) = map_keys m.
Proof.
  unfold map_has, map_keys.
  induction m as [|[k' v'] m IH]; simpl; [discriminate|].
  destruct (eqs k' k) eqn:E; simpl.
  - intros _. apply eqs_iff in E. now subst.
  - intros H. f_equal. now apply IH.
Qed.

Lemma map_size_delete_lt m k :
  map_has k m = true -> (map_size (map_delete k m) < map_size m)%nat.
Proof.
  unfold map_has, map_delete, map_size.
  induction m as [|[k' v'] m IH]; simpl; [discriminate|].
  destruct (eqs k' k); simpl.
  - intros _. pose proof (filter_length_le
                            (fun kv : jsstring * V => negb (eqs (fst kv) k)) m).
    lia.
  - intros H. apply IH in H. lia.
Qed.

Lemma wf_filter m (p : jsstring * V -> bool) : wf m -> wf (filter p m).
Proof.
  unfold wf, map_keys. intros [Hnd Hall]. split.
  - clear Hall. induction m as [|kv m IH]; simpl; [constructor|].
    inversion Hnd as [|? ? Hni Hnd']; subst.
    destruct (p kv); simpl; [|now apply IH].
    constructor; [|now apply IH].
    intros Hin. apply Hni. apply in_map_iff in Hin as [x [Hx Hin]].
    apply filter_In in Hin as [Hin _]. apply in_map_iff. now exists x.
  - rewrite Forall_forall in *. intros x Hx.
    apply in_map_iff in Hx as [kv [E Hin]].
    apply filter_In in Hin as [Hin _]. apply Hall.
    apply in_map_iff. now exists kv.
Qed.

Lemma wf_delete m k : wf m -> wf (map_delete k m).
Proof. apply wf_filter. Qed.

Lemma wf_snoc m k v :
  wf m -> map_has k m = false -> truthy k = true -> wf (m ++ [(k, v)]).
Proof.
  unfold wf, map_keys. intros [Hnd Hall] Hnew Hk.
  rewrite map_app. simpl. split.
  - apply NoDup_app; [assumption|repeat constructor; intros []|].
    intros a Ha [<-|[]]. now apply map_has_not_in in Hnew.
  - apply Forall_app. split; [assumption|now repeat constructor].
Qed.

Lemma wf_set_present m k v :
  wf m -> map_has k m = true -> wf (map_set k v m).
Proof.
  unfold wf. intros H Hhas. now rewrite map_keys_set_present by assumption.
Qed.

Lemma map_size_set_present m k v :
  map_has k m = true -> map_size (map_set k v m) = map_size m.
Proof.
  intros H. unfold map_size.
  rewrite <- (length_map fst (map_set k v m)), <- (length_map fst m).
  f_equal. now apply map_keys_set_present.
Qed.

End MapFacts.

Section LRUFacts.
Variable T : Type.
Variable json_length : jsstring -> T -> Z -> Z -> nat -> Z -> nat.
Implicit Types (c : LRUCache T) (k : jsstring) (v : T).

(** What [set] leaves under the key it wrote. *)
Lemma get_entry_after_set c k v ttl now :
  map_get k (cache (set now k v ttl c))
  = Some {| key := k; value := v; timestamp := now;
            ttl := actualTTL c ttl; accessCount := 1;
            lastAccessed := now |}.
Proof. unfold set. simpl. apply map_get_set_same. Qed.

Lemma set_counters c k v ttl now :
  hits (set now k v ttl c) = hits c
  /\ misses (set now k v ttl c) = misses c
  /\ maxSize (set now k v ttl c) = maxSize c.
Proof. now unfold set. Qed.

(** A successful [get]: the entry is fresh at [now]. *)
Lemma get_fresh c k now (e : CacheEntry T) :
  map_get k (cache c) = Some e ->
  (now - timestamp e <= Cache.ttl e)%Z ->
  fst (get now k c) = Some (value e)
  /\ hits (snd (get now k c)) = S (hits c)
  /\ misses (snd (get now k c)) = misses c
  /\ first_key (rev (cache (snd (get now k c)))) = Some k.
Proof.
  intros Hget Hle. unfold get, expired. rewrite Hget.
  destruct (now - timestamp e >? Cache.ttl e)%Z eqn:E.
  - apply Z.gtb_lt in E. lia.
  - simpl. repeat split.
    rewrite map_set_absent by apply map_has_delete_same.
    now rewrite rev_app_distr.
Qed.

(** An expired [get]: the entry is evicted and a miss is counted. *)
Lemma get_expired c k now (e : CacheEntry T) :
  map_get k (cache c) = Some e ->
  (now - timestamp e > Cache.ttl e)%Z ->
  fst (get now k c) = None
  /\ map_get k (cache (snd (get now k c))) = None
  /\ misses (snd (get now k c)) = S (misses c)
  /\ hits (snd (get now k c)) = hits c.
Proof.
  intros Hget Hgt. unfold get, expired. rewrite Hget.
  destruct (now - timestamp e >? Cache.ttl e)%Z eqn:E.
  - simpl. repeat split. apply map_get_delete_same.
  - rewrite Z.gtb_ltb in E. apply Z.ltb_ge in E. lia.
Qed.

(** An absent key is a miss. *)
Lemma get_absent c k now :
  map_get k (cache c) = None ->
  get now k c = (None, miss c).
Proof. intros H. unfold get. now rewrite H. Qed.

(** C2. After [set(k, v)] at time [now], a [get(k)] at a time [t1] with
    [t1 - now <= ttl] returns [v] and increments the hit counter (the miss
    counter is untouched); a [get(k)] at a time [t2] with [t2 - now > ttl]
    returns null, removes the entry and increments the miss counter (the
    hit counter is untouched).  [ttl] is the entry's TTL: the one given to
    [set], or the cache's default. *)
Theorem get_after_set c k v ttl now t1 t2 :
  (t1 - now <= actualTTL c ttl)%Z ->
  (t2 - now > actualTTL c ttl)%Z ->
  let c1 := set now k v ttl c in
  (fst (get t1 k c1) = Some v
   /\ hits (snd (get t1 k c1)) = S (hits c1)
   /\ misses (snd (get t1 k c1)) = misses c1)
  /\ (fst (get t2 k c1) = None
      /\ map_get k (cache (snd (get t2 k c1))) = None
      /\ map_has k (cache (snd (get t2 k c1))) = false
      /\ misses (snd (get t2 k c1)) = S (misses c1)
      /\ hits (snd (get t2 k c1)) = hits c1).
Proof.
  intros H1 H2 c1.
  pose proof (get_entry_after_set c k v ttl now) as He. fold c1 in He.
  split.
  - destruct (get_fresh c1 k t1 _ He H1) as (A & B & C & _). auto.
  - destruct (get_expired c1 k t2 _ He H2) as (A & B & C & D).
    repeat split; auto. now rewrite map_has_get, B.
Qed.

(** C10. [delete(key)] consults no clock: it returns [true] exactly when
    the key is stored (whatever the age of its entry), leaves the key
    absent and every other key as it was, and changes neither counter. *)
Theorem delete_no_expiry_check c k :
  fst (delete k c)
  = match map_get k (cache c) with Some _ => true | None => false end
  /\ map_get k (cache (snd (delete k c))) = None
  /\ (forall k', map_get k' (cache (snd (delete k c)))
                 = if eqs k' k then None else map_get k' (cache c))
  /\ hits (snd (delete k c)) = hits c
  /\ misses (snd (delete k c)) = misses c.
Proof.
  unfold delete. simpl. repeat split.
  - apply map_has_get.
  - apply map_get_delete_same.
  - intros k'. destruct (eqs k' k) eqn:E.
    + apply eqs_iff in E. subst. apply map_get_delete_same.
    + apply map_get_delete_other. intros ->. now rewrite eqs_refl in E.
Qed.

(** An entry whose TTL has elapsed is still deleted with result [true]. *)
Lemma delete_expired_entry c k now (e : CacheEntry T) :
  map_get k (cache c) = Some e ->
  expired now e = true ->
  fst (delete k c) = true /\ map_has k (cache (snd (delete k c))) = false.
Proof.
  intros H _. unfold delete. simpl. split.
  - now rewrite map_has_get, H.
  - apply map_has_delete_same.
Qed.

(** [Math.round] picks the integer [n] with [n - 1/2 <= x < n + 1/2]. *)
Lemma Math_round_spec (x : Q) :
  inject_Z (Math_round x) - (1 # 2) <= x
  /\ x < inject_Z (Math_round x) + (1 # 2).
Proof.
  unfold Math_round.
  pose proof (Qfloor_le (x + (1 # 2))) as Hlo.
  pose proof (Qlt_floor (x + (1 # 2))) as Hhi.
  rewrite inject_Z_plus in Hhi.
  change (inject_Z 1) with 1 in Hhi.
  split; lra.
Qed.

Lemma getStats_hitRate c :
  hitRate (getStats json_length c)
  = fl (inject_Z
          (Math_round
             (fl ((if Nat.ltb 0 (hits c + misses c)
                   then fl (QofNat (hits c) / QofNat (hits c + misses c))
                   else 0) * 100))) / 100).
Proof. reflexivity. Qed.

(** The integer that [getStats] passes to the last division is a nearest
    integer to a hundred times the exact ratio, as long as fewer than
    [2^43] requests were counted: the two roundings before [Math.round]
    move the percentage by less than the distance of any other percentage
    to a half-integer. *)
Lemma hit_rate_nearest (h t : nat) :
  (0 < t)%nat -> (h <= t)%nat -> (Z.of_nat t < 2 ^ 43)%Z ->
  let n := Math_round (fl (fl (QofNat h / QofNat t) * 100)) in
  (0 <= n <= 100)%Z
  /\ inject_Z n - (1 # 2) <= QofNat h / QofNat t * 100
  /\ QofNat h / QofNat t * 100 <= inject_Z n + (1 # 2).
Proof.
  intros Ht Hh Hbig. cbv zeta.
  set (qt := QofNat t). set (qh := QofNat h).
  assert (HT : 0 < qt) by (unfold qt, QofNat; rewrite <- (Zlt_Qlt 0); lia).
  assert (HT43 : qt < inject_Z (2 ^ 43))
    by (unfold qt, QofNat; rewrite <- Zlt_Qlt; exact Hbig).
  assert (HH : 0 <= qh /\ qh <= qt).
  { unfold qh, qt, QofNat. rewrite <- (Zle_Qle 0), <- Zle_Qle. lia. }
  assert (Hx : 0 <= qh / qt <= 1).
  { split.
    - apply Qle_shift_div_l; [exact HT|]. lra.
    - apply Qle_shift_div_r; [exact HT|]. lra. }
  destruct (DoubleFacts.percentage_error (qh / qt) Hx) as [L U].
  set (y := fl (fl (qh / qt) * 100)) in *.
  destruct (Math_round_spec y) as [Rl Ru].
  set (n := Math_round y) in *.
  assert (Hu : 300 * u53 == 300 # 9007199254740992) by reflexivity.
  rewrite Hu in L, U.
  assert (HX : qh / qt * 100 <= 100) by lra.
  assert (HX0 : 0 <= qh / qt * 100) by lra.
  split.
  { (* the range of n *)
    assert (A : -1 < inject_Z n) by lra.
    assert (B : inject_Z n < 101) by lra.
    change (-1) with (inject_Z (-1)) in A.
    change 101 with (inject_Z 101) in B.
    rewrite <- Zlt_Qlt in A, B. lia. }
  (* twice the distance to the half-integers, times t, is an integer *)
  assert (EX : qh / qt * 100 * qt == 100 * qh).
  { field. intros E0. rewrite E0 in HT. now apply Qlt_irrefl in HT. }
  set (X := qh / qt * 100) in *. clearbody X y.
  set (D1 := ((2 * n - 1) * Z.of_nat t - 200 * Z.of_nat h)%Z).
  set (D2 := (200 * Z.of_nat h - (2 * n + 1) * Z.of_nat t)%Z).
  assert (E1 : inject_Z D1 == (2 * inject_Z n - 1) * qt - 200 * qh).
  { unfold D1, qt, qh, QofNat.
    rewrite DoubleFacts.inject_Z_sub, !inject_Z_mult,
      DoubleFacts.inject_Z_sub, inject_Z_mult.
    reflexivity. }
  assert (E2 : inject_Z D2 == 200 * qh - (2 * inject_Z n + 1) * qt).
  { unfold D2, qt, qh, QofNat.
    rewrite DoubleFacts.inject_Z_sub, !inject_Z_mult, inject_Z_plus,
      inject_Z_mult.
    reflexivity. }
  assert (HT43' : qt < 8796093022208) by exact HT43.
  assert (P1 : (inject_Z n - (1 # 2) - (300 # 9007199254740992)) * qt
               <= X * qt)
    by (apply Qmult_le_compat_r; lra).
  assert (P2 : X * qt
               <= (inject_Z n + (1 # 2) + (300 # 9007199254740992)) * qt)
    by (apply Qmult_le_compat_r; lra).
  rewrite EX in P1, P2.
  assert (Z1 : (D1 <= 0)%Z).
  { assert (A : inject_Z D1 < 1) by (rewrite E1; lra).
    change 1 with (inject_Z 1) in A. rewrite <- Zlt_Qlt in A. lia. }
  assert (Z2 : (D2 <= 0)%Z).
  { assert (A : inject_Z D2 < 1) by (rewrite E2; lra).
    change 1 with (inject_Z 1) in A. rewrite <- Zlt_Qlt in A. lia. }
  assert (Q1 : inject_Z D1 <= 0)
    by (change 0 with (inject_Z 0); now rewrite <- Zle_Qle).
  assert (Q2 : inject_Z D2 <= 0)
    by (change 0 with (inject_Z 0); now rewrite <- Zle_Qle).
  rewrite E1 in Q1. rewrite E2 in Q2.
  split.
  - apply Qmult_le_r with qt; [exact HT|]. rewrite EX. lra.
  - apply Qmult_le_r with qt; [exact HT|]. rewrite EX. lra.
Qed.

(** C4, as the code has it.  The hit rate is computed in doubles: the
    quotient hits / (hits + misses) is rounded, its product with 100 is
    rounded, [Math.round] makes it an integer [n], and [n / 100] is rounded.
    As long as fewer than [2^43] requests were counted, [n] is an integer
    nearest to a hundred times the exact ratio, either neighbour when the
    percentage lies exactly halfway between two integers; so the reported
    rate is the ratio rounded to a nearest hundredth, not the ratio.  It is
    exactly 0 when both counters are 0. *)
Theorem stats_hit_rate_rounded c :
  (Z.of_nat (hits c + misses c) < 2 ^ 43)%Z ->
  (exists n : Z,
      (0 <= n <= 100)%Z
      /\ hitRate (getStats json_length c) == fl (inject_Z n / 100)
      /\ inject_Z n - (1 # 2) <= spec_hit_rate (hits c) (misses c) * 100
      /\ spec_hit_rate (hits c) (misses c) * 100 <= inject_Z n + (1 # 2))
  /\ (forall m ms dt,
         hitRate (getStats json_length
                    {| cache := m; maxSize := ms; defaultTTL := dt;
                       hits := 0; misses := 0 |}) == 0).
Proof.
  intros Hbig. split; [|intros; reflexivity].
  rewrite getStats_hitRate. unfold spec_hit_rate.
  destruct (hits c + misses c)%nat as [|t'] eqn:Et.
  - exists 0%Z. split; [lia|]. split; [reflexivity|].
    split; vm_compute; discriminate.
  - change (Nat.ltb 0 (S t')) with true. cbv iota.
    destruct (hit_rate_nearest (hits c) (S t') ltac:(lia) ltac:(lia) Hbig)
      as (Hn & Hlo & Hhi).
    eexists. split; [exact Hn|]. split; [reflexivity|].
    split; [exact Hlo|exact Hhi].
Qed.

(** *** Eviction and the capacity bound *)

(** When the cache is full and the key is new, [set] drops the first (least
    recently used) entry, provided its key is not the empty string, and
    appends the new one. *)
Lemma set_full_evicts_first c k v ttl now k0 (e0 : CacheEntry T) rest :
  cache c = (k0, e0) :: rest ->
  NoDup (keys c) ->
  truthy k0 = true ->
  (Z.of_nat (size c) >= maxSize c)%Z ->
  map_has k (cache c) = false ->
  cache (set now k v ttl c)
  = rest ++ [(k, {| key := k; value := v; timestamp := now;
                    ttl := actualTTL c ttl; accessCount := 1;
                    lastAccessed := now |})].
Proof.
  intros Hc Hnd Hk0 Hfull Hnew. unfold set, keys, size in *.
  rewrite Hnew. simpl negb. rewrite andb_true_r.
  replace (Z.of_nat (map_size (cache c)) >=? maxSize c)%Z with true
    by (symmetry; apply Z.geb_le; lia).
  rewrite Hc in *. cbn [first_key]. rewrite Hk0.
  rewrite (map_delete_first _ _ _ _ Hnd).
  assert (Hr : map_has k rest = false).
  { unfold map_has in *. simpl in Hnew.
    now apply orb_false_iff in Hnew as [_ ?]. }
  rewrite Hr. simpl. now rewrite map_set_absent.
Qed.

Lemma bounded_set c k v ttl now :
  (1 <= maxSize c)%Z -> truthy k = true ->
  bounded c -> bounded (set now k v ttl c).
Proof.
  intros Hcap Hk (Hnd & Hall & Hsz).
  assert (Hwf : wf (cache c)) by (split; assumption).
  unfold bounded, keys, size in *. unfold set. simpl.
  set (e := {| key := k; value := v; timestamp := now;
               ttl := actualTTL c ttl; accessCount := 1;
               lastAccessed := now |}).
  destruct (map_has k (cache c)) eqn:Hhas; simpl.
  - (* the key is present: it is removed, then written last *)
    rewrite andb_false_r, Hhas.
    rewrite map_set_absent by apply map_has_delete_same.
    destruct (wf_snoc _ _ k e (wf_delete _ _ k Hwf)
                      (map_has_delete_same _ (cache c) k) Hk) as [A B].
    split; [exact A|]. split; [exact B|].
    unfold map_size. rewrite length_app. simpl.
    pose proof (map_size_delete_lt _ _ _ Hhas) as Hlt.
    unfold map_size in *. lia.
  - rewrite andb_true_r.
    destruct (Z.of_nat (map_size (cache c)) >=? maxSize c)%Z eqn:Hfull.
    + (* full: the first entry makes room *)
      apply Z.geb_le in Hfull.
      destruct (cache c) as [|[k0 e0] rest] eqn:Hc.
      { simpl in Hfull. lia. }
      cbn [first_key].
      assert (Hk0 : truthy k0 = true) by now inversion Hall.
      rewrite Hk0. rewrite (map_delete_first _ _ _ _ Hnd).
      assert (Hr : map_has k rest = false).
      { unfold map_has in *. simpl in Hhas.
        now apply orb_false_iff in Hhas as [_ ?]. }
      rewrite Hr. rewrite map_set_absent by assumption.
      assert (Hwfr : wf rest).
      { destruct Hwf as [X Y]. split.
        - now inversion X.
        - now inversion Y. }
      destruct (wf_snoc _ _ k e Hwfr Hr Hk) as [A B].
      split; [exact A|]. split; [exact B|].
      unfold map_size in *. rewrite length_app. simpl in *. lia.
    + (* room left *)
      rewrite Z.geb_leb in Hfull. apply Z.leb_gt in Hfull.
      rewrite Hhas. rewrite map_set_absent by assumption.
      destruct (wf_snoc _ _ k e Hwf Hhas Hk) as [A B].
      split; [exact A|]. split; [exact B|].
      unfold map_size in *. rewrite length_app. simpl. lia.
Qed.

Lemma bounded_with_filter c (p : jsstring * CacheEntry T -> bool) :
  bounded c -> bounded (with_cache c (filter p (cache c))).
Proof.
  intros (Hnd & Hall & Hsz).
  destruct (wf_filter _ _ p (conj Hnd Hall)) as [A B].
  unfold bounded, keys, size in *. simpl.
  split; [exact A|]. split; [exact B|].
  pose proof (filter_length_le p (cache c)). unfold map_size in *. lia.
Qed.

Lemma bounded_counters c c' :
  cache c' = cache c -> maxSize c' = maxSize c -> bounded c -> bounded c'.
Proof.
  unfold bounded, keys, size. intros -> ->. exact (fun H => H).
Qed.

Lemma bounded_step c (o : op T) :
  (1 <= maxSize c)%Z ->
  Forall (fun k => truthy k = true) (set_keys [o]) ->
  bounded c ->
  bounded (step c o) /\ maxSize (step c o) = maxSize c.
Proof.
  intros Hcap Hkeys Hb.
  destruct o as [now k|now k v ttl|now k|k| |now|now k newTTL]; simpl.
  - (* get *)
    unfold get. destruct (map_get k (cache c)) as [e|] eqn:Hg.
    + destruct (expired now e); simpl.
      * split; [|reflexivity].
        apply (bounded_counters
                 (with_cache c (map_delete k (cache c))));
          try reflexivity.
        now apply bounded_with_filter.
      * split; [|reflexivity].
        set (e' := {| key := key e; value := value e;
                      timestamp := timestamp e; ttl := Cache.ttl e;
                      accessCount := S (accessCount e);
                      lastAccessed := now |}).
        assert (Hhas : map_has k (cache c) = true)
          by now rewrite map_has_get, Hg.
        destruct Hb as (Hnd & Hall & Hsz).
        assert (Hk : truthy k = true).
        { rewrite Forall_forall in Hall. apply Hall.
          now apply map_has_in. }
        unfold bounded, keys, size in *. simpl.
        rewrite map_set_absent by apply map_has_delete_same.
        destruct (wf_snoc _ _ k e' (wf_delete _ _ k (conj Hnd Hall))
                          (map_has_delete_same _ (cache c) k) Hk) as [A B].
        split; [exact A|]. split; [exact B|].
        unfold map_size. rewrite length_app. simpl.
        pose proof (map_size_delete_lt _ _ _ Hhas) as Hlt.
        unfold map_size in *. lia.
    + simpl. split; [|reflexivity].
      now apply (bounded_counters c).
  - (* set *)
    split; [|reflexivity].
    apply bounded_set; try assumption.
    simpl in Hkeys. now inversion Hkeys.
  - (* has *)
    unfold has. destruct (map_get k (cache c)) as [e|].
    + destruct (expired now e); simpl; split; try reflexivity;
        [now apply bounded_with_filter|assumption].
    + simpl. now split.
  - (* delete *)
    split; [|reflexivity]. now apply bounded_with_filter.
  - (* clear *)
    split; [|reflexivity]. unfold bounded, keys, size. simpl.
    split; [constructor|]. split; [constructor|lia].
  - (* cleanup *)
    split; [|reflexivity]. now apply bounded_with_filter.
  - (* updateTTL *)
    unfold updateTTL. destruct (map_get k (cache c)) as [e|] eqn:Hg.
    + simpl. split; [|reflexivity].
      assert (Hhas : map_has k (cache c) = true)
        by now rewrite map_has_get, Hg.
      destruct Hb as (Hnd & Hall & Hsz).
      unfold bounded, keys, size in *. simpl.
      rewrite map_keys_set_present by assumption.
      rewrite map_size_set_present by assumption. auto.
    + simpl. now split.
Qed.

(** With a capacity of at least one and no empty-string key ever written,
    the size stays within the capacity along every run from the empty
    cache. *)
Lemma run_within_capacity maxSize0 ttl0 (ops : list (op T)) :
  (1 <= maxSize0)%Z ->
  Forall (fun k => truthy k = true) (set_keys ops) ->
  (Z.of_nat (size (run (create T maxSize0 ttl0) ops)) <= maxSize0)%Z.
Proof.
  intros Hcap Hkeys.
  assert (Hgen : forall ops c,
             (1 <= maxSize c)%Z ->
             Forall (fun k => truthy k = true) (set_keys ops) ->
             bounded c ->
             bounded (run c ops) /\ maxSize (run c ops) = maxSize c).
  { clear. intros ops. induction ops as [|o ops IH]; intros c Hcap Hk Hb.
    - now split.
    - simpl. unfold set_keys in Hk. simpl in Hk.
      apply Forall_app in Hk as [Ho Hrest].
      destruct (bounded_step c o Hcap) as [Hb' Hm'];
        [unfold set_keys; simpl; now rewrite app_nil_r|assumption|].
      destruct (IH (step c o)) as [A B];
        [now rewrite Hm'|exact Hrest|exact Hb'|].
      split; [exact A|]. unfold run in *. simpl. now rewrite B. }
  destruct (Hgen ops (create T maxSize0 ttl0)) as [(_ & _ & Hsz) Hm];
    try assumption.
  - unfold bounded, keys, size. simpl.
    split; [constructor|]. split; [constructor|lia].
  - now rewrite Hm in Hsz.
Qed.

End LRUFacts.

(** *** Concrete runs *)

Lemma get_after_set_witness :
  (10 - 0 <= actualTTL (create nat 2 1000) None)%Z
  /\ (2000 - 0 > actualTTL (create nat 2 1000) None)%Z
  /\ fst (get 10 (js "k") (set 0 (js "k") 7%nat None (create nat 2 1000)))
     = Some 7%nat
  /\ fst (get 2000 (js "k") (set 0 (js "k") 7%nat None (create nat 2 1000)))
     = None.
Proof.
  assert (H1 : (10 - 0 <= actualTTL (create nat 2 1000) None)%Z)
    by (simpl; lia).
  assert (H2 : (2000 - 0 > actualTTL (create nat 2 1000) None)%Z)
    by (simpl; lia).
  split; [exact H1|]. split; [exact H2|].
  destruct (get_after_set nat (create nat 2 1000) (js "k") 7%nat None
                          0 10 2000 H1 H2) as [(A & _) (B & _)].
  split; [exact A|exact B].
Defined.

(** One hit and two misses: the reported rate is the double 0.33, neither
    the ratio 1/3 nor the double nearest to it. *)
Lemma hit_rate_not_exact :
  let c := run (create nat 10 1000)
               [@OpSet nat 0 (js "a") 1%nat None;
                @OpGet nat 1 (js "a"); @OpGet nat 1 (js "b");
                @OpGet nat 1 (js "c")] in
  hits c = 1%nat /\ misses c = 2%nat
  /\ hitRate (getStats (fun _ _ _ _ _ _ => O) c) == fl 0.33
  /\ ~ hitRate (getStats (fun _ _ _ _ _ _ => O) c)
        == spec_hit_rate (hits c) (misses c)
  /\ ~ hitRate (getStats (fun _ _ _ _ _ _ => O) c)
        == fl (spec_hit_rate (hits c) (misses c)).
Proof.
  cbv zeta. split; [reflexivity|]. split; [reflexivity|].
  split; [vm_compute; reflexivity|].
  split; intros H; vm_compute in H; discriminate H.
Qed.

(** A cache that has counted [h] hits and [m] misses. *)
Lemma stats_hit_rate_rounded_witness :
  let c := {| cache := @nil (jsstring * CacheEntry nat); maxSize := 10;
              defaultTTL := 1000; hits := 23; misses := 17 |} in
  (Z.of_nat (hits c + misses c) < 2 ^ 43)%Z
  /\ exists n : Z,
       (0 <= n <= 100)%Z
       /\ hitRate (getStats (fun _ _ _ _ _ _ => O) c)
          == fl (inject_Z n / 100)
       /\ inject_Z n - (1 # 2) <= spec_hit_rate (hits c) (misses c) * 100
       /\ spec_hit_rate (hits c) (misses c) * 100 <= inject_Z n + (1 # 2).
Proof.
  cbv zeta.
  assert (H : (Z.of_nat (23 + 17) < 2 ^ 43)%Z) by reflexivity.
  split; [exact H|].
  exact (proj1 (stats_hit_rate_rounded nat (fun _ _ _ _ _ _ => O)
                  {| cache := @nil (jsstring * CacheEntry nat);
                     maxSize := 10; defaultTTL := 1000;
                     hits := 23; misses := 17 |} H)).
Defined.

(** At an exact tie the doubles decide.  With 23 hits and 17 misses the
    percentage is 57.5, the double product is just below it, and the rate
    reported is 0.57; with 1 hit and 7 misses the percentage 12.5 is a
    double, and the rate reported is 0.13. *)
Lemma hit_rate_ties :
  let stats h m :=
    getStats (fun _ _ _ _ _ _ => O)
             {| cache := @nil (jsstring * CacheEntry nat); maxSize := 10;
                defaultTTL := 1000; hits := h; misses := m |} in
  spec_hit_rate 23 17 * 100 == 57.5
  /\ hitRate (stats 23%nat 17%nat) == fl 0.57
  /\ spec_hit_rate 1 7 * 100 == 12.5
  /\ hitRate (stats 1%nat 7%nat) == fl 0.13.
Proof. cbv zeta. repeat split; vm_compute; reflexivity. Qed.

(** C3, where the code departs from it.  With capacity 1, writing the
    empty-string key and then a second key leaves two entries in the cache:
    the guard [if (firstKey)] takes the empty first key for "no key" and
    evicts nothing. *)
Theorem set_keeps_empty_first_key :
  let c := run (create nat 1 1000)
               [@OpSet nat 0 (js "") 1%nat None; @OpSet nat 1 (js "a") 2%nat None] in
  maxSize c = 1%Z /\ size c = 2%nat /\ keys c = [js ""; js "a"].
Proof. cbv zeta. repeat split. Qed.

(** The same two writes with a non-empty first key evict it. *)
Lemma set_evicts_nonempty_first_key :
  let c := run (create nat 1 1000)
               [@OpSet nat 0 (js "b") 1%nat None; @OpSet nat 1 (js "a") 2%nat None] in
  size c = 1%nat /\ keys c = [js "a"].
Proof. cbv zeta. repeat split. Qed.

(** Capacity plus one distinct keys, the first of them read in between:
    the least recently touched key is the one that goes. *)
Lemma lru_order_example :
  keys (run (create nat 2 1000)
            [@OpSet nat 0 (js "a") 1%nat None; @OpSet nat 1 (js "b") 2%nat None;
             @OpGet nat 2 (js "a"); @OpSet nat 3 (js "c") 3%nat None])
  = [js "a"; js "c"].
Proof. reflexivity. Qed.

End CacheFacts.

(** ** Scoring *)

Module ScoringFacts.
Import Patterns Scoring Formatting Validation Spec Signals.

(** *** Rounding and clamping *)

Lemma QofNat_nonneg (n : nat) : 0 <= QofNat n.
Proof.
  unfold QofNat. change 0 with (inject_Z 0). rewrite <- Zle_Qle. lia.
Qed.

Lemma QofNat_le (n m : nat) : (n <= m)%nat -> QofNat n <= QofNat m.
Proof. intros H. unfold QofNat. rewrite <- Zle_Qle. lia. Qed.

Lemma QofNat_S (n : nat) : QofNat (S n) == QofNat n + 1.
Proof.
  unfold QofNat. rewrite Nat2Z.inj_succ. unfold Z.succ.
  now rewrite inject_Z_plus.
Qed.

Lemma QofNat_lt (n m : nat) : (n < m)%nat -> QofNat n + 1 <= QofNat m.
Proof. intros H. rewrite <- QofNat_S. now apply QofNat_le. Qed.

Lemma QofNat_pos (n : nat) : (0 < n)%nat -> ~ QofNat n == 0.
Proof.
  intros H E. apply QofNat_lt in H. change (QofNat 0) with 0 in H. lra.
Qed.

Lemma clamp_range (x : Q) : 0 <= Qmax 0 (Qmin 1 x) <= 1.
Proof.
  split; [apply Q.le_max_l|].
  apply Q.max_lub; [lra|apply Q.le_min_l].
Qed.

Lemma clamp_mono (x y : Q) : x <= y -> Qmax 0 (Qmin 1 x) <= Qmax 0 (Qmin 1 y).
Proof.
  intros H. apply Q.max_le_compat_l. now apply Q.min_le_compat_l.
Qed.

Lemma clamp_id (x : Q) : 0 <= x <= 1 -> Qmax 0 (Qmin 1 x) == x.
Proof.
  intros [H0 H1]. rewrite (Q.min_r 1 x H1). now apply Q.max_r.
Qed.

Lemma clamp_comp (x y : Q) : x == y -> Qmax 0 (Qmin 1 x) == Qmax 0 (Qmin 1 y).
Proof. intros H. now rewrite H. Qed.

Lemma div100_le (a b : Q) : a <= b -> a / 100 <= b / 100.
Proof.
  intros H. unfold Qdiv. apply Qmult_le_compat_r; [exact H|].
  vm_compute. discriminate.
Qed.

Lemma div100_lt (a b : Q) : a < b -> a / 100 < b / 100.
Proof.
  intros H. unfold Qdiv. apply Qmult_lt_compat_r; [reflexivity|exact H].
Qed.

Lemma safeRound_unfold (x : Q) :
  safeRound x = inject_Z (Math_round (x * 100)) / 100.
Proof. reflexivity. Qed.

Lemma safeRound_comp (x y : Q) : x == y -> safeRound x == safeRound y.
Proof.
  intros H. rewrite !safeRound_unfold. unfold Math_round.
  assert (E : Qfloor (x * 100 + (1 # 2)) = Qfloor (y * 100 + (1 # 2)))
    by (apply Qfloor_comp; now rewrite H).
  now rewrite E.
Qed.

Lemma safeRound_mono (x y : Q) : x <= y -> safeRound x <= safeRound y.
Proof.
  intros H. rewrite !safeRound_unfold. unfold Math_round.
  assert (E : (Qfloor (x * 100 + (1 # 2)) <= Qfloor (y * 100 + (1 # 2)))%Z)
    by (apply Qfloor_resp_le; lra).
  rewrite Zle_Qle in E. now apply div100_le.
Qed.

(** Rounding keeps a gap of a hundredth or more. *)
Lemma safeRound_strict (x y : Q) : x + 0.01 <= y -> safeRound x < safeRound y.
Proof.
  intros H. rewrite !safeRound_unfold. unfold Math_round.
  pose proof (Qfloor_le (x * 100 + (1 # 2))) as Hx.
  pose proof (Qlt_floor (y * 100 + (1 # 2))) as Hy.
  rewrite inject_Z_plus in Hy. change (inject_Z 1) with 1 in Hy.
  assert (E : (Qfloor (x * 100 + (1 # 2)) + 1
               <= Qfloor (y * 100 + (1 # 2)))%Z).
  { rewrite <- (Qfloor_Z (Qfloor (x * 100 + (1 # 2)) + 1)).
    apply Qfloor_resp_le. rewrite inject_Z_plus.
    change (inject_Z 1) with 1. lra. }
  rewrite Zle_Qle, inject_Z_plus in E. change (inject_Z 1) with 1 in E.
  apply div100_lt. lra.
Qed.

(** A value in the unit interval rounds to a whole number of hundredths
    between 0 and 100. *)
Lemma safeRound_unit (x : Q) :
  0 <= x <= 1 ->
  0 <= safeRound x <= 1
  /\ exists k : Z, (0 <= k <= 100)%Z /\ safeRound x == inject_Z k / 100.
Proof.
  intros [H0 H1]. rewrite safeRound_unfold. unfold Math_round.
  set (k := Qfloor (x * 100 + (1 # 2))).
  assert (Hk0 : (0 <= k)%Z).
  { rewrite <- (Qfloor_Z 0). apply Qfloor_resp_le.
    change (inject_Z 0) with 0. lra. }
  assert (Hk1 : (k <= 100)%Z).
  { change 100%Z with (Qfloor (100 + (1 # 2))).
    apply Qfloor_resp_le. lra. }
  assert (Q0 : 0 <= inject_Z k)
    by (change 0 with (inject_Z 0); now rewrite <- Zle_Qle).
  assert (Q1 : inject_Z k <= 100)
    by (change 100 with (inject_Z 100); now rewrite <- Zle_Qle).
  split.
  - split.
    + apply (Qle_trans _ (0 / 100)); [discriminate|].
      apply (div100_le 0 (inject_Z k) Q0).
    + apply (Qle_trans _ (100 / 100)); [|discriminate].
      apply (div100_le (inject_Z k) 100 Q1).
  - exists k. split; [lia|apply Qeq_refl].
Qed.

(** *** Range and precision of the two scores *)

Lemma two_decimals_zero : two_decimals_in_unit 0.
Proof.
  split; [split; discriminate|]. exists 0%Z. split; [lia|reflexivity].
Qed.

Lemma two_decimals_clamped (x : Q) :
  two_decimals_in_unit (safeRound (Qmax 0 (Qmin 1 x))).
Proof. apply safeRound_unit, clamp_range. Qed.

(** C1. Whatever the text, the specification, the domain and the state of
    the shared pattern objects, [calculateClarity] and
    [calculateCompleteness] return a number between 0 and 1 that is a whole
    number of hundredths. *)
Theorem scores_in_unit_interval
        (st : Analyzer.RegexState) (text : jsstring) (hasConstraints : bool)
        (spec : StructuralThinking) (domain : option Domain) :
  two_decimals_in_unit
    (fst (Analyzer.calculateClarity st text hasConstraints domain))
  /\ two_decimals_in_unit (Analyzer.calculateCompleteness text spec domain).
Proof.
  split.
  - unfold Analyzer.calculateClarity.
    destruct (negb (valid (validateInputDetailed text (Some 3%nat) None))).
    + apply two_decimals_zero.
    + cbv zeta.
      destruct (some_test STRUCTURE_PATTERNS st text) as [hs st'].
      cbn [fst]. apply two_decimals_clamped.
  - unfold Analyzer.calculateCompleteness. cbv zeta.
    apply two_decimals_clamped.
Qed.

(** *** The clarity score as a sum of signals *)

Lemma proportional_penalty (v w p m : Q) :
  ~ w == 0 -> Qmin (v / w * w * p) m == Qmin (v * p) m.
Proof.
  intros Hw. apply Q.min_compat; [|reflexivity]. now field.
Qed.

Lemma calculateClarity_raw st text hc domain :
  valid_text text = true ->
  fst (Analyzer.calculateClarity st text hc domain)
  == safeRound (Qmax 0 (Qmin 1 (raw_clarity st domain text))).
Proof.
  intros Hv. unfold Analyzer.calculateClarity.
  unfold valid_text in Hv. rewrite Hv. cbn [negb]. cbv zeta.
  unfold raw_clarity, bonuses, other_signals, vague_penalty, sentences,
    avgSentenceLength, vagueCount.
  cbn [clarityCount numberMatches verbCount longSentences1 longSentences2
       hasStructure questionMatches domainMatches].
  cbv zeta.
  assert (Hp : proportionalScoring (Scoring.clarity (getScoringConfig domain))
               = true) by (destruct domain as [[]|]; reflexivity).
  rewrite Hp. cbn [andb].
  (* name every signal, so that the arithmetic sees no pattern *)
  generalize (some_test STRUCTURE_PATTERNS st text). intros [hs st'].
  generalize (clarity_num (Scoring.clarity (getScoringConfig domain))).
  intros c.
  generalize (filter (fun s => Qgtb (QofNat (JS.length (trim s)))
                                    (c Cl.minSentenceLength))
                     (split_re (rx (Plus (chars ".!?"))) text)).
  intros ss.
  generalize (count_matches (getDomainPatterns domain) text). intros nd.
  generalize (match_count QUESTION_WORDS text). intros nq.
  generalize (count_tests CONCRETE_VERBS text). intros nverb.
  generalize (count_matches MEASUREMENT_PATTERNS text). intros nm.
  generalize (count_tests CLARITY_INDICATORS text). intros nc.
  generalize (count_tests VAGUE_WORDS text). intros nv.
  generalize (getWordCount text). intros w.
  cbn [fst]. apply safeRound_comp, clamp_comp.
  set (b1 := Qmin (QofNat nc * _) _).
  set (b2 := Qmin (QofNat nm * _) _).
  set (b3 := Qmin (QofNat nverb * _) _).
  set (b4 := Qmin (QofNat nq * _) _).
  set (b5 := Qmin (QofNat nd * _) _).
  set (pv := Qmin (QofNat nv * c Cl.vagueWordPenalty) _).
  set (vp := if Nat.ltb 0 w then _ else _).
  assert (Hvp : vp == c Cl.baseScore - pv).
  { subst vp pv. destruct (Nat.ltb 0 w) eqn:Hw.
    - apply Nat.ltb_lt in Hw. rewrite proportional_penalty; [reflexivity|].
      now apply QofNat_pos.
    - reflexivity. }
  clearbody vp b1 b2 b3 b4 b5 pv.
  set (avg := QofNat (fold_left _ ss O) / QofNat (List.length ss)).
  clearbody avg.
  destruct (Nat.ltb 0 (List.length ss)); cbn [andb];
    [destruct (Qgtb avg (c Cl.sentenceLengthThreshold1));
     destruct (Qgtb avg (c Cl.sentenceLengthThreshold2))|];
    destruct hs; destruct (Nat.ltb 0 nq); destruct (Nat.ltb 0 nd);
    rewrite Hvp; ring.
Qed.

(** No domain overrides the base score or a penalty. *)
Lemma clarity_penalties domain :
  let c := clarity_num (Scoring.clarity (getScoringConfig domain)) in
  c Cl.baseScore = 0.5 /\ c Cl.vagueWordPenalty = 0.05
  /\ c Cl.maxVagueWordPenalty = 0.25
  /\ c Cl.longSentencePenalty1 = 0.05 /\ c Cl.longSentencePenalty2 = 0.1.
Proof. destruct domain as [[]|]; repeat split. Qed.

Lemma clarity_bonuses_nonneg domain :
  let c := clarity_num (Scoring.clarity (getScoringConfig domain)) in
  0 <= c Cl.clarityIndicatorBonus /\ 0 <= c Cl.maxClarityIndicatorBonus
  /\ 0 <= c Cl.measurementBonus /\ 0 <= c Cl.maxMeasurementBonus
  /\ 0 <= c Cl.verbBonus /\ 0 <= c Cl.maxVerbBonus
  /\ 0 <= c Cl.structureBonus.
Proof. destruct domain as [[]|]; repeat split; discriminate. Qed.

Lemma capped_bonus_nonneg (n : nat) (b cap : Q) :
  0 <= b -> 0 <= cap -> 0 <= Qmin (QofNat n * b) cap.
Proof.
  intros Hb Hc. apply Q.min_glb; [|exact Hc].
  apply Qmult_le_0_compat; [apply QofNat_nonneg|exact Hb].
Qed.

Lemma vague_penalty_mono domain (n n' : nat) :
  let c := clarity_num (Scoring.clarity (getScoringConfig domain)) in
  (n <= n')%nat -> vague_penalty c n <= vague_penalty c n'.
Proof.
  intros c H. unfold vague_penalty. apply Q.min_le_compat_r.
  destruct (clarity_penalties domain) as (_ & Hp & _). fold c in Hp.
  rewrite Hp. apply QofNat_le in H. nra.
Qed.

(** Below the cap every further vague pattern costs five hundredths. *)
Lemma vague_penalty_step domain (n n' : nat) :
  let c := clarity_num (Scoring.clarity (getScoringConfig domain)) in
  (n < n')%nat -> (n < 5)%nat ->
  vague_penalty c n + 0.05 <= vague_penalty c n'.
Proof.
  intros c Hlt H5. unfold vague_penalty.
  destruct (clarity_penalties domain) as (_ & Hp & Hm & _).
  fold c in Hp, Hm. rewrite Hp, Hm.
  assert (H5' : QofNat n + 1 <= 5).
  { apply QofNat_lt in H5. exact H5. }
  apply QofNat_lt in Hlt.
  rewrite (Q.min_l (QofNat n * 0.05) 0.25) by lra.
  apply Q.min_glb; lra.
Qed.

Lemma bonuses_lower_bound domain sg :
  let c := clarity_num (Scoring.clarity (getScoringConfig domain)) in
  - 0.15 <= bonuses c sg.
Proof.
  intros c. unfold bonuses.
  destruct (clarity_penalties domain) as (_ & _ & _ & H1 & H2).
  destruct (clarity_bonuses_nonneg domain)
    as (B1 & B2 & B3 & B4 & B5 & B6 & B7).
  fold c in H1, H2, B1, B2, B3, B4, B5, B6, B7. rewrite H1, H2.
  pose proof (capped_bonus_nonneg (clarityCount sg) _ _ B1 B2).
  pose proof (capped_bonus_nonneg (numberMatches sg) _ _ B3 B4).
  pose proof (capped_bonus_nonneg (verbCount sg) _ _ B5 B6).
  assert (0 <= Qmin (QofNat (questionMatches sg) * 0.02) 0.08)
    by (apply capped_bonus_nonneg; discriminate).
  assert (0 <= Qmin (QofNat (domainMatches sg) * 0.01) 0.05)
    by (apply capped_bonus_nonneg; discriminate).
  destruct (longSentences1 sg), (longSentences2 sg), (hasStructure sg),
    (Nat.ltb 0 (questionMatches sg)), (Nat.ltb 0 (domainMatches sg)); lra.
Qed.

Lemma vague_penalty_cap domain n :
  let c := clarity_num (Scoring.clarity (getScoringConfig domain)) in
  vague_penalty c n <= 0.25.
Proof.
  intros c. unfold vague_penalty.
  destruct (clarity_penalties domain) as (_ & _ & Hm & _).
  fold c in Hm. rewrite Hm. apply Q.le_min_r.
Qed.

(** The raw score never drops below a tenth, so the lower clamp is idle. *)
Lemma raw_clarity_lower_bound st domain text :
  0.1 <= raw_clarity st domain text.
Proof.
  unfold raw_clarity. cbv zeta.
  pose proof (bonuses_lower_bound domain (other_signals st domain text)) as B.
  pose proof (vague_penalty_cap domain (vagueCount text)) as V.
  destruct (clarity_penalties domain) as (Hb & _).
  cbv zeta in B, V, Hb. rewrite Hb. lra.
Qed.

Lemma safeRound_one : safeRound 1 == 1.
Proof. reflexivity. Qed.

(** C7, as the code has it.  For two texts that pass the length check and
    agree on every other signal, the one matching at least as many vague
    patterns never has the higher clarity; it is strictly lower when it
    matches more of them, the other text matches fewer than five (the
    penalty is capped at five matches) and the other text's score is not
    already capped at 1. *)
Theorem vague_terms_never_raise_clarity st domain t t' hc hc' :
  valid_text t = true ->
  valid_text t' = true ->
  other_signals st domain t = other_signals st domain t' ->
  (vagueCount t <= vagueCount t')%nat ->
  fst (Analyzer.calculateClarity st t' hc' domain)
  <= fst (Analyzer.calculateClarity st t hc domain)
  /\ ((vagueCount t < vagueCount t')%nat ->
      (vagueCount t < 5)%nat ->
      fst (Analyzer.calculateClarity st t hc domain) < 1 ->
      fst (Analyzer.calculateClarity st t' hc' domain)
      < fst (Analyzer.calculateClarity st t hc domain)).
Proof.
  intros Hv Hv' Hsig Hle.
  rewrite (calculateClarity_raw st t hc domain Hv).
  rewrite (calculateClarity_raw st t' hc' domain Hv').
  set (r := raw_clarity st domain t). set (r' := raw_clarity st domain t').
  assert (Hmono : r' <= r).
  { subst r r'. unfold raw_clarity. cbv zeta. rewrite <- Hsig.
    pose proof (vague_penalty_mono domain _ _ Hle) as P. cbv zeta in P. lra. }
  split.
  - apply safeRound_mono, clamp_mono, Hmono.
  - intros Hlt H5 Hs.
    assert (Hstep : r' + 0.05 <= r).
    { subst r r'. unfold raw_clarity. cbv zeta. rewrite <- Hsig.
      pose proof (vague_penalty_step domain _ _ Hlt H5) as P.
      cbv zeta in P. lra. }
    pose proof (raw_clarity_lower_bound st domain t') as Hlow. fold r' in Hlow.
    assert (Hr1 : r < 1).
    { destruct (Qlt_le_dec r 1) as [|Hge]; [assumption|exfalso].
      assert (E : Qmax 0 (Qmin 1 r) == 1).
      { rewrite (Q.min_l 1 r Hge). apply Q.max_r. discriminate. }
      rewrite (safeRound_comp _ _ E), safeRound_one in Hs. lra. }
    rewrite (safeRound_comp _ _ (clamp_id r ltac:(split; lra))).
    rewrite (safeRound_comp _ _ (clamp_id r' ltac:(split; lra))).
    apply safeRound_strict. lra.
Qed.

(** *** Scenario C and the limits of monotonicity *)

Lemma vague_terms_never_raise_clarity_witness :
  let t := js " and  solution" in
  let t' := js "very good and quite nice solution" in
  valid_text t = true /\ valid_text t' = true
  /\ other_signals Analyzer.fresh None t = other_signals Analyzer.fresh None t'
  /\ (vagueCount t <= vagueCount t')%nat
  /\ fst (Analyzer.calculateClarity Analyzer.fresh t' false None)
     <= fst (Analyzer.calculateClarity Analyzer.fresh t false None)
  /\ fst (Analyzer.calculateClarity Analyzer.fresh t' false None)
     < fst (Analyzer.calculateClarity Analyzer.fresh t false None).
Proof.
  cbv zeta.
  assert (Hv : valid_text (js " and  solution") = true) by reflexivity.
  assert (Hv' : valid_text (js "very good and quite nice solution") = true)
    by reflexivity.
  assert (Hsig : other_signals Analyzer.fresh None (js " and  solution")
                 = other_signals Analyzer.fresh None
                     (js "very good and quite nice solution"))
    by (vm_compute; reflexivity).
  assert (Hle : (vagueCount (js " and  solution")
                 <= vagueCount (js "very good and quite nice solution"))%nat)
    by (vm_compute; lia).
  destruct (vague_terms_never_raise_clarity
              Analyzer.fresh None _ _ false false Hv Hv' Hsig Hle)
    as [Hmono Hstrict].
  repeat (split; [assumption|]).
  apply Hstrict.
  - vm_compute. lia.
  - vm_compute. lia.
  - vm_compute. reflexivity.
Defined.

(** The scores of scenario C: 0.30 with the four vague terms, 0.50 without. *)
Lemma scenario_C_scores :
  fst (Analyzer.calculateClarity Analyzer.fresh
         (js "very good and quite nice solution") false None) == 0.3
  /\ fst (Analyzer.calculateClarity Analyzer.fresh
            (js " and  solution") false None) == 0.5.
Proof. split; vm_compute; reflexivity. Qed.

(** Two ways the claim fails as stated.  A base text below the minimum
    length scores 0, and gains clarity when a vague term lengthens it; and
    once five vague patterns match, the four terms of scenario C cost
    nothing more. *)
Lemma vague_term_not_always_lower :
  (let t := js "ab" in
   let t' := js "ab nice" in
   other_signals Analyzer.fresh None t = other_signals Analyzer.fresh None t'
   /\ (vagueCount t < vagueCount t')%nat
   /\ fst (Analyzer.calculateClarity Analyzer.fresh t false None)
      < fst (Analyzer.calculateClarity Analyzer.fresh t' false None))
  /\ (let t := js "better quickly clean efficient simple  and  solution" in
      let t' := js ("better quickly clean efficient simple "
                    ++ "very good and quite nice solution") in
      other_signals Analyzer.fresh None t
      = other_signals Analyzer.fresh None t'
      /\ (vagueCount t + 4 = vagueCount t')%nat
      /\ ~ fst (Analyzer.calculateClarity Analyzer.fresh t' false None)
           < fst (Analyzer.calculateClarity Analyzer.fresh t false None)).
Proof.
  split; cbv zeta.
  - split; [vm_compute; reflexivity|].
    split; [vm_compute; lia|]. vm_compute. reflexivity.
  - split; [vm_compute; reflexivity|].
    split; [vm_compute; reflexivity|].
    intros H. vm_compute in H. discriminate H.
Qed.

(** *** Determinism *)

(** C5, where the code departs from it.  The elements of
    [STRUCTURE_PATTERNS] carry the [g] flag and are shared by all calls, so
    [test] resumes at the [lastIndex] the previous call left: the same
    bulleted text scores 0.55 on the first call and 0.50 on the second, and
    two drafts of the same prompt differ in [metrics.clarity]. *)
Theorem clarity_second_call_differs :
  let text := js "- a" in
  let r1 := Analyzer.calculateClarity Analyzer.fresh text false None in
  let r2 := Analyzer.calculateClarity (snd r1) text false None in
  let d1 := Analyzer.draftFromText Analyzer.fresh text None in
  let d2 := Analyzer.draftFromText (snd d1) text None in
  fst r1 == 0.55 /\ fst r2 == 0.5 /\ ~ fst r1 == fst r2
  /\ snd r1 = [2; 0; 0; 0]%nat
  /\ fst d1 <> fst d2.
Proof.
  cbv zeta. split; [vm_compute; reflexivity|].
  split; [vm_compute; reflexivity|].
  split; [intros H; vm_compute in H; discriminate H|].
  split; [vm_compute; reflexivity|].
  intros H. apply (f_equal metrics) in H. vm_compute in H. discriminate H.
Qed.

(** The scorer of index.ts evaluates its two structure patterns as
    literals, anew at each call, and has no state to carry. *)
Lemma legacy_clarity_bulleted :
  Legacy.calculateClarity (js "- a") false == 0.62.
Proof. vm_compute. reflexivity. Qed.

End ScoringFacts.

(** ** Drafting and gap detection *)

Module DraftFacts.
Import Patterns Scoring Formatting Validation Spec Signals.

(** The fields of a draft that do not depend on the scores. *)
Lemma analyzer_draft_instructions st prompt domain :
  instructions (fst (Analyzer.draftFromText st prompt domain))
  = [trim (join (js " ")
                (filter (fun line => truthy (trim line))
                        (split_chr 10 prompt)))].
Proof.
  unfold Analyzer.draftFromText. cbv zeta.
  destruct (Analyzer.calculateClarity st _ false domain). reflexivity.
Qed.

Lemma analyzer_draft_format st prompt domain :
  format (io (fst (Analyzer.draftFromText st prompt domain))) = js "markdown".
Proof.
  unfold Analyzer.draftFromText. cbv zeta.
  destruct (Analyzer.calculateClarity st _ false domain). reflexivity.
Qed.

Lemma analyzer_draft_intent st prompt domain :
  intent (fst (Analyzer.draftFromText st prompt domain))
  = intent (fst (Analyzer.draftFromText Analyzer.fresh prompt domain)).
Proof.
  unfold Analyzer.draftFromText. cbv zeta.
  destruct (Analyzer.calculateClarity st _ false domain).
  destruct (Analyzer.calculateClarity Analyzer.fresh _ false domain).
  reflexivity.
Qed.

(** The drafter of core/analyzer.ts always produces exactly one
    instruction: the joined text. *)
Lemma analyzer_draft_one_instruction st prompt domain :
  List.length (instructions (fst (Analyzer.draftFromText st prompt domain)))
  = 1%nat.
Proof. now rewrite analyzer_draft_instructions. Qed.

(** C9. Drafting "create user authentication" without a domain gives the
    intent "generate_code", exactly one instruction and the format
    "markdown", in the drafter of core/analyzer.ts (from any state of the
    shared patterns) and in the drafter of index.ts. *)
Theorem draft_create_user_authentication (st : Analyzer.RegexState) :
  let prompt := js "create user authentication" in
  let spec := fst (Analyzer.draftFromText st prompt None) in
  let spec0 := Legacy.draftFromText prompt None in
  (intent spec = js "generate_code"
   /\ List.length (instructions spec) = 1%nat
   /\ format (io spec) = js "markdown")
  /\ (intent spec0 = js "generate_code"
      /\ List.length (instructions spec0) = 1%nat
      /\ format (io spec0) = js "markdown").
Proof.
  cbv zeta. split; [split; [|split]|].
  - rewrite analyzer_draft_intent. vm_compute. reflexivity.
  - apply analyzer_draft_one_instruction.
  - apply analyzer_draft_format.
  - vm_compute. repeat split.
Qed.

(** C6, where the code departs from it.  A prompt of three spaces passes the
    length validation of the server, and the drafter of index.ts, which
    keeps the non-blank lines as instructions, returns none for it; its own
    gap detector then reports the error "No instructions provided". *)
Theorem legacy_draft_blank_prompt :
  let prompt := js "   " in
  validateInputDetailed prompt
    (Some Legacy.SCORING_CONFIG_minPromptLength)
    (Some Legacy.SCORING_CONFIG_maxPromptLength) = None
  /\ instructions (Legacy.draftFromText prompt None) = []
  /\ In Legacy.issue_no_instructions
        (issues (Legacy.detectGaps (Legacy.draftFromText prompt None))).
Proof.
  cbv zeta. split; [vm_compute; reflexivity|].
  split; [vm_compute; reflexivity|].
  vm_compute. right. left. reflexivity.
Qed.

(** The legacy drafter has an instruction for every prompt with a
    non-blank line. *)
Lemma legacy_draft_instructions prompt domain :
  instructions (Legacy.draftFromText prompt domain) = Legacy.toLines prompt.
Proof. reflexivity. Qed.

(** *** The gap detector *)

Lemma count_push_if (p : Issue -> bool) (b : bool) (i : Issue) :
  List.length (filter p (if b then [i] else []))
  = if b && p i then 1%nat else 0%nat.
Proof. destruct b; simpl; [destruct (p i)|]; reflexivity. Qed.

(** C8. For a specification whose [constraints] is the empty list, the
    issue list of the gap detector (of core/analyzer.ts and of index.ts)
    has exactly one entry with severity "info" and path "/constraints". *)
Theorem empty_constraints_one_info_issue (spec : StructuralThinking) :
  constraints spec = Some [] ->
  List.length (filter is_constraints_info
                      (issues (Analyzer.detectGaps spec))) = 1%nat
  /\ List.length (filter is_constraints_info
                         (issues (Legacy.detectGaps spec))) = 1%nat.
Proof.
  intros Hc. split.
  - unfold Analyzer.detectGaps. cbv zeta. cbn [issues].
    rewrite Hc. unfold Analyzer.push_if.
    rewrite !filter_app, !length_app, !count_push_if.
    change (is_constraints_info Analyzer.issue_sections) with false.
    change (is_constraints_info Analyzer.issue_vague) with false.
    change (is_constraints_info Analyzer.issue_inputs) with false.
    change (is_constraints_info Analyzer.issue_constraints) with true.
    rewrite !andb_false_r. reflexivity.
  - unfold Legacy.detectGaps. cbv zeta. cbn [issues].
    rewrite Hc. unfold Legacy.push_if.
    rewrite !filter_app, !length_app, !count_push_if.
    change (is_constraints_info Legacy.issue_format) with false.
    change (is_constraints_info Legacy.issue_sections) with false.
    change (is_constraints_info Legacy.issue_no_instructions) with false.
    change (is_constraints_info Legacy.issue_vague) with false.
    change (is_constraints_info Legacy.issue_inputs) with false.
    change (is_constraints_info Legacy.issue_constraints) with true.
    rewrite !andb_false_r. reflexivity.
Qed.

Lemma empty_constraints_one_info_issue_witness :
  let spec := Legacy.draftFromText (js "create user authentication") None in
  constraints spec = Some []
  /\ List.length (filter is_constraints_info
                         (issues (Analyzer.detectGaps spec))) = 1%nat
  /\ List.length (filter is_constraints_info
                         (issues (Legacy.detectGaps spec))) = 1%nat.
Proof.
  cbv zeta.
  assert (Hc : constraints (Legacy.draftFromText
                              (js "create user authentication") None)
               = Some []) by (vm_compute; reflexivity).
  split; [exact Hc|].
  exact (empty_constraints_one_info_issue _ Hc).
Defined.

End DraftFacts.

(** ** More on the result cache *)

Module CacheMore.
Import Cache CacheOps.

Section Probes.
Variable T : Type.
Implicit Types (c : LRUCache T) (k : jsstring).

(** [has(key)] answers whether the key is stored and fresh; an expired entry
    is evicted on the way; neither counter moves, and afterwards the key is
    stored exactly when the answer was [true]. *)
Theorem has_probe c k now :
  fst (has now k c)
  = match map_get k (cache c) with
    | Some e => negb (expired now e)
    | None => false
    end
  /\ cache (snd (has now k c))
     = (if fst (has now k c) then cache c else map_delete k (cache c))
  /\ map_has k (cache (snd (has now k c))) = fst (has now k c)
  /\ hits (snd (has now k c)) = hits c
  /\ misses (snd (has now k c)) = misses c.
Proof.
  unfold has. destruct (map_get k (cache c)) as [e|] eqn:Hg.
  - destruct (expired now e); simpl.
    + repeat split. apply CacheFacts.map_has_delete_same.
    + repeat split. now rewrite CacheFacts.map_has_get, Hg.
  - simpl.
    assert (Hh : map_has k (cache c) = false)
      by now rewrite CacheFacts.map_has_get, Hg.
    repeat split; [|exact Hh].
    symmetry. now apply CacheFacts.map_delete_absent.
Qed.

Lemma map_get_snoc_other (V : Type) (m : Map V) k k' (v : V) :
  k' <> k -> map_get k' (m ++ [(k, v)]) = map_get k' m.
Proof.
  intros Hne. unfold map_get.
  induction m as [|[k1 v1] m IH]; simpl.
  - now rewrite (eqs_neq _ _ (fun H => Hne (eq_sym H))).
  - destruct (eqs k1 k'); [reflexivity|exact IH].
Qed.

Lemma filter_negb_clean (A : Type) (p : A -> bool) (l : list A) :
  filter p (filter (fun x => negb (p x)) l) = []
  /\ filter (fun x => negb (p x)) (filter (fun x => negb (p x)) l)
     = filter (fun x => negb (p x)) l
  /\ forallb (fun x => negb (p x)) (filter (fun x => negb (p x)) l) = true.
Proof.
  induction l as [|x l (IH1 & IH2 & IH3)]; simpl; [repeat split|].
  destruct (p x) eqn:E; simpl; [repeat split; assumption|].
  rewrite E. simpl. rewrite IH1, IH2, IH3. repeat split.
Qed.

Lemma map_get_filter_kept (V : Type) (q : V -> bool) (m : Map V) k (e : V) :
  map_get k m = Some e -> q e = true ->
  map_get k (filter (fun kv => q (snd kv)) m) = Some e.
Proof.
  unfold map_get. induction m as [|[k1 e1] m IH]; simpl; [discriminate|].
  destruct (eqs k1 k) eqn:E.
  - intros H Hq. simpl in H. assert (e1 = e) by congruence. subst e1.
    rewrite Hq. simpl. now rewrite E.
  - intros H Hq. destruct (q e1); simpl; [rewrite E|]; now apply IH.
Qed.

Lemma map_get_filter_absent (V : Type) (p : jsstring * V -> bool)
      (m : Map V) k :
  ~ In k (map_keys m) -> map_get k (filter p m) = None.
Proof.
  unfold map_get, map_keys.
  induction m as [|[k1 e1] m IH]; simpl; [reflexivity|].
  intros Hni.
  assert (E : eqs k1 k = false)
    by (apply eqs_neq; intros ->; apply Hni; now left).
  assert (Hm : ~ In k (map fst m)) by (intros Hin; apply Hni; now right).
  destruct (p (k1, e1)); simpl; [rewrite E|]; now apply IH.
Qed.

Lemma map_get_filter_dropped (V : Type) (q : V -> bool) (m : Map V) k
      (e : V) :
  NoDup (map_keys m) ->
  map_get k m = Some e -> q e = false ->
  map_get k (filter (fun kv => q (snd kv)) m) = None.
Proof.
  induction m as [|[k1 e1] m IH]; [discriminate|].
  intros Hnd. inversion Hnd as [|? ? Hni Hnd']; subst.
  unfold map_get at 1. simpl. destruct (eqs k1 k) eqn:E.
  - intros H Hq. simpl in H. assert (e1 = e) by congruence. subst e1.
    rewrite Hq. apply eqs_iff in E. subst k1.
    now apply map_get_filter_absent.
  - intros H Hq. fold (map_get k m) in H.
    destruct (q e1); [|now apply IH].
    unfold map_get. simpl. rewrite E. now apply IH.
Qed.

(** [cleanup()] removes exactly the expired entries.  An entry is in the
    cache afterwards exactly when it was there and is not expired; a stored
    entry that is not expired is still found under its key, unchanged, and
    an expired one is no longer found; the number returned is the number
    of entries removed; nothing left is expired at that time; a second
    sweep at the same time removes nothing; the counters do not move. *)
Theorem cleanup_sweeps c now :
  (forall kv,
      In kv (cache (snd (cleanup now c)))
      <-> In kv (cache c) /\ expired now (snd kv) = false)
  /\ (forall k e,
         map_get k (cache c) = Some e -> expired now e = false ->
         map_get k (cache (snd (cleanup now c))) = Some e)
  /\ (NoDup (keys c) ->
      forall k e,
        map_get k (cache c) = Some e -> expired now e = true ->
        map_get k (cache (snd (cleanup now c))) = None)
  /\ (fst (cleanup now c) + size (snd (cleanup now c)) = size c)%nat
  /\ forallb (fun kv => negb (expired now (snd kv)))
             (cache (snd (cleanup now c))) = true
  /\ fst (cleanup now (snd (cleanup now c))) = 0%nat
  /\ cache (snd (cleanup now (snd (cleanup now c))))
     = cache (snd (cleanup now c))
  /\ hits (snd (cleanup now c)) = hits c
  /\ misses (snd (cleanup now c)) = misses c.
Proof.
  split.
  { intros kv. unfold cleanup. cbn [snd cache with_cache].
    rewrite filter_In, negb_true_iff. reflexivity. }
  split.
  { intros k e Hget Hfresh. unfold cleanup. cbn [snd cache with_cache].
    apply (map_get_filter_kept _ (fun e' => negb (expired now e'))
             (cache c) k e Hget).
    now rewrite Hfresh. }
  split.
  { intros Hnd k e Hget Hexp. unfold cleanup. cbn [snd cache with_cache].
    apply (map_get_filter_dropped _ (fun e' => negb (expired now e'))
             (cache c) k e Hnd Hget).
    now rewrite Hexp. }
  unfold cleanup, size, map_size. simpl.
  destruct (filter_negb_clean _ (fun kv : jsstring * CacheEntry T =>
                                   expired now (snd kv)) (cache c))
    as (H1 & H2 & H3).
  split; [apply filter_length|].
  split; [exact H3|].
  split; [now rewrite H1|].
  split; [exact H2|]. split; reflexivity.
Qed.

(** A successful [get] makes its key the most recently used one: the other
    keys keep their order in front of it, the size is unchanged, and the
    entry keeps its value, creation time and TTL while its access count
    grows by one. *)
Theorem get_hit_promotes c k now (e : CacheEntry T) :
  NoDup (keys c) ->
  map_get k (cache c) = Some e ->
  expired now e = false ->
  keys (snd (get now k c))
  = filter (fun k' => negb (eqs k' k)) (keys c) ++ [k]
  /\ size (snd (get now k c)) = size c
  /\ map_get k (cache (snd (get now k c)))
     = Some {| key := key e; value := value e; timestamp := timestamp e;
               ttl := ttl e; accessCount := S (accessCount e);
               lastAccessed := now |}
  /\ (forall k', map_get k' (cache (snd (get now k c)))
                 = if eqs k' k
                   then map_get k (cache (snd (get now k c)))
                   else map_get k' (cache c)).
Proof.
  intros Hnd Hg Hfresh. unfold get. rewrite Hg, Hfresh. simpl.
  set (e' := {| key := key e; value := value e; timestamp := timestamp e;
                ttl := ttl e; accessCount := S (accessCount e);
                lastAccessed := now |}).
  assert (Habs : map_has k (map_delete k (cache c)) = false)
    by apply CacheFacts.map_has_delete_same.
  assert (Hhas : map_has k (cache c) = true)
    by now rewrite CacheFacts.map_has_get, Hg.
  unfold keys, size. simpl.
  rewrite (CacheFacts.map_set_absent _ _ _ e' Habs).
  split; [|split; [|split]].
  - unfold map_keys. rewrite map_app. simpl. f_equal.
    apply CacheFacts.map_keys_delete.
  - unfold map_size. rewrite length_app. simpl.
    clear Habs e' Hg.
    unfold map_has, map_delete, keys, map_keys in *.
    induction (cache c) as [|[k1 e1] m IH]; simpl in *; [discriminate|].
    inversion Hnd as [|? ? Hni Hnd']; subst.
    destruct (eqs k1 k) eqn:E; simpl.
    + apply eqs_iff in E. subst k1.
      assert (Hm : map_has k m = false)
        by (apply CacheFacts.map_has_not_in; exact Hni).
      pose proof (CacheFacts.map_delete_absent _ m k Hm) as Hd.
      unfold map_delete in Hd. rewrite Hd. lia.
    + simpl in Hhas. rewrite (IH Hnd' Hhas). reflexivity.
  - rewrite <- (CacheFacts.map_set_absent _ _ _ e' Habs).
    apply CacheFacts.map_get_set_same.
  - intros k'. destruct (eqs k' k) eqn:E.
    + apply eqs_iff in E. now subst.
    + assert (Hne : k' <> k) by (intros ->; now rewrite eqs_refl in E).
      rewrite (map_get_snoc_other _ _ _ _ e' Hne).
      apply CacheFacts.map_get_delete_other. exact Hne.
Qed.

(** Every [get] counts once, as a hit or as a miss, and nothing else
    counts: along a run without [clear] the two counters grow, together, by
    the number of [get] calls. *)
Theorem counters_count_gets c (ops : list (op T)) :
  no_clear ops = true ->
  (hits (run c ops) + misses (run c ops)
   = hits c + misses c + count_gets ops)%nat.
Proof.
  revert c. induction ops as [|o ops IH]; intros c Hnc; simpl.
  - unfold count_gets. simpl. lia.
  - unfold no_clear in Hnc. simpl in Hnc.
    apply andb_true_iff in Hnc as [Ho Hops].
    change (fold_left (step (T:=T)) ops (step c o)) with (run (step c o) ops).
    rewrite (IH (step c o) Hops). unfold count_gets. simpl.
    destruct o as [now k|now k v ttl|now k|k| |now|now k newTTL]; simpl.
    + unfold get. destruct (map_get k (cache c)) as [e|];
        [destruct (expired now e)|]; simpl; lia.
    + lia.
    + unfold has. destruct (map_get k (cache c)) as [e|];
        [destruct (expired now e)|]; simpl; lia.
    + lia.
    + discriminate Ho.
    + lia.
    + unfold updateTTL. destruct (map_get k (cache c)); simpl; lia.
Qed.

(** [updateTTL(key, newTTL)] restarts the clock of a stored entry: its value
    and its place in the recency order stay, and a [get] within [newTTL] of
    the update returns its value, whatever its age was before. *)
Theorem updateTTL_restarts_clock c k now newTTL t (e : CacheEntry T) :
  map_get k (cache c) = Some e ->
  (t - now <= newTTL)%Z ->
  fst (updateTTL now k newTTL c) = true
  /\ keys (snd (updateTTL now k newTTL c)) = keys c
  /\ fst (get t k (snd (updateTTL now k newTTL c))) = Some (value e)
  /\ hits (snd (updateTTL now k newTTL c)) = hits c
  /\ misses (snd (updateTTL now k newTTL c)) = misses c.
Proof.
  intros Hg Ht. unfold updateTTL. rewrite Hg. simpl.
  assert (Hhas : map_has k (cache c) = true)
    by now rewrite CacheFacts.map_has_get, Hg.
  split; [reflexivity|].
  split; [unfold keys; simpl;
          now apply CacheFacts.map_keys_set_present|].
  split; [|split; reflexivity].
  unfold get. simpl. rewrite CacheFacts.map_get_set_same.
  unfold expired. simpl.
  destruct (t - now >? newTTL)%Z eqn:E; [|reflexivity].
  apply Z.gtb_lt in E. lia.
Qed.

(** [updateTTL] on a key that is not stored reports [false] and changes
    nothing; no expiry check is made on a stored one. *)
Lemma updateTTL_absent c k now newTTL :
  map_get k (cache c) = None -> updateTTL now k newTTL c = (false, c).
Proof. intros H. unfold updateTTL. now rewrite H. Qed.

(** Writing a key that is already stored replaces its entry: the key now
    holds the new value with a fresh timestamp, the given or default TTL
    and an access count of 1.  The key becomes the most recently used one;
    every other key keeps its entry and its place, no key is lost or added
    and the size stays, also when the cache is full. *)
Theorem set_overwrites c k (v : T) ttl now :
  NoDup (keys c) ->
  map_has k (cache c) = true ->
  map_get k (cache (set now k v ttl c))
  = Some {| key := k; value := v; timestamp := now;
            ttl := actualTTL c ttl; accessCount := 1;
            lastAccessed := now |}
  /\ (forall k', k' <> k ->
                 map_get k' (cache (set now k v ttl c))
                 = map_get k' (cache c))
  /\ keys (set now k v ttl c)
     = filter (fun k' => negb (eqs k' k)) (keys c) ++ [k]
  /\ size (set now k v ttl c) = size c
  /\ (forall k', map_has k' (cache (set now k v ttl c))
                 = map_has k' (cache c)).
Proof.
  intros Hnd Hhas.
  split; [apply CacheFacts.get_entry_after_set|].
  set (e := {| key := k; value := v; timestamp := now;
               ttl := actualTTL c ttl; accessCount := 1;
               lastAccessed := now |}).
  assert (Hc : cache (set now k v ttl c)
               = map_delete k (cache c) ++ [(k, e)]).
  { unfold set. simpl. rewrite Hhas. simpl. rewrite andb_false_r, Hhas.
    apply (CacheFacts.map_set_absent _ _ _ e
             (CacheFacts.map_has_delete_same _ (cache c) k)). }
  split.
  { intros k' Hne. rewrite Hc.
    rewrite (map_get_snoc_other _ _ k k' e Hne).
    now apply CacheFacts.map_get_delete_other. }
  unfold keys, size. rewrite Hc.
  assert (Hk : map_keys (map_delete k (cache c) ++ [(k, e)])
               = filter (fun k' => negb (eqs k' k)) (map_keys (cache c))
                 ++ [k]).
  { unfold map_keys at 1. rewrite map_app. simpl. f_equal.
    apply CacheFacts.map_keys_delete. }
  split; [exact Hk|]. split.
  - unfold map_size. rewrite length_app. simpl.
    pose proof (CacheFacts.map_size_delete_lt _ _ _ Hhas) as Hlt.
    assert (Hge : (map_size (cache c)
                   <= S (map_size (map_delete k (cache c))))%nat).
    { clear e Hc Hk Hlt. unfold map_size, map_delete, keys, map_keys in *.
      induction (cache c) as [|[k1 e1] m IH]; simpl; [lia|].
      inversion Hnd as [|? ? Hni Hnd']; subst.
      destruct (eqs k1 k) eqn:E; simpl.
      - apply eqs_iff in E. subst k1.
        assert (Hm : map_has k m = false)
          by (apply CacheFacts.map_has_not_in; exact Hni).
        pose proof (CacheFacts.map_delete_absent _ m k Hm) as Hd.
        unfold map_delete in Hd. rewrite Hd. lia.
      - unfold map_has in Hhas. simpl in Hhas. rewrite E in Hhas.
        simpl in Hhas. specialize (IH Hnd' Hhas). lia. }
    unfold map_size in *. lia.
  - intros k'.
    destruct (map_has k' (cache c)) eqn:Hk'.
    + apply CacheFacts.map_has_in. rewrite Hk.
      apply in_or_app. destruct (eqs k' k) eqn:E.
      * right. apply eqs_iff in E. subst. now left.
      * left. apply filter_In. split; [|now rewrite E].
        now apply CacheFacts.map_has_in.
    + apply CacheFacts.map_has_not_in. rewrite Hk.
      intros Hin. apply in_app_or in Hin as [Hin|[<-|[]]].
      * apply filter_In in Hin as [Hin _].
        apply CacheFacts.map_has_in in Hin. congruence.
      * congruence.
Qed.

End Probes.

(** *** Concrete runs *)

Lemma NoDup_ab : NoDup [js "a"; js "b"].
Proof.
  constructor; [intros [H|[]]; discriminate H|].
  constructor; [intros []|constructor].
Qed.

Lemma run_within_capacity_witness :
  let ops := [@OpSet nat 0 (js "a") 1%nat None;
              @OpSet nat 1 (js "b") 2%nat None;
              @OpGet nat 2 (js "a");
              @OpSet nat 3 (js "c") 3%nat None;
              @OpCleanup nat 2000] in
  (1 <= 2)%Z
  /\ Forall (fun k => truthy k = true) (set_keys ops)
  /\ (Z.of_nat (size (run (create nat 2 1000) ops)) <= 2)%Z.
Proof.
  cbv zeta.
  assert (H1 : (1 <= 2)%Z) by lia.
  assert (H2 : Forall (fun k => truthy k = true)
                      (set_keys [@OpSet nat 0 (js "a") 1%nat None;
                                 @OpSet nat 1 (js "b") 2%nat None;
                                 @OpGet nat 2 (js "a");
                                 @OpSet nat 3 (js "c") 3%nat None;
                                 @OpCleanup nat 2000]))
    by (repeat constructor).
  split; [exact H1|]. split; [exact H2|].
  exact (CacheFacts.run_within_capacity nat 2 1000 _ H1 H2).
Defined.

Lemma set_full_evicts_first_witness :
  let c := run (create nat 2 1000)
               [@OpSet nat 0 (js "a") 1%nat None;
                @OpSet nat 1 (js "b") 2%nat None] in
  NoDup (keys c) /\ truthy (js "a") = true
  /\ (Z.of_nat (size c) >= maxSize c)%Z
  /\ map_has (js "c") (cache c) = false
  /\ keys (set 3 (js "c") 3%nat None c) = [js "b"; js "c"].
Proof.
  cbv zeta.
  set (c := run (create nat 2 1000)
                [@OpSet nat 0 (js "a") 1%nat None;
                 @OpSet nat 1 (js "b") 2%nat None]).
  assert (Hnd : NoDup (keys c)) by exact NoDup_ab.
  assert (Hk : truthy (js "a") = true) by reflexivity.
  assert (Hfull : (Z.of_nat (size c) >= maxSize c)%Z)
    by (vm_compute; discriminate).
  assert (Hnew : map_has (js "c") (cache c) = false) by reflexivity.
  repeat (split; [assumption|]).
  unfold keys.
  rewrite (CacheFacts.set_full_evicts_first nat c (js "c") 3%nat None 3
             (js "a") _ _ eq_refl Hnd Hk Hfull Hnew).
  reflexivity.
Defined.

Lemma get_hit_promotes_witness :
  let c := run (create nat 2 1000)
               [@OpSet nat 0 (js "a") 1%nat None;
                @OpSet nat 1 (js "b") 2%nat None] in
  NoDup (keys c)
  /\ keys (snd (get 2 (js "a") c)) = [js "b"; js "a"]
  /\ size (snd (get 2 (js "a") c)) = 2%nat.
Proof.
  cbv zeta.
  set (c := run (create nat 2 1000)
                [@OpSet nat 0 (js "a") 1%nat None;
                 @OpSet nat 1 (js "b") 2%nat None]).
  assert (Hnd : NoDup (keys c)) by exact NoDup_ab.
  split; [exact Hnd|].
  destruct (get_hit_promotes nat c (js "a") 2 _ Hnd eq_refl eq_refl)
    as (A & B & _).
  split; [rewrite A; reflexivity|rewrite B; reflexivity].
Defined.

Lemma counters_count_gets_witness :
  let ops := [@OpSet nat 0 (js "a") 1%nat None; @OpGet nat 1 (js "a");
              @OpHas nat 1 (js "a"); @OpGet nat 2 (js "zz");
              @OpDelete nat (js "a"); @OpGet nat 3 (js "a")] in
  no_clear ops = true
  /\ (hits (run (create nat 2 1000) ops)
      + misses (run (create nat 2 1000) ops) = 3)%nat.
Proof.
  cbv zeta. split; [reflexivity|].
  exact (counters_count_gets nat (create nat 2 1000)
           [@OpSet nat 0 (js "a") 1%nat None; @OpGet nat 1 (js "a");
            @OpHas nat 1 (js "a"); @OpGet nat 2 (js "zz");
            @OpDelete nat (js "a"); @OpGet nat 3 (js "a")] eq_refl).
Defined.

Lemma updateTTL_restarts_clock_witness :
  let c := set 0 (js "a") 7%nat (Some 10%Z) (create nat 2 1000) in
  (expired 500 {| key := js "a"; value := 7%nat; timestamp := 0; ttl := 10;
                  accessCount := 1; lastAccessed := 0 |} = true)
  /\ (600 - 500 <= 100)%Z
  /\ fst (get 600 (js "a") (snd (updateTTL 500 (js "a") 100 c)))
     = Some 7%nat.
Proof.
  cbv zeta. split; [reflexivity|].
  assert (Ht : (600 - 500 <= 100)%Z) by lia.
  split; [exact Ht|].
  destruct (updateTTL_restarts_clock nat
              (set 0 (js "a") 7%nat (Some 10%Z) (create nat 2 1000))
              (js "a") 500 100 600 _ eq_refl Ht) as (_ & _ & A & _).
  exact A.
Defined.

Lemma set_overwrites_witness :
  let c := run (create nat 2 1000)
               [@OpSet nat 0 (js "a") 1%nat None;
                @OpSet nat 1 (js "b") 2%nat None] in
  NoDup (keys c) /\ map_has (js "a") (cache c) = true
  /\ option_map (fun e => (value e, timestamp e, accessCount e))
                (map_get (js "a") (cache (set 2 (js "a") 9%nat None c)))
     = Some (9%nat, 2%Z, 1%nat)
  /\ option_map (@value nat)
                (map_get (js "b") (cache (set 2 (js "a") 9%nat None c)))
     = Some 2%nat
  /\ keys (set 2 (js "a") 9%nat None c) = [js "b"; js "a"]
  /\ size (set 2 (js "a") 9%nat None c) = 2%nat.
Proof.
  cbv zeta.
  set (c := run (create nat 2 1000)
                [@OpSet nat 0 (js "a") 1%nat None;
                 @OpSet nat 1 (js "b") 2%nat None]).
  assert (Hnd : NoDup (keys c)) by exact NoDup_ab.
  split; [exact Hnd|]. split; [reflexivity|].
  destruct (set_overwrites nat c (js "a") 9%nat None 2 Hnd eq_refl)
    as (A & B & C & D & _).
  split; [rewrite A; reflexivity|].
  split; [rewrite (B (js "b")); [reflexivity|discriminate]|].
  split; [rewrite C; reflexivity|rewrite D; reflexivity].
Defined.

Lemma cleanup_sweeps_witness :
  let c := run (create nat 2 1000)
               [@OpSet nat 0 (js "a") 1%nat None;
                @OpSet nat 1500 (js "b") 2%nat None] in
  NoDup (keys c)
  /\ fst (cleanup 2000 c) = 1%nat
  /\ map_get (js "a") (cache (snd (cleanup 2000 c))) = None
  /\ option_map (@value nat)
                (map_get (js "b") (cache (snd (cleanup 2000 c))))
     = Some 2%nat.
Proof.
  cbv zeta.
  set (c := run (create nat 2 1000)
                [@OpSet nat 0 (js "a") 1%nat None;
                 @OpSet nat 1500 (js "b") 2%nat None]).
  assert (Hnd : NoDup (keys c)) by exact NoDup_ab.
  split; [exact Hnd|]. split; [reflexivity|].
  destruct (cleanup_sweeps nat c 2000) as (_ & Kept & Dropped & _).
  split.
  - exact (Dropped Hnd (js "a") _ eq_refl eq_refl).
  - rewrite (Kept (js "b") _ eq_refl eq_refl). reflexivity.
Defined.

End CacheMore.

(** ** Cache keys *)

Module CacheKeyFacts.
Import CacheKey.

Lemma b64_encode_app (n : nat) : forall a b : list N,
  List.length a = (3 * n)%nat ->
  b64_encode (a ++ b) = b64_encode a ++ b64_encode b
  /\ List.length (b64_encode a) = (4 * n)%nat.
Proof.
  induction n as [|n IH]; intros a b Hlen.
  - destruct a; [split; reflexivity|discriminate].
  - destruct a as [|x [|y [|z a]]]; try (simpl in Hlen; lia).
    assert (Ha : List.length a = (3 * n)%nat) by (simpl in Hlen; lia).
    destruct (IH a b Ha) as [E L].
    change (b64_encode ((x :: y :: z :: a) ++ b))
      with (b64_char (x / 4) :: b64_char ((x mod 4) * 16 + y / 16)
            :: b64_char ((y mod 16) * 4 + z / 64) :: b64_char (z mod 64)
            :: b64_encode (a ++ b)).
    change (b64_encode (x :: y :: z :: a))
      with (b64_char (x / 4) :: b64_char ((x mod 4) * 16 + y / 16)
            :: b64_char ((y mod 16) * 4 + z / 64) :: b64_char (z mod 64)
            :: b64_encode a).
    rewrite E. split; [reflexivity|]. simpl List.length. lia.
Qed.

Lemma plain_spec (c : N) :
  plain c = true ->
  (32 <= c /\ c <= 255 /\ c <> 34 /\ c <> 92)%N.
Proof.
  unfold plain. rewrite !andb_true_iff, !negb_true_iff.
  intros [[[H1 H2] H3] H4].
  apply N.leb_le in H1, H2. apply N.eqb_neq in H3, H4. auto.
Qed.

Lemma quote_body_copies (c : N) (s : jsstring) :
  (32 <= c)%N -> c <> 34%N -> c <> 92%N ->
  is_high_surrogate c = false -> is_low_surrogate c = false ->
  quote_body (c :: s) = c :: quote_body s.
Proof.
  intros H32 H34 H92 Hh Hl. cbn [quote_body]. rewrite Hh, Hl.
  replace (c =? 8)%N with false by (symmetry; apply N.eqb_neq; lia).
  replace (c =? 9)%N with false by (symmetry; apply N.eqb_neq; lia).
  replace (c =? 10)%N with false by (symmetry; apply N.eqb_neq; lia).
  replace (c =? 12)%N with false by (symmetry; apply N.eqb_neq; lia).
  replace (c =? 13)%N with false by (symmetry; apply N.eqb_neq; lia).
  replace (c =? 34)%N with false by (symmetry; apply N.eqb_neq; lia).
  replace (c =? 92)%N with false by (symmetry; apply N.eqb_neq; lia).
  replace (c <? 32)%N with false by (symmetry; apply N.ltb_ge; lia).
  reflexivity.
Qed.

Lemma latin1_not_surrogate (c : N) :
  (c <= 255)%N -> is_high_surrogate c = false /\ is_low_surrogate c = false.
Proof.
  intros H. unfold is_high_surrogate, is_low_surrogate, in_range.
  split; apply andb_false_iff; left; apply N.leb_gt; lia.
Qed.

Lemma quote_body_plain_app (a b : jsstring) :
  forallb plain a = true -> quote_body (a ++ b) = a ++ quote_body b.
Proof.
  induction a as [|c a IH]; intros H; [reflexivity|].
  simpl in H. apply andb_true_iff in H as [Hc Ha].
  apply plain_spec in Hc as (H32 & H255 & H34 & H92).
  destruct (latin1_not_surrogate c H255) as [Hh Hl].
  change ((c :: a) ++ b) with (c :: (a ++ b)).
  rewrite (quote_body_copies c (a ++ b) H32 H34 H92 Hh Hl).
  now rewrite (IH Ha).
Qed.

(** The first 24 characters of the JSON text, for a prompt that starts
    with 13 plain characters. *)
Lemma stringify_data_head prompt domain options_json :
  (13 <= List.length prompt)%nat ->
  forallb plain (firstn 13 prompt) = true ->
  exists tail,
    stringify_data prompt domain options_json
    = (js "{" ++ json_quote (js "prompt") ++ js ":" ++ [34%N]
       ++ firstn 13 prompt) ++ tail.
Proof.
  intros Hlen Hplain. unfold stringify_data, json_quote.
  assert (E : quote_body prompt
              = firstn 13 prompt ++ quote_body (skipn 13 prompt)).
  { rewrite <- (quote_body_plain_app _ _ Hplain).
    now rewrite firstn_skipn. }
  rewrite E. eexists. rewrite <- !app_assoc. reflexivity.
Qed.

(** The key is the base64 text of the first 24 characters of the JSON
    text: the 11 that open the object and the [prompt] property, and the
    first 13 of the prompt.  Two
    requests whose prompts start with the same 13 plain characters get the
    same key, whatever the rest of the prompts, the domains and the
    options. *)
Theorem cache_key_reads_13_characters
        p1 p2 d1 d2 o1 o2 (k1 k2 : jsstring) :
  (13 <= List.length p1)%nat ->
  firstn 13 p2 = firstn 13 p1 ->
  forallb plain (firstn 13 p1) = true ->
  generateCacheKey p1 d1 o1 = Some k1 ->
  generateCacheKey p2 d2 o2 = Some k2 ->
  k1 = k2.
Proof.
  intros Hlen Heq Hplain Hk1 Hk2.
  assert (Hlen2 : (13 <= List.length p2)%nat).
  { assert (E : List.length (firstn 13 p2) = 13%nat)
      by (rewrite Heq, length_firstn; lia).
    rewrite length_firstn in E. lia. }
  assert (Hkey : forall p d o k,
             (13 <= List.length p)%nat ->
             forallb plain (firstn 13 p) = true ->
             generateCacheKey p d o = Some k ->
             k = b64_encode (js "{" ++ json_quote (js "prompt") ++ js ":"
                             ++ [34%N] ++ firstn 13 p)).
  { clear. intros p d o k Hlen Hplain Hk.
    destruct (stringify_data_head p d o Hlen Hplain) as [tail E].
    set (head := js "{" ++ json_quote (js "prompt") ++ js ":" ++ [34%N]
                 ++ firstn 13 p) in *.
    assert (Hh : List.length head = (3 * 8)%nat).
    { subst head. rewrite !length_app, length_firstn.
      change (List.length (js "{")) with 1%nat.
      change (List.length (json_quote (js "prompt"))) with 8%nat.
      change (List.length (js ":")) with 1%nat. simpl List.length. lia. }
    clearbody head.
    unfold generateCacheKey, btoa in Hk. rewrite E in Hk.
    destruct (forallb (fun c => (c <=? 255)%N) (head ++ tail));
      [|discriminate].
    assert (Hk' : k = slice0 (b64_encode (head ++ tail)) 32)
      by congruence.
    rewrite Hk'.
    destruct (b64_encode_app 8 head tail Hh) as [Eapp L].
    rewrite Eapp. unfold slice0.
    rewrite firstn_app, L. change (32 - 4 * 8)%nat with 0%nat.
    rewrite firstn_O, app_nil_r. apply firstn_all2. lia. }
  rewrite (Hkey p1 d1 o1 k1 Hlen Hplain Hk1).
  rewrite <- Heq in Hplain.
  rewrite (Hkey p2 d2 o2 k2 Hlen2 Hplain Hk2).
  now rewrite Heq.
Qed.

Lemma cache_key_reads_13_characters_witness :
  let p1 := js "Create a React component for login" in
  let p2 := js "Create a React hook" in
  (13 <= List.length p1)%nat
  /\ firstn 13 p2 = firstn 13 p1
  /\ forallb plain (firstn 13 p1) = true
  /\ generateCacheKey p1 None (Some (js "{}"))
     = Some (js "eyJwcm9tcHQiOiJDcmVhdGUgYSBSZWFj")
  /\ generateCacheKey p2 (Some (js "code")) None
     = Some (js "eyJwcm9tcHQiOiJDcmVhdGUgYSBSZWFj")
  /\ js "eyJwcm9tcHQiOiJDcmVhdGUgYSBSZWFj"
     = js "eyJwcm9tcHQiOiJDcmVhdGUgYSBSZWFj".
Proof.
  cbv zeta.
  assert (H1 : (13 <= List.length
                        (js "Create a React component for login"))%nat)
    by (vm_compute; lia).
  assert (H2 : firstn 13 (js "Create a React hook")
               = firstn 13 (js "Create a React component for login"))
    by reflexivity.
  assert (H3 : forallb plain
                 (firstn 13 (js "Create a React component for login"))
               = true) by reflexivity.
  assert (H4 : generateCacheKey (js "Create a React component for login")
                 None (Some (js "{}"))
               = Some (js "eyJwcm9tcHQiOiJDcmVhdGUgYSBSZWFj"))
    by reflexivity.
  assert (H5 : generateCacheKey (js "Create a React hook")
                 (Some (js "code")) None
               = Some (js "eyJwcm9tcHQiOiJDcmVhdGUgYSBSZWFj"))
    by reflexivity.
  repeat (split; [assumption|]).
  exact (cache_key_reads_13_characters _ _ _ _ _ _ _ _ H1 H2 H3 H4 H5).
Defined.

Lemma quote_body_keeps (c : N) :
  (255 < c)%N ->
  is_high_surrogate c = false -> is_low_surrogate c = false ->
  forall (n : nat) (s : jsstring),
    (List.length s <= n)%nat -> In c s -> In c (quote_body s).
Proof.
  intros Hc Hh Hl. induction n as [|n IH]; intros s Hlen Hin.
  - destruct s; [destruct Hin|simpl in Hlen; lia].
  - destruct s as [|x s]; [destruct Hin|].
    simpl in Hlen.
    destruct (N.eq_dec x c) as [->|Hne].
    + rewrite quote_body_copies; try assumption; try lia. now left.
    + assert (Hs : In c s) by (destruct Hin; [congruence|assumption]).
      assert (Hrec : In c (quote_body s)) by (apply IH; [lia|exact Hs]).
      cbn [quote_body].
      repeat match goal with
             | |- context [if ?b then _ else _] =>
                 lazymatch b with
                 | is_low_surrogate ?d => fail
                 | _ => destruct b
                 end; try (apply in_or_app; right; exact Hrec)
             end.
      * (* a high surrogate *)
        destruct s as [|d s']; [destruct Hs|].
        destruct (is_low_surrogate d) eqn:Hd.
        -- right. right. apply IH; [simpl in Hlen; lia|].
           destruct Hs as [->|Hs]; [congruence|exact Hs].
        -- apply in_or_app. right. exact Hrec.
      * destruct (is_low_surrogate x);
          [apply in_or_app; right; exact Hrec|right; exact Hrec].
Qed.

(** [btoa] accepts Latin-1 only: a prompt holding a code unit above 255
    that is not a surrogate (a bullet, a dash, any non-Latin letter) makes
    [generateCacheKey] throw. *)
Theorem cache_key_throws_outside_latin1
        (c : N) prompt domain options_json :
  In c prompt ->
  (255 < c)%N ->
  is_high_surrogate c = false ->
  is_low_surrogate c = false ->
  generateCacheKey prompt domain options_json = None.
Proof.
  intros Hin Hc Hh Hl.
  assert (Hq : In c (quote_body prompt))
    by (apply (quote_body_keeps c Hc Hh Hl (List.length prompt));
        [lia|exact Hin]).
  unfold generateCacheKey, btoa.
  destruct (forallb (fun c0 => (c0 <=? 255)%N)
                    (stringify_data prompt domain options_json)) eqn:E;
    [|reflexivity].
  exfalso. rewrite forallb_forall in E.
  assert (Hle : (c <=? 255)%N = true).
  { apply E. unfold stringify_data, json_quote.
    apply in_or_app. right. apply in_or_app. right.
    apply in_or_app. right. apply in_or_app. left.
    apply in_or_app. right. apply in_or_app. left. exact Hq. }
  apply N.leb_le in Hle. lia.
Qed.

Lemma cache_key_throws_outside_latin1_witness :
  In 8226%N (js "List: " ++ [8226%N] ++ js " item")
  /\ (255 < 8226)%N
  /\ is_high_surrogate 8226 = false
  /\ is_low_surrogate 8226 = false
  /\ generateCacheKey (js "List: " ++ [8226%N] ++ js " item") None None
     = None.
Proof.
  assert (H1 : In 8226%N (js "List: " ++ [8226%N] ++ js " item"))
    by (apply in_or_app; right; now left).
  assert (H2 : (255 < 8226)%N) by reflexivity.
  split; [exact H1|]. split; [exact H2|].
  split; [reflexivity|]. split; [reflexivity|].
  exact (cache_key_throws_outside_latin1 8226 _ None None H1 H2
           eq_refl eq_refl).
Defined.

End CacheKeyFacts.

(** ** Searching and replacing *)

Module RegexFacts.

Section Search.
Variable s : jsstring.
Variable ic : bool.

(** [search] returns the first index, from [i] on, at which the pattern
    matches. *)
Lemma search_some (r : regex) : forall n i b e cs,
  search s ic r n i = Some (b, e, cs) ->
  (i <= b <= i + n)%nat
  /\ match_at s ic r b = Some (e, cs)
  /\ forall j, (i <= j < b)%nat -> match_at s ic r j = None.
Proof.
  induction n as [|n IH]; intros i b e cs H; simpl in H.
  - destruct (match_at s ic r i) as [[j cs']|] eqn:E; [|discriminate].
    injection H as <- <- <-.
    split; [lia|]. split; [exact E|]. intros j0 Hj. lia.
  - destruct (match_at s ic r i) as [[j cs']|] eqn:E.
    + injection H as <- <- <-.
      split; [lia|]. split; [exact E|]. intros j0 Hj. lia.
    + apply IH in H as (Hb & Hm & Hnone).
      split; [lia|]. split; [exact Hm|].
      intros j0 Hj. destruct (Nat.eq_dec j0 i) as [->|Hne]; [exact E|].
      apply Hnone. lia.
Qed.

Lemma search_none (r : regex) : forall n i,
  search s ic r n i = None ->
  forall j, (i <= j <= i + n)%nat -> match_at s ic r j = None.
Proof.
  induction n as [|n IH]; intros i H j Hj; simpl in H.
  - destruct (match_at s ic r i) as [[j' cs']|] eqn:E; [discriminate|].
    replace j with i by lia. exact E.
  - destruct (match_at s ic r i) as [[j' cs']|] eqn:E; [discriminate|].
    destruct (Nat.eq_dec j i) as [->|Hne]; [exact E|].
    apply (IH (S i) H). lia.
Qed.

(** A match somewhere in the range is found, possibly an earlier one. *)
Lemma search_finds (r : regex) : forall n i b x,
  match_at s ic r b = Some x -> (i <= b <= i + n)%nat ->
  search s ic r n i <> None.
Proof.
  intros n i b x Hm Hb Hnone.
  rewrite (search_none r n i Hnone b Hb) in Hm. discriminate.
Qed.

Lemma match_at_class (rs : list (N * N)) (i : nat) :
  match_at s ic (Cls rs) i
  = match nth_error s i with
    | Some c => if in_class ic rs c then Some (S i, []) else None
    | None => None
    end.
Proof. reflexivity. Qed.

Lemma skipn_cons_nth (i : nat) (c : N) :
  nth_error s i = Some c -> skipn i s = c :: skipn (S i) s.
Proof.
  revert i. induction s as [|x l IH]; intros [|i] H; simpl in *;
    try discriminate.
  - now injection H as ->.
  - now apply IH.
Qed.

Lemma skipn_split (i b : nat) :
  (i <= b)%nat -> skipn i s = substring s i b ++ skipn b s.
Proof.
  intros H. unfold substring.
  replace b with ((b - i) + i)%nat at 2 by lia.
  rewrite <- skipn_skipn. symmetry. apply firstn_skipn.
Qed.

(** No element of [s] at the indexes [i .. b-1] satisfies [p]. *)
Lemma filter_substring_none (p : N -> bool) (i b : nat) :
  (b <= List.length s)%nat ->
  (forall j c, (i <= j < b)%nat -> nth_error s j = Some c -> p c = false) ->
  filter (fun c => negb (p c)) (substring s i b) = substring s i b.
Proof.
  intros Hb H. unfold substring.
  destruct (Nat.le_gt_cases b i) as [Hle|Hlt].
  { replace (b - i)%nat with 0%nat by lia. reflexivity. }
  remember (b - i)%nat as n eqn:En.
  assert (Hn : (i + n <= b)%nat) by lia. clear En Hlt.
  revert i Hn H. induction n as [|n IH]; intros i Hn H; [reflexivity|].
  destruct (nth_error s i) as [c|] eqn:E.
  - rewrite (skipn_cons_nth i c E). cbn [firstn filter].
    rewrite (H i c ltac:(lia) E). cbn [negb]. f_equal.
    apply IH; [lia|]. intros j d Hj. apply H. lia.
  - apply nth_error_None in E. lia.
Qed.

(** Replacing every match of a one-character class keeps the characters
    outside the class and maps [f] over the others. *)
Lemma splice_class (rs : list (N * N)) (f : jsstring -> jsstring) :
  forall fuel i,
    (i <= List.length s)%nat -> (List.length s - i < fuel)%nat ->
    Utils.splice s (match_all_from s ic (Cls rs) fuel i) i f
    = flat_map (fun c => if in_class ic rs c then f [c] else [c])
               (skipn i s).
Proof.
  induction fuel as [|fuel IH]; intros i Hi Hfuel; [lia|].
  cbn [match_all_from]. unfold exec_from.
  replace (List.length s <? i)%nat with false
    by (symmetry; apply Nat.ltb_ge; lia).
  destruct (search s ic (Cls rs) (List.length s - i) i)
    as [[[b e] cs]|] eqn:Hs.
  - apply search_some in Hs as (Hb & Hm & Hnone).
    rewrite match_at_class in Hm.
    destruct (nth_error s b) as [c|] eqn:Hc; [|discriminate].
    destruct (in_class ic rs c) eqn:Hin; [|discriminate].
    injection Hm as <- <-.
    assert (Hlt : (b < List.length s)%nat)
      by (apply nth_error_Some; congruence).
    replace (Nat.eqb (S b) b) with false
      by (symmetry; apply Nat.eqb_neq; lia).
    cbn [Utils.splice].
    rewrite (IH (S b) ltac:(lia) ltac:(lia)).
    rewrite (skipn_split i b ltac:(lia)), flat_map_app.
    rewrite (skipn_cons_nth b c Hc). cbn [flat_map]. rewrite Hin.
    assert (Hsub : substring s b (S b) = [c]).
    { unfold substring. replace (S b - b)%nat with 1%nat by lia.
      now rewrite (skipn_cons_nth b c Hc). }
    rewrite Hsub. f_equal.
    assert (Hkeep : forall l : jsstring,
               Forall (fun d => in_class ic rs d = false) l ->
               flat_map (fun d => if in_class ic rs d then f [d] else [d]) l
               = l).
    { induction l as [|d l IHl]; intros Hl; [reflexivity|].
      inversion Hl as [|? ? Hd Hl']; subst. simpl. rewrite Hd.
      simpl. f_equal. now apply IHl. }
    symmetry. apply Hkeep.
    rewrite <- (filter_substring_none (in_class ic rs) i b ltac:(lia)).
    + apply Forall_forall. intros d Hd.
      apply filter_In in Hd as [_ Hd]. now apply negb_true_iff in Hd.
    + intros j d Hj Hd. specialize (Hnone j Hj).
      rewrite match_at_class, Hd in Hnone.
      now destruct (in_class ic rs d).
  - cbn [Utils.splice].
    assert (Hall : forall j c, (i <= j < List.length s)%nat ->
                               nth_error s j = Some c ->
                               in_class ic rs c = false).
    { intros j c Hj Hc.
      pose proof (search_none _ _ _ Hs j ltac:(lia)) as Hn.
      rewrite match_at_class, Hc in Hn.
      now destruct (in_class ic rs c). }
    pose proof (filter_substring_none (in_class ic rs) i (List.length s)
                  (le_n _) Hall) as Hf.
    assert (Hsk : substring s i (List.length s) = skipn i s).
    { unfold substring. apply firstn_all2. rewrite length_skipn. lia. }
    rewrite Hsk in Hf.
    assert (Hfa : Forall (fun d => in_class ic rs d = false) (skipn i s)).
    { rewrite <- Hf. apply Forall_forall. intros d Hd.
      apply filter_In in Hd as [_ Hd]. now apply negb_true_iff in Hd. }
    clear Hf Hsk Hall Hs.
    induction (skipn i s) as [|d l IHl]; [reflexivity|].
    inversion Hfa as [|? ? Hd Hl']; subst. simpl. rewrite Hd.
    simpl. f_equal. now apply IHl.
Qed.

End Search.

Lemma replace_all_class (g i : bool) (rs : list (N * N))
      (f : jsstring -> jsstring) (s : jsstring) :
  Utils.replace_all (mkRegExp (Cls rs) i g) f s
  = flat_map (fun c => if in_class i rs c then f [c] else [c]) s.
Proof.
  unfold Utils.replace_all. cbn [flag_i source].
  assert (H0 : (0 <= List.length s)%nat) by lia.
  assert (H1 : (List.length s - 0 < List.length s + 2)%nat) by lia.
  exact (splice_class s i rs f (List.length s + 2) 0 H0 H1).
Qed.

(** Whatever the matches, removing them only removes characters. *)
Lemma splice_remove_sub (P : N -> Prop) (s : jsstring) :
  Forall P s ->
  forall spans pos, Forall P (Utils.splice s spans pos (fun _ => [])).
Proof.
  intros Hs.
  assert (Hsk : forall n, Forall P (skipn n s)).
  { intros n. apply Forall_forall. intros x Hx. rewrite Forall_forall in Hs.
    apply Hs. rewrite <- (firstn_skipn n s). apply in_or_app. now right. }
  induction spans as [|[b e] rest IH]; intros pos; simpl.
  - apply Hsk.
  - apply Forall_app. split; [|apply IH].
    unfold substring. apply Forall_forall. intros x Hx.
    pose proof (Hsk pos) as Hp. rewrite Forall_forall in Hp. apply Hp.
    rewrite <- (firstn_skipn (b - pos) (skipn pos s)).
    apply in_or_app. now left.
Qed.

End RegexFacts.

(** ** Validation and formatting helpers *)

Module UtilsFacts.
Import Utils.

(** The five tags of [Domain] are exactly the strings [validateDomain]
    accepts. *)
Theorem validateDomain_accepts_the_five_tags :
  (forall d : Domain, validateDomain (domain_name d) = None)
  /\ (forall s : jsstring,
        validateDomain s = None -> exists d : Domain, s = domain_name d)
  /\ (forall s : jsstring,
        validateDomain s = None \/ validateDomain s = Some INVALID_DOMAIN).
Proof.
  split; [intros []; reflexivity|]. split.
  - intros s H. unfold validateDomain, list_includes in H. cbv zeta in H.
    destruct (existsb _ _) eqn:E; [|discriminate].
    apply existsb_exists in E as [x [Hin Hx]]. apply eqs_iff in Hx. subst x.
    simpl in Hin.
    destruct Hin as [<-|[<-|[<-|[<-|[<-|[]]]]]];
      [exists code|exists docs|exists data|exists product|exists research];
      reflexivity.
  - intros s. unfold validateDomain. cbv zeta.
    destruct (negb _); [right|left]; reflexivity.
Qed.

Lemma validateDomain_accepts_the_five_tags_witness :
  validateDomain (js "docs") = None
  /\ (exists d : Domain, js "docs" = domain_name d)
  /\ validateDomain (js "Docs") = Some INVALID_DOMAIN.
Proof.
  destruct validateDomain_accepts_the_five_tags as (A & B & _).
  split; [exact (A docs)|]. split; [exact (B (js "docs") (A docs))|].
  reflexivity.
Defined.

(** *** [trim] *)

Lemma drop_space_suffix (l : jsstring) :
  exists p, l = p ++ drop_space l.
Proof.
  induction l as [|c l [p IH]]; [exists []; reflexivity|].
  simpl. destruct (is_space c).
  - exists (c :: p). simpl. now f_equal.
  - exists []. reflexivity.
Qed.

Lemma drop_space_head (l : jsstring) :
  match drop_space l with c :: _ => is_space c = false | [] => True end.
Proof.
  induction l as [|c l IH]; [exact I|].
  simpl. destruct (is_space c) eqn:E; [exact IH|exact E].
Qed.

Lemma Forall_drop_space (P : N -> Prop) (l : jsstring) :
  Forall P l -> Forall P (drop_space l).
Proof.
  intros H. destruct (drop_space_suffix l) as [p E].
  rewrite E in H. now apply Forall_app in H as [_ H].
Qed.

Lemma Forall_trim (P : N -> Prop) (l : jsstring) :
  Forall P l -> Forall P (trim l).
Proof.
  intros H. unfold trim.
  apply Forall_rev, Forall_drop_space, Forall_rev, Forall_drop_space, H.
Qed.

Lemma trim_no_outer_space (l : jsstring) : no_outer_space (trim l).
Proof.
  unfold no_outer_space, trim. rewrite rev_involutive.
  split; [|apply drop_space_head].
  pose proof (drop_space_head l) as Hh.
  destruct (drop_space_suffix (rev (drop_space l))) as [p E].
  set (t := drop_space l) in *. set (u := drop_space (rev t)) in *.
  assert (Et : t = rev u ++ rev p).
  { rewrite <- (rev_involutive t), E. apply rev_app_distr. }
  destruct (rev u) as [|c ru] eqn:Eru; [exact I|].
  rewrite Et in Hh. exact Hh.
Qed.

(** [validateAndSanitize] rejects the empty input (TOO_SHORT) and the
    inputs longer than the limit (TOO_LONG), and nothing else; what it
    returns for an accepted input has no angle bracket and no white space
    at either end. *)
Theorem validateAndSanitize_result (input : jsstring) (maxLength : nat) :
  match validateAndSanitize input maxLength with
  | inl c =>
      c = (if Nat.eqb (List.length input) 0 then TOO_SHORT else TOO_LONG)
      /\ (List.length input = 0%nat \/ (maxLength < List.length input)%nat)
  | inr out =>
      (1 <= List.length input <= maxLength)%nat
      /\ out = sanitizeString input
      /\ no_angle_brackets out
      /\ no_outer_space out
  end.
Proof.
  unfold validateAndSanitize, Validation.validateInputDetailed, JS.length.
  destruct (Nat.ltb (List.length input) 1) eqn:E1.
  - apply Nat.ltb_lt in E1.
    replace (List.length input) with 0%nat by lia. split; [reflexivity|].
    now left.
  - apply Nat.ltb_ge in E1.
    destruct (Nat.ltb maxLength (List.length input)) eqn:E2.
    + apply Nat.ltb_lt in E2.
      replace (Nat.eqb (List.length input) 0) with false
        by (symmetry; apply Nat.eqb_neq; lia).
      split; [reflexivity|now right].
    + apply Nat.ltb_ge in E2. split; [lia|]. split; [reflexivity|].
      split; [|apply trim_no_outer_space].
      unfold sanitizeString, no_angle_brackets.
      apply Forall_trim.
      unfold replace_all at 1. apply RegexFacts.splice_remove_sub.
      unfold replace_all at 1. apply RegexFacts.splice_remove_sub.
      unfold rx_g, Patterns.chars. cbn [map list_ascii_of_string].
      rewrite RegexFacts.replace_all_class.
      apply Forall_forall. intros c Hc.
      apply in_flat_map in Hc as [d [_ Hd]].
      destruct (in_class false _ d) eqn:Hcls; [destruct Hd|].
      destruct Hd as [<-|[]].
      unfold in_class, in_range in Hcls. simpl in Hcls.
      rewrite !orb_false_r in Hcls.
      apply orb_false_iff in Hcls as [H60 H62].
      split; intros ->; [discriminate H60|discriminate H62].
Qed.

(** With a limit of at least 3, [truncateText] returns a text that fits:
    the text itself when it is short enough, otherwise its first
    [maxLength - 3] characters followed by three dots. *)
Theorem truncateText_fits (text : jsstring) (maxLength : Z) :
  (3 <= maxLength)%Z ->
  truncateText text maxLength
  = (if (Z.of_nat (List.length text) <=? maxLength)%Z then text
     else firstn (Z.to_nat (maxLength - 3)) text ++ js "...")
  /\ Z.of_nat (List.length (truncateText text maxLength))
     = Z.min (Z.of_nat (List.length text)) maxLength.
Proof.
  intros H3. unfold truncateText, slice_to.
  destruct (Z.of_nat (List.length text) <=? maxLength)%Z eqn:E.
  - rewrite orb_true_r. split; [reflexivity|].
    apply Z.leb_le in E. lia.
  - apply Z.leb_gt in E.
    assert (Ht : truthy text = true).
    { destruct text; [simpl in E; lia|reflexivity]. }
    rewrite Ht. simpl negb. simpl orb.
    replace (maxLength - 3 <? 0)%Z with false
      by (symmetry; apply Z.ltb_ge; lia).
    split; [reflexivity|].
    rewrite length_app, length_firstn.
    change (List.length (js "...")) with 3%nat. lia.
Qed.

Lemma truncateText_fits_witness :
  (3 <= 8)%Z
  /\ truncateText (js "structural thinking") 8 = js "struc..."
  /\ truncateText (js "short") 8 = js "short".
Proof.
  assert (H : (3 <= 8)%Z) by lia.
  split; [exact H|].
  destruct (truncateText_fits (js "structural thinking") 8 H) as [A _].
  destruct (truncateText_fits (js "short") 8 H) as [B _].
  split; [rewrite A; reflexivity|rewrite B; reflexivity].
Defined.

(** With a limit below 3 the end index [maxLength - 3] is negative and
    counts from the end of the text: a text longer than the limit comes back
    with at least three characters, [length + maxLength] of them when that
    is more, so longer than the limit asked for. *)
Theorem truncateText_small_limit (text : jsstring) (maxLength : Z) :
  (maxLength < 3)%Z ->
  (maxLength < Z.of_nat (List.length text))%Z ->
  text <> [] ->
  Z.of_nat (List.length (truncateText text maxLength))
  = Z.max (Z.of_nat (List.length text) + maxLength) 3
  /\ (maxLength < Z.of_nat (List.length (truncateText text maxLength)))%Z.
Proof.
  intros H3 Hlen Hne. unfold truncateText, slice_to.
  assert (Ht : truthy text = true)
    by (destruct text; [congruence|reflexivity]).
  rewrite Ht. simpl negb. simpl orb.
  replace (Z.of_nat (List.length text) <=? maxLength)%Z with false
    by (symmetry; apply Z.leb_gt; lia).
  replace (maxLength - 3 <? 0)%Z with true
    by (symmetry; apply Z.ltb_lt; lia).
  rewrite length_app, length_firstn.
  change (List.length (js "...")) with 3%nat. lia.
Qed.

Lemma truncateText_small_limit_witness :
  (2 < 3)%Z /\ (2 < Z.of_nat (List.length (js "abcdefghij")))%Z
  /\ js "abcdefghij" <> []
  /\ truncateText (js "abcdefghij") 2 = js "abcdefghi..."
  /\ Z.of_nat (List.length (truncateText (js "abcdefghij") 2)) = 12%Z.
Proof.
  assert (H1 : (2 < 3)%Z) by lia.
  assert (H2 : (2 < Z.of_nat (List.length (js "abcdefghij")))%Z)
    by (vm_compute; reflexivity).
  assert (H3 : js "abcdefghij" <> []) by discriminate.
  split; [exact H1|]. split; [exact H2|]. split; [exact H3|].
  split; [reflexivity|].
  destruct (truncateText_small_limit (js "abcdefghij") 2 H1 H2 H3) as [A _].
  rewrite A. reflexivity.
Defined.

(** *** File extensions *)

Lemma split_chr_not_nil (sep : N) (s : jsstring) : split_chr sep s <> [].
Proof.
  destruct s as [|c s]; simpl; [discriminate|].
  destruct (c =? sep)%N; [discriminate|].
  destruct (split_chr sep s); discriminate.
Qed.

(** Without the separator there is one piece, the text itself. *)
Lemma split_chr_no_sep (sep : N) (s : jsstring) :
  ~ In sep s -> split_chr sep s = [s].
Proof.
  induction s as [|c s IH]; intros H; [reflexivity|].
  simpl. destruct (c =? sep)%N eqn:E.
  - apply N.eqb_eq in E. subst. exfalso. apply H. now left.
  - rewrite IH; [reflexivity|]. intros Hin. apply H. now right.
Qed.

(** The last piece is empty exactly when the text is empty or ends with the
    separator. *)
Lemma split_chr_last_empty (sep : N) (s : jsstring) :
  last (split_chr sep s) [] = []
  <-> s = [] \/ last s 0%N = sep.
Proof.
  induction s as [|c s IH].
  - simpl. split; auto.
  - cbn [split_chr].
    pose proof (split_chr_not_nil sep s) as Hnn.
    assert (Hone : forall w, split_chr sep s = [w] -> w = [] -> s = []).
    { intros w Hw ->. destruct s as [|d s']; [reflexivity|].
      simpl in Hw. pose proof (split_chr_not_nil sep s') as Hn'.
      destruct (d =? sep)%N; destruct (split_chr sep s');
        try contradiction; discriminate. }
    remember (split_chr sep s) as l eqn:El in *.
    destruct l as [|w ws]; [congruence|].
    destruct (c =? sep)%N eqn:E.
    + apply N.eqb_eq in E. subst c.
      change (last ([] :: w :: ws) []) with (last (w :: ws) []).
      etransitivity; [exact IH|]. split.
      * intros [->|H]; right; [reflexivity|].
        destruct s; [reflexivity|exact H].
      * intros [H|H]; [discriminate|].
        destruct s; [now left|right; exact H].
    + apply N.eqb_neq in E. destruct ws as [|w' ws'].
      * split; [discriminate|].
        intros [H|H]; [discriminate|]. exfalso.
        destruct s as [|d s']; [simpl in H; congruence|].
        assert (Hw : w = []) by (apply (proj2 IH); right; exact H).
        specialize (Hone w eq_refl Hw). discriminate Hone.
      * change (last ((c :: w) :: w' :: ws') [])
          with (last (w :: w' :: ws') []).
        etransitivity; [exact IH|]. split.
        -- intros [->|H]; [discriminate El|right].
           destruct s; [discriminate El|exact H].
        -- intros [H|H]; [discriminate|].
           destruct s; [discriminate El|right; exact H].
Qed.

Section FileExtensionFacts.
Variable toLowerCase : jsstring -> jsstring.
(** Lower-casing leaves the empty string empty and no other string. *)
Hypothesis toLowerCase_nil : forall s, toLowerCase s = [] <-> s = [].

(** [validateFileExtension] reports NO_EXTENSION exactly for the empty name
    and for a name that ends with a dot.  A name with no dot at all is its
    own extension: it is checked, lower-cased, against the allowed list. *)
Theorem validateFileExtension_edges (filename : jsstring)
        (allowed : list jsstring) :
  (validateFileExtension toLowerCase filename allowed = Some NO_EXTENSION
   <-> filename = [] \/ last filename 0%N = 46%N)
  /\ (~ In 46%N filename -> filename <> [] ->
      validateFileExtension toLowerCase filename allowed
      = if list_includes allowed (toLowerCase filename) then None
        else Some INVALID_EXTENSION).
Proof.
  unfold validateFileExtension. cbv zeta. split.
  - rewrite <- split_chr_last_empty, <- toLowerCase_nil.
    destruct (toLowerCase (last (split_chr 46 filename) [])) as [|c e].
    + simpl. split; reflexivity.
    + simpl. destruct (negb (list_includes allowed (c :: e)));
        split; discriminate.
  - intros Hno Hne. rewrite (split_chr_no_sep 46 filename Hno). simpl last.
    destruct (toLowerCase filename) as [|c e] eqn:E.
    + exfalso. apply Hne. apply (proj1 (toLowerCase_nil filename)), E.
    + simpl. destruct (list_includes allowed (c :: e)); reflexivity.
Qed.

End FileExtensionFacts.

Lemma ascii_lower_nil (s : jsstring) : toLowerCase s = [] <-> s = [].
Proof.
  unfold toLowerCase. destruct s; simpl; split; congruence.
Qed.

Lemma validateFileExtension_edges_witness :
  validateFileExtension toLowerCase (js "notes.") [js "md"]
  = Some NO_EXTENSION
  /\ validateFileExtension toLowerCase (js "MD") [js "md"] = None
  /\ validateFileExtension toLowerCase (js "README") [js "md"]
     = Some INVALID_EXTENSION.
Proof.
  destruct (validateFileExtension_edges toLowerCase ascii_lower_nil
              (js "notes.") [js "md"]) as [A _].
  destruct (validateFileExtension_edges toLowerCase ascii_lower_nil
              (js "MD") [js "md"]) as [_ B].
  destruct (validateFileExtension_edges toLowerCase ascii_lower_nil
              (js "README") [js "md"]) as [_ C].
  split; [apply A; right; reflexivity|].
  split.
  - rewrite B; [reflexivity| |discriminate].
    intros [H|[H|[]]]; discriminate H.
  - rewrite C; [reflexivity| |discriminate].
    intros H. repeat (destruct H as [H|H]; [discriminate H|]). exact H.
Defined.

End UtilsFacts.

(** ** More on scoring, drafting and gap detection *)

Module AnalysisFacts.
Import Patterns Scoring Formatting Validation Spec Signals.

(** *** Vague language *)

Lemma match_first_is_test (re : RegExp) (n : nat) (t : jsstring) :
  match match_first re n t with Some _ => true | None => false end
  = test re t.
Proof. unfold match_first, test. now destruct (exec re t 0) as [[[b e] cs]|]. Qed.

Lemma unique_nil (l : list jsstring) : unique l = [] -> l = [].
Proof. destruct l; [reflexivity|discriminate]. Qed.

Lemma count_tests_pos (ps : list RegExp) (t : jsstring) :
  Nat.ltb 0 (count_tests ps t) = existsb (fun re => test re t) ps.
Proof.
  unfold count_tests. induction ps as [|re ps IH]; [reflexivity|].
  simpl. destruct (test re t); [reflexivity|exact IH].
Qed.

(** The three readings of "the text has vague language" agree: the
    [hasVague] flag of [analyzeVagueLanguage], [hasVagueLanguage] of
    index.ts, and a positive vague count in [calculateClarity]. *)
Theorem vague_detectors_agree (t : jsstring) :
  Analyzer.hasVague (Analyzer.analyzeVagueLanguage t)
  = Legacy.hasVagueLanguage t
  /\ Legacy.hasVagueLanguage t = Nat.ltb 0 (vagueCount t).
Proof.
  split.
  - unfold Analyzer.analyzeVagueLanguage, Legacy.hasVagueLanguage,
      Legacy.vagueWords. cbv zeta. cbn [Analyzer.hasVague].
    generalize VAGUE_WORDS. intros ps.
    induction ps as [|re ps IH]; [reflexivity|].
    cbn [flat_map existsb]. rewrite <- (match_first_is_test re 0 t).
    destruct (match_first re 0 t) as [[m groups]|]; [reflexivity|].
    exact IH.
  - unfold vagueCount, Legacy.hasVagueLanguage, Legacy.vagueWords.
    symmetry. apply count_tests_pos.
Qed.

(** *** Issues of severity "error" *)

Lemma filter_push_if (p : Issue -> bool) (b : bool) (i : Issue) :
  filter p (if b then [i] else []) = if b && p i then [i] else [].
Proof. destruct b; simpl; [destruct (p i)|]; reflexivity. Qed.

(** The gap detector of core/analyzer.ts has no rule of severity "error":
    whatever the specification, readiness is decided by the two scores. *)
Theorem analyzer_gaps_never_error (spec : StructuralThinking) :
  filter is_error (issues (Analyzer.detectGaps spec)) = []
  /\ Server.isReady (Analyzer.detectGaps spec)
     = Qgtb (fst (score (Analyzer.detectGaps spec))) 0.6
       && Qgtb (snd (score (Analyzer.detectGaps spec))) 0.6.
Proof.
  assert (H : filter is_error (issues (Analyzer.detectGaps spec)) = []).
  { unfold Analyzer.detectGaps. cbv zeta. cbn [issues].
    unfold Analyzer.push_if.
    rewrite !filter_app, !filter_push_if.
    change (is_error Analyzer.issue_sections) with false.
    change (is_error Analyzer.issue_vague) with false.
    change (is_error Analyzer.issue_constraints) with false.
    change (is_error Analyzer.issue_inputs) with false.
    rewrite !andb_false_r. reflexivity. }
  split; [exact H|].
  unfold Server.isReady. fold is_error. now rewrite H.
Qed.

Lemma legacy_draft_format prompt domain :
  format (io (Legacy.draftFromText prompt domain)) = js "markdown".
Proof. reflexivity. Qed.

(** A draft of index.ts never lacks its output format; the only error its
    gap detector can report is "No instructions provided", and it reports
    it exactly when the prompt has no non-blank line. *)
Theorem legacy_draft_errors (prompt : jsstring) (domain : option Domain) :
  filter is_error
         (issues (Legacy.detectGaps (Legacy.draftFromText prompt domain)))
  = if Nat.eqb (List.length (Legacy.toLines prompt)) 0
    then [Legacy.issue_no_instructions] else [].
Proof.
  unfold Legacy.detectGaps. cbv zeta. cbn [issues].
  rewrite legacy_draft_format.
  change (instructions (Legacy.draftFromText prompt domain))
    with (Legacy.toLines prompt).
  unfold Legacy.push_if.
  rewrite !filter_app, !filter_push_if.
  change (is_error Legacy.issue_format) with true.
  change (is_error Legacy.issue_sections) with false.
  change (is_error Legacy.issue_no_instructions) with true.
  change (is_error Legacy.issue_vague) with false.
  change (is_error Legacy.issue_constraints) with false.
  change (is_error Legacy.issue_inputs) with false.
  rewrite !andb_false_r, !andb_true_r.
  change (negb (truthy (js "markdown"))) with false.
  cbn [app]. rewrite !app_nil_r.
  destruct (Nat.eqb (List.length (Legacy.toLines prompt)) 0); reflexivity.
Qed.

(** *** The scores of a draft *)

Lemma analyzer_clarity_unit st text hc domain :
  two_decimals_in_unit (fst (Analyzer.calculateClarity st text hc domain)).
Proof.
  unfold Analyzer.calculateClarity.
  destruct (negb (valid (validateInputDetailed text (Some 3%nat) None))).
  - apply ScoringFacts.two_decimals_zero.
  - cbv zeta. destruct (some_test STRUCTURE_PATTERNS st text) as [hs st'].
    cbn [fst]. apply ScoringFacts.two_decimals_clamped.
Qed.

Lemma analyzer_completeness_unit text spec domain :
  two_decimals_in_unit (Analyzer.calculateCompleteness text spec domain).
Proof.
  unfold Analyzer.calculateCompleteness. cbv zeta.
  apply ScoringFacts.two_decimals_clamped.
Qed.

(** Every draft of core/analyzer.ts carries both metrics, each a number of
    hundredths between 0 and 1, and the gap detector reports exactly that
    pair as its score. *)
Theorem analyzer_draft_scores st prompt domain :
  exists cl co : Q,
    metrics (fst (Analyzer.draftFromText st prompt domain))
    = Some {| clarity := Some cl; completeness := Some co |}
    /\ two_decimals_in_unit cl /\ two_decimals_in_unit co
    /\ score (Analyzer.detectGaps
                (fst (Analyzer.draftFromText st prompt domain)))
       = (cl, co).
Proof.
  unfold Analyzer.draftFromText. cbv zeta.
  match goal with
  | |- context [Analyzer.calculateClarity st ?j false domain] =>
      pose proof (analyzer_clarity_unit st j false domain) as Hcl;
      destruct (Analyzer.calculateClarity st j false domain) as [cl st']
  end.
  cbn [fst] in Hcl. cbn [fst].
  eexists cl, _. split; [reflexivity|].
  split; [exact Hcl|]. split; [apply analyzer_completeness_unit|].
  reflexivity.
Qed.

(** Rounding a number of hundredths changes nothing. *)
Lemma safeRound_hundredths (k : Z) :
  safeRound (inject_Z k / 100) == inject_Z k / 100.
Proof.
  rewrite ScoringFacts.safeRound_unfold. unfold Math_round.
  assert (E : Qfloor (inject_Z k / 100 * 100 + (1 # 2)) = k).
  { assert (Ha : inject_Z k / 100 * 100 + (1 # 2) == inject_Z k + (1 # 2))
      by field.
    rewrite (Qfloor_comp _ _ Ha).
    pose proof (Qfloor_le (inject_Z k + (1 # 2))) as Hlo.
    pose proof (Qlt_floor (inject_Z k + (1 # 2))) as Hhi.
    rewrite inject_Z_plus in Hhi. change (inject_Z 1) with 1 in Hhi.
    assert (H1 : inject_Z (Qfloor (inject_Z k + (1 # 2))) < inject_Z (k + 1)).
    { rewrite inject_Z_plus. change (inject_Z 1) with 1. lra. }
    assert (H2 : inject_Z (k - 1) < inject_Z (Qfloor (inject_Z k + (1 # 2)))).
    { unfold Z.sub. rewrite inject_Z_plus.
      change (inject_Z (- (1))) with (- (1)). lra. }
    rewrite <- Zlt_Qlt in H1, H2. lia. }
  now rewrite E.
Qed.

Lemma safeRound_idem (x : Q) :
  two_decimals_in_unit x -> safeRound x == x.
Proof.
  intros (_ & k & _ & Hk).
  rewrite (ScoringFacts.safeRound_comp _ _ Hk), Hk.
  apply safeRound_hundredths.
Qed.

Lemma legacy_clarity_unit text hc :
  0 <= Legacy.calculateClarity text hc <= 1.
Proof.
  unfold Legacy.calculateClarity.
  destruct (negb (Legacy.validateInput text
                    (Some Legacy.SCORING_CONFIG_minPromptLength) None)).
  - split; discriminate.
  - cbv zeta. apply ScoringFacts.clamp_range.
Qed.

Lemma legacy_completeness_unit text spec :
  0 <= Legacy.calculateCompleteness text spec <= 1.
Proof.
  unfold Legacy.calculateCompleteness. cbv zeta.
  apply ScoringFacts.clamp_range.
Qed.

(** Every draft of index.ts carries both metrics, each a number of
    hundredths between 0 and 1, and its gap detector, which rounds them
    again, reports the same pair. *)
Theorem legacy_draft_scores prompt domain :
  exists cl co : Q,
    metrics (Legacy.draftFromText prompt domain)
    = Some {| clarity := Some cl; completeness := Some co |}
    /\ two_decimals_in_unit cl /\ two_decimals_in_unit co
    /\ fst (score (Legacy.detectGaps (Legacy.draftFromText prompt domain)))
       == cl
    /\ snd (score (Legacy.detectGaps (Legacy.draftFromText prompt domain)))
       == co.
Proof.
  unfold Legacy.draftFromText. cbv zeta. unfold Legacy.set_metrics.
  cbn [metrics].
  eexists _, _. split; [reflexivity|].
  match goal with
  | |- two_decimals_in_unit (Legacy.safeRound ?a)
       /\ two_decimals_in_unit (Legacy.safeRound ?b) /\ _ =>
      assert (Ha : two_decimals_in_unit (Legacy.safeRound a));
      [|assert (Hb : two_decimals_in_unit (Legacy.safeRound b))]
  end.
  - apply (ScoringFacts.safeRound_unit _ (legacy_clarity_unit _ _)).
  - apply (ScoringFacts.safeRound_unit _ (legacy_completeness_unit _ _)).
  - split; [exact Ha|]. split; [exact Hb|].
    unfold Legacy.detectGaps. cbv zeta. cbn [score metrics clarity
                                              completeness fst snd].
    split; [exact (safeRound_idem _ Ha)|exact (safeRound_idem _ Hb)].
Qed.

(** *** Intents *)

(** The drafter of core/analyzer.ts knows four intents, the drafter of
    index.ts nine; neither ever returns anything else. *)
Theorem draft_intents st prompt domain :
  In (intent (fst (Analyzer.draftFromText st prompt domain)))
     [js "generate_code"; js "analyze"; js "explain"; js "general"]
  /\ In (intent (Legacy.draftFromText prompt domain))
        [js "translate"; js "refactor"; js "classify"; js "explain";
         js "plan"; js "compare"; js "summarize"; js "generate_code";
         js "general"].
Proof.
  split.
  - unfold Analyzer.draftFromText. cbv zeta.
    destruct (Analyzer.calculateClarity st _ false domain) as [cl st'].
    cbn [fst Analyzer.set_completeness intent].
    repeat match goal with
           | |- context [if test ?re ?t then _ else _] =>
               destruct (test re t)
           end; simpl; auto 10.
  - unfold Legacy.draftFromText. cbv zeta.
    cbn [Legacy.set_metrics intent].
    repeat match goal with
           | |- context [if test ?re ?t then _ else _] =>
               destruct (test re t)
           end; simpl; auto 12.
Qed.

(** *** The floor of the clarity score *)

Lemma safeRound_tenth : safeRound 0.1 == 0.1.
Proof. reflexivity. Qed.

(** Clarity is 0 for a text of fewer than three characters, and at least
    0.10 for every other text, whatever it says. *)
Theorem clarity_floor st text hc domain :
  if Nat.ltb (JS.length text) 3
  then fst (Analyzer.calculateClarity st text hc domain) == 0
  else 0.1 <= fst (Analyzer.calculateClarity st text hc domain).
Proof.
  destruct (Nat.ltb (JS.length text) 3) eqn:E.
  - unfold Analyzer.calculateClarity, validateInputDetailed.
    rewrite E. reflexivity.
  - assert (Hv : valid_text text = true).
    { unfold valid_text, validateInputDetailed. now rewrite E. }
    rewrite (ScoringFacts.calculateClarity_raw st text hc domain Hv).
    rewrite <- safeRound_tenth.
    apply ScoringFacts.safeRound_mono.
    pose proof (ScoringFacts.raw_clarity_lower_bound st domain text) as Hr.
    apply Q.max_le_iff. right. apply Q.min_glb; [discriminate|exact Hr].
Qed.

(** *** Clarity indicators *)

(** For two texts that pass the length check, match the same number of
    vague patterns and agree on every other signal, the one matching at
    least as many clarity indicators never has the lower clarity. *)
Theorem clarity_indicators_never_lower st domain t t' hc hc' :
  valid_text t = true ->
  valid_text t' = true ->
  vagueCount t = vagueCount t' ->
  rest_signals (other_signals st domain t)
  = rest_signals (other_signals st domain t') ->
  (clarityCount (other_signals st domain t)
   <= clarityCount (other_signals st domain t'))%nat ->
  fst (Analyzer.calculateClarity st t hc domain)
  <= fst (Analyzer.calculateClarity st t' hc' domain).
Proof.
  intros Hv Hv' Hvague Hrest Hle.
  rewrite (ScoringFacts.calculateClarity_raw st t hc domain Hv).
  rewrite (ScoringFacts.calculateClarity_raw st t' hc' domain Hv').
  apply ScoringFacts.safeRound_mono, ScoringFacts.clamp_mono.
  unfold raw_clarity. cbv zeta. rewrite Hvague.
  set (sg := other_signals st domain t) in *.
  set (sg' := other_signals st domain t') in *.
  clearbody sg sg'. unfold rest_signals in Hrest.
  injection Hrest as E1 E2 E3 E4 E5 E6 E7.
  unfold bonuses. rewrite E1, E2, E3, E4, E5, E6, E7.
  destruct (ScoringFacts.clarity_bonuses_nonneg domain) as (B1 & _).
  cbv zeta in B1.
  assert (Hm : Qmin (QofNat (clarityCount sg)
                     * clarity_num (Scoring.clarity (getScoringConfig domain))
                         Cl.clarityIndicatorBonus)
                    (clarity_num (Scoring.clarity (getScoringConfig domain))
                       Cl.maxClarityIndicatorBonus)
               <= Qmin (QofNat (clarityCount sg')
                        * clarity_num
                            (Scoring.clarity (getScoringConfig domain))
                            Cl.clarityIndicatorBonus)
                       (clarity_num (Scoring.clarity (getScoringConfig domain))
                          Cl.maxClarityIndicatorBonus)).
  { apply Q.min_le_compat_r. apply Qmult_le_compat_r; [|exact B1].
    now apply ScoringFacts.QofNat_le. }
  lra.
Qed.

Lemma clarity_indicators_never_lower_witness :
  let t := js "Create the report" in
  let t' := js "You must create the report" in
  valid_text t = true /\ valid_text t' = true
  /\ vagueCount t = vagueCount t'
  /\ rest_signals (other_signals Analyzer.fresh None t)
     = rest_signals (other_signals Analyzer.fresh None t')
  /\ (clarityCount (other_signals Analyzer.fresh None t)
      <= clarityCount (other_signals Analyzer.fresh None t'))%nat
  /\ fst (Analyzer.calculateClarity Analyzer.fresh t false None)
     <= fst (Analyzer.calculateClarity Analyzer.fresh t' false None).
Proof.
  cbv zeta.
  assert (H1 : valid_text (js "Create the report") = true) by reflexivity.
  assert (H2 : valid_text (js "You must create the report") = true)
    by reflexivity.
  assert (H3 : vagueCount (js "Create the report")
               = vagueCount (js "You must create the report"))
    by (vm_compute; reflexivity).
  assert (H4 : rest_signals
                 (other_signals Analyzer.fresh None (js "Create the report"))
               = rest_signals
                   (other_signals Analyzer.fresh None
                      (js "You must create the report")))
    by (vm_compute; reflexivity).
  assert (H5 : (clarityCount
                  (other_signals Analyzer.fresh None
                     (js "Create the report"))
                <= clarityCount
                     (other_signals Analyzer.fresh None
                        (js "You must create the report")))%nat)
    by (vm_compute; lia).
  repeat (split; [assumption|]).
  exact (clarity_indicators_never_lower Analyzer.fresh None _ _
           false false H1 H2 H3 H4 H5).
Defined.

(** *** The state of the shared structure patterns *)

Lemma exec_from_zero (s : jsstring) (ic : bool) (r : regex) (l : nat) :
  exec_from s ic r l <> None -> exec_from s ic r 0 <> None.
Proof.
  unfold exec_from. destruct (Nat.ltb (List.length s) l) eqn:El;
    [congruence|].
  apply Nat.ltb_ge in El. intros H.
  destruct (search s ic r (List.length s - l) l) as [[[b e] cs]|] eqn:Hs;
    [|congruence].
  apply RegexFacts.search_some in Hs as (Hb & Hm & _).
  cbn [Nat.ltb Nat.leb]. rewrite Nat.sub_0_r.
  apply (RegexFacts.search_finds s ic r (List.length s) 0 b (e, cs) Hm).
  lia.
Qed.

Lemma test_obj_zero (p : RegExp) (t : jsstring) (l : nat) :
  fst (test_obj p t l) = true -> fst (test_obj p t 0) = true.
Proof.
  unfold test_obj. destruct (flag_g p); [|auto].
  unfold exec. intros H.
  assert (Hl : exec_from t (flag_i p) (source p) l <> None)
    by (destruct (exec_from t (flag_i p) (source p) l) as [[[b e] cs]|];
        [discriminate|discriminate H]).
  apply exec_from_zero in Hl.
  destruct (exec_from t (flag_i p) (source p) 0) as [[[b e] cs]|];
    [reflexivity|congruence].
Qed.

Lemma some_test_zero (t : jsstring) :
  forall (ps : list RegExp) (st zs : list nat),
  Forall (fun z => z = 0%nat) zs ->
  (List.length st <= List.length zs)%nat ->
  fst (some_test ps st t) = true -> fst (some_test ps zs t) = true.
Proof.
  induction ps as [|p ps IH]; intros st zs Hz Hlen H.
  - destruct st; discriminate H.
  - destruct st as [|l st]; [discriminate H|].
    destruct zs as [|z zs]; [simpl in Hlen; lia|].
    inversion Hz as [|? ? Hz0 Hz']; subst.
    cbn [some_test] in *.
    pose proof (test_obj_zero p t l) as H0.
    destruct (test_obj p t l) as [b l'].
    destruct (test_obj p t 0) as [b0 l0]. cbn [fst] in H0.
    destruct b.
    + rewrite (H0 eq_refl). reflexivity.
    + destruct b0; [reflexivity|].
      specialize (IH st zs Hz' ltac:(simpl in Hlen; lia)).
      destruct (some_test ps st t) as [b1 st1].
      destruct (some_test ps zs t) as [b2 zs2].
      cbn [fst] in *. exact (IH H).
Qed.

Lemma fresh_zero : Forall (fun z => z = 0%nat) Analyzer.fresh.
Proof.
  unfold Analyzer.fresh. repeat (apply Forall_cons; [reflexivity|]).
  apply Forall_nil.
Qed.

(** A stale [lastIndex] can lose the structure bonus and never adds one:
    from any state of the shared patterns the clarity score is at most the
    score of a first call, and equal to it when a first call finds no
    structure marker either. *)
Theorem stale_state_never_adds st text hc domain :
  fst (Analyzer.calculateClarity st text hc domain)
  <= fst (Analyzer.calculateClarity Analyzer.fresh text hc domain)
  /\ (fst (some_test STRUCTURE_PATTERNS Analyzer.fresh text) = false ->
      fst (Analyzer.calculateClarity st text hc domain)
      == fst (Analyzer.calculateClarity Analyzer.fresh text hc domain)).
Proof.
  destruct (valid_text text) eqn:Hv.
  - rewrite (ScoringFacts.calculateClarity_raw st text hc domain Hv).
    rewrite (ScoringFacts.calculateClarity_raw Analyzer.fresh text hc domain
               Hv).
    assert (Hdom : fst (some_test STRUCTURE_PATTERNS st text) = true ->
                   fst (some_test STRUCTURE_PATTERNS Analyzer.fresh text)
                   = true).
    { destruct (Nat.le_gt_cases (List.length st) 4) as [Hle|Hgt].
      - exact (some_test_zero text STRUCTURE_PATTERNS st Analyzer.fresh
                 fresh_zero Hle).
      - (* a longer state: only its first four entries are read *)
        intros H.
        apply (some_test_zero text STRUCTURE_PATTERNS (firstn 4 st)
                 Analyzer.fresh fresh_zero).
        { rewrite length_firstn. apply Nat.le_min_l. }
        do 5 (destruct st as [|? st]; [simpl in Hgt; lia|]).
        cbn [firstn]. cbn [some_test STRUCTURE_PATTERNS] in *.
        repeat match goal with
               | |- context [test_obj ?p text ?l] =>
                   destruct (test_obj p text l) as [[] ?]
               end; cbn [fst] in *; congruence. }
    unfold raw_clarity, bonuses, other_signals. cbv zeta.
    cbn [clarityCount numberMatches verbCount longSentences1 longSentences2
         hasStructure questionMatches domainMatches].
    destruct (ScoringFacts.clarity_bonuses_nonneg domain)
      as (_ & _ & _ & _ & _ & _ & B7).
    cbv zeta in B7.
    set (c := clarity_num (Scoring.clarity (getScoringConfig domain))) in *.
    set (hs := fst (some_test STRUCTURE_PATTERNS st text)) in *.
    set (hf := fst (some_test STRUCTURE_PATTERNS Analyzer.fresh text)) in *.
    set (vp := vague_penalty c (vagueCount text)).
    set (b1 := Qmin (QofNat (count_tests CLARITY_INDICATORS text) * _) _).
    set (b2 := Qmin (QofNat (count_matches MEASUREMENT_PATTERNS text) * _) _).
    set (b3 := Qmin (QofNat (count_tests CONCRETE_VERBS text) * _) _).
    set (p1 := if _ && Qgtb _ (c Cl.sentenceLengthThreshold1)
               then _ else _).
    set (p2 := if _ && Qgtb _ (c Cl.sentenceLengthThreshold2)
               then _ else _).
    set (b4 := if Nat.ltb 0 (match_count QUESTION_WORDS text) then _ else _).
    set (b5 := if Nat.ltb 0 (count_matches (getDomainPatterns domain) text)
               then _ else _).
    clearbody vp b1 b2 b3 p1 p2 b4 b5 hs hf.
    split.
    + apply ScoringFacts.safeRound_mono, ScoringFacts.clamp_mono.
      destruct hs; [rewrite (Hdom eq_refl); lra|].
      destruct hf; lra.
    + intros Hf. rewrite Hf in Hdom.
      destruct hs; [discriminate (Hdom eq_refl)|]. rewrite Hf. reflexivity.
  - unfold Analyzer.calculateClarity. unfold valid_text in Hv. rewrite Hv.
    cbn [negb fst]. split; [discriminate|intros _; reflexivity].
Qed.

Lemma stale_state_never_adds_witness :
  fst (some_test STRUCTURE_PATTERNS Analyzer.fresh (js "plain request"))
  = false
  /\ fst (Analyzer.calculateClarity [3; 1; 4; 1]%nat (js "plain request")
            false None)
     == fst (Analyzer.calculateClarity Analyzer.fresh (js "plain request")
               false None)
  /\ fst (Analyzer.calculateClarity [2; 0; 0; 0]%nat (js "- a") false None)
     <= fst (Analyzer.calculateClarity Analyzer.fresh (js "- a") false None).
Proof.
  assert (H : fst (some_test STRUCTURE_PATTERNS Analyzer.fresh
                     (js "plain request")) = false)
    by (vm_compute; reflexivity).
  split; [exact H|].
  destruct (stale_state_never_adds [3; 1; 4; 1]%nat (js "plain request")
              false None) as [_ A].
  destruct (stale_state_never_adds [2; 0; 0; 0]%nat (js "- a") false None)
    as [B _].
  split; [exact (A H)|exact B].
Defined.

End AnalysisFacts.


(* ================================================================== *)
(** ** The improvement patches of the st_refine handler *)
(* ================================================================== *)

Module ServerFacts.

Import Spec.

Lemma existsb_if {A : Type} (f : A -> bool) (b : bool) (x : A) :
  existsb f (if b then [x] else []) = b && f x.
Proof. destruct b; simpl; [apply orb_false_r|reflexivity]. Qed.

Lemma filter_if {A : Type} (f : A -> bool) (b : bool) (x : A) :
  filter f (if b then [x] else []) = if b && f x then [x] else [].
Proof. destruct b; simpl; [destruct (f x)|]; reflexivity. Qed.

Ltac eval_eqs :=
  repeat match goal with
         | |- context [eqs (js ?a) (js ?b)] =>
             let v := eval vm_compute in (eqs (js a) (js b)) in
             change (eqs (js a) (js b)) with v
         end.

(** The patches only ever add: no two of them target the same path, none
    is a [remove], and the list that replaces the instructions starts with
    the instructions the specification already has. *)
Theorem patches_only_add (spec : StructuralThinking)
        (domain : option Domain) :
  NoDup (map Server.path (Server.improvementPatches spec domain))
  /\ Forall (fun p =>
               Server.op p <> Server.remove
               /\ match Server.value p with
                  | Server.VList l =>
                      exists more, l = instructions spec ++ more
                  | _ => True
                  end)
            (Server.improvementPatches spec domain).
Proof.
  unfold Server.improvementPatches, Server.push_if.
  repeat match goal with
         | |- context [if ?b then [?p] else []] => destruct b
         end;
    cbn [app map Server.path];
    (split;
     [ repeat (apply NoDup_cons;
               [cbn [In]; intros H;
                repeat (destruct H as [H|H];
                        [vm_compute in H; discriminate H|]);
                exact H|]);
       apply NoDup_nil
     | repeat (apply Forall_cons;
               [cbn [Server.op Server.value];
                split;
                [ try discriminate;
                  destruct (opt_truthy (title spec)); discriminate
                | try exact I; eexists; reflexivity ]|]);
       apply Forall_nil ]).
Qed.

(** The handler proposes the [/io/contract] patch exactly when its gap
    detector reports the missing markdown sections. *)
Theorem sections_patch_iff_warning (spec : StructuralThinking)
        (domain : option Domain) :
  existsb (fun p => eqs (Server.path p) (js "/io/contract"))
          (Server.improvementPatches spec domain)
  = existsb (fun i => eqs (path i) (js "/io/contract/sections"))
            (issues (Legacy.detectGaps spec)).
Proof.
  unfold Server.improvementPatches, Legacy.detectGaps, Server.push_if,
    Legacy.push_if.
  cbv zeta. cbn [issues].
  rewrite !existsb_app, !existsb_if. cbn [existsb].
  unfold Legacy.issue_format, Legacy.issue_sections,
    Legacy.issue_no_instructions, Legacy.issue_vague,
    Legacy.issue_constraints, Legacy.issue_inputs.
  cbn [Server.path path].
  eval_eqs.
  rewrite ?andb_false_r, ?andb_true_r, ?orb_false_r, ?orb_false_l.
  reflexivity.
Qed.

Lemma toLines_head_truthy (text l : jsstring) (ls : list jsstring) :
  Legacy.toLines text = l :: ls -> truthy l = true.
Proof.
  unfold Legacy.toLines. intros H.
  assert (Hin : In l (filter truthy
                        (map trim
                           (split_re (rx (Seq (Opt (Chr 13)) (Chr 10)))
                                     text))))
    by (rewrite H; left; reflexivity).
  apply filter_In in Hin. exact (proj2 Hin).
Qed.

(** On the draft the handler builds from the prompt, the domain patch is
    proposed exactly when the request names no domain, and then its value
    is always "general"; the title patch is an [add] when the prompt has
    no non-blank line, a [replace] when its first line is shorter than the
    minimal title length, and absent otherwise. *)
Theorem handler_patches_of_draft (prompt : jsstring)
        (domain : option Domain) :
  filter (fun p => eqs (Server.path p) (js "/context/domain"))
         (Server.improvementPatches (Legacy.draftFromText prompt domain)
                                    domain)
  = match domain with
    | Some _ => []
    | None => [ {| Server.op := Server.add;
                   Server.path := js "/context/domain";
                   Server.value := Server.VString (js "general") |} ]
    end
  /\ filter (fun p => eqs (Server.path p) (js "/title"))
            (Server.improvementPatches (Legacy.draftFromText prompt domain)
                                       domain)
     = match Legacy.toLines prompt with
       | [] =>
           [ {| Server.op := Server.add; Server.path := js "/title";
                Server.value :=
                  Server.VString
                    (js "Enhanced Structural Thinking Specification") |} ]
       | l :: _ =>
           if Qltb (QofNat (JS.length (slice0 l 80)))
                   (Legacy.SCORING_CONFIG_completeness
                      Scoring.Co.titleMinLength)
           then [ {| Server.op := Server.replace; Server.path := js "/title";
                     Server.value :=
                       Server.VString
                         (js "Enhanced Structural Thinking Specification")
                  |} ]
           else []
       end.
Proof.
  unfold Server.improvementPatches, Server.push_if.
  change (context_domain (Legacy.draftFromText prompt domain)) with domain.
  change (title (Legacy.draftFromText prompt domain))
    with (match Legacy.toLines prompt with
          | l :: _ => Some (slice0 l 80)
          | [] => None
          end).
  rewrite !filter_app, !filter_if. cbn [Server.path].
  eval_eqs.
  rewrite ?andb_false_r, ?andb_true_r. cbn [app].
  split.
  - destruct domain; reflexivity.
  - rewrite app_nil_r.
    destruct (Legacy.toLines prompt) as [|l ls] eqn:El; [reflexivity|].
    apply toLines_head_truthy in El.
    destruct l as [|c l]; [discriminate El|].
    unfold slice0. cbn [firstn opt_truthy truthy negb orb].
    reflexivity.
Qed.

End ServerFacts.


(* ================================================================== *)
(** ** The result cache of the st_refine handler *)
(* ================================================================== *)

Module RefineFacts.

Import CacheKey Refine.

Lemma hex_digit_latin1 (n : N) : (n < 16)%N -> (hex_digit n <=? 255)%N = true.
Proof.
  intros H. apply N.leb_le. unfold hex_digit.
  destruct (n <? 10)%N eqn:E; [apply N.ltb_lt in E|apply N.ltb_ge in E]; lia.
Qed.

Lemma unicode_escape_latin1 (c : N) :
  (c <= 255)%N ->
  forallb (fun c : N => (c <=? 255)%N) (unicode_escape c) = true.
Proof.
  intros H. unfold unicode_escape. cbn [forallb].
  assert (H1 : (c / 4096 < 16)%N)
    by (apply N.Div0.div_lt_upper_bound; lia).
  assert (H2 : ((c / 256) mod 16 < 16)%N) by (apply N.mod_lt; lia).
  assert (H3 : ((c / 16) mod 16 < 16)%N) by (apply N.mod_lt; lia).
  assert (H4 : (c mod 16 < 16)%N) by (apply N.mod_lt; lia).
  rewrite (hex_digit_latin1 _ H1), (hex_digit_latin1 _ H2),
    (hex_digit_latin1 _ H3), (hex_digit_latin1 _ H4).
  reflexivity.
Qed.

Lemma quote_body_latin1 (s : jsstring) :
  forallb (fun c : N => (c <=? 255)%N) s = true ->
  forallb (fun c : N => (c <=? 255)%N) (quote_body s) = true.
Proof.
  induction s as [|c s IH]; [reflexivity|].
  cbn [forallb]. intros H. apply andb_true_iff in H as [Hc Hs].
  specialize (IH Hs). pose proof Hc as Hc'. apply N.leb_le in Hc'.
  destruct (CacheKeyFacts.latin1_not_surrogate c Hc') as [Hh Hl].
  cbn [quote_body]. rewrite Hh, Hl.
  repeat match goal with
         | |- context [if ?b then _ else _] => destruct b
         end;
    rewrite ?forallb_app, ?IH, ?andb_true_r;
    try reflexivity.
  - now apply unicode_escape_latin1.
  - cbn [forallb]. now rewrite Hc, IH.
Qed.

Lemma json_quote_latin1 (s : jsstring) :
  forallb (fun c : N => (c <=? 255)%N) s = true ->
  forallb (fun c : N => (c <=? 255)%N) (json_quote s) = true.
Proof.
  intros H. unfold json_quote.
  rewrite !forallb_app, (quote_body_latin1 s H). reflexivity.
Qed.

(** A Latin-1 prompt always gets a key. *)
Lemma latin1_prompt_has_key (prompt : jsstring) (domain : option Domain)
      (iv ii : bool) :
  forallb (fun c : N => (c <=? 255)%N) prompt = true ->
  exists k,
    generateCacheKey prompt (option_map domain_name domain)
                     (Some (options_json iv ii)) = Some k.
Proof.
  intros H. unfold generateCacheKey, btoa, stringify_data.
  assert (E : forallb (fun c : N => (c <=? 255)%N)
                (js "{" ++ json_quote (js "prompt") ++ js ":"
                 ++ json_quote prompt
                 ++ match option_map domain_name domain with
                    | Some d =>
                        js "," ++ json_quote (js "domain") ++ js ":"
                        ++ json_quote d
                    | None => []
                    end
                 ++ match Some (options_json iv ii) with
                    | Some o =>
                        js "," ++ json_quote (js "options") ++ js ":" ++ o
                    | None => []
                    end
                 ++ js "}") = true).
  { rewrite !forallb_app, (json_quote_latin1 prompt H).
    destruct domain as [[]|], iv, ii; vm_compute; reflexivity. }
  rewrite E. eexists. reflexivity.
Qed.

(** The key of a prompt that starts with 13 plain characters. *)
Lemma key_of_head p d o k :
  (13 <= List.length p)%nat ->
  forallb plain (firstn 13 p) = true ->
  generateCacheKey p d o = Some k ->
  k = b64_encode (js "{" ++ json_quote (js "prompt") ++ js ":"
                  ++ [34%N] ++ firstn 13 p).
Proof.
  intros Hlen Hplain Hk.
  destruct (CacheKeyFacts.stringify_data_head p d o Hlen Hplain)
    as [tail E].
  set (head := js "{" ++ json_quote (js "prompt") ++ js ":" ++ [34%N]
               ++ firstn 13 p) in *.
  assert (Hh : List.length head = (3 * 8)%nat).
  { subst head. rewrite !length_app, length_firstn.
    change (List.length (js "{")) with 1%nat.
    change (List.length (json_quote (js "prompt"))) with 8%nat.
    change (List.length (js ":")) with 1%nat. simpl List.length. lia. }
  clearbody head.
  unfold generateCacheKey, btoa in Hk. rewrite E in Hk.
  destruct (forallb (fun c => (c <=? 255)%N) (head ++ tail));
    [|discriminate].
  assert (Hk' : k = slice0 (b64_encode (head ++ tail)) 32)
    by congruence.
  rewrite Hk'.
  destruct (CacheKeyFacts.b64_encode_app 8 head tail Hh) as [Eapp L].
  rewrite Eapp. unfold slice0.
  rewrite firstn_app, L. change (32 - 4 * 8)%nat with 0%nat.
  rewrite firstn_O, app_nil_r. apply firstn_all2. lia.
Qed.

Lemma prompt_length_valid (p : jsstring) :
  (3 <= List.length p <= 10000)%nat ->
  Validation.validateInputDetailed p (Some 3%nat) (Some 10000%nat) = None.
Proof.
  intros [H1 H2]. unfold Validation.validateInputDetailed, JS.length.
  destruct (Nat.ltb_spec (List.length p) 3); [lia|].
  destruct (Nat.ltb_spec 10000 (List.length p)); [lia|]. reflexivity.
Qed.

Lemma domain_tag_valid (d : Domain) :
  Utils.validateDomain (domain_name d) = None.
Proof. destruct d; vm_compute; reflexivity. Qed.

Section Handler.

Variable State : Type.
Variable analyse :
  State -> jsstring -> option Domain -> bool -> bool -> jsstring * State.

(** The key reads 13 characters of the prompt, so the cache confuses
    requests: once a request has been analysed and cached, a later request
    within the TTL whose prompt starts with the same 13 plain characters is
    answered with the text of the first one, whatever the rest of its
    prompt, its domain and its options. *)
Theorem similar_prompt_gets_cached_reply
        (st1 st2 : State) (t1 t1' t2 t2' : Z) (p1 p2 : jsstring)
        (d1 d2 : option Domain) (iv1 ii1 iv2 ii2 : bool)
        (c : Cache.LRUCache jsstring) :
  (13 <= List.length p1 <= 10000)%nat ->
  (List.length p2 <= 10000)%nat ->
  firstn 13 p2 = firstn 13 p1 ->
  forallb plain (firstn 13 p1) = true ->
  forallb (fun c : N => (c <=? 255)%N) p1 = true ->
  forallb (fun c : N => (c <=? 255)%N) p2 = true ->
  (forall k,
      generateCacheKey p1 (option_map domain_name d1)
                       (Some (options_json iv1 ii1)) = Some k ->
      Cache.map_get k (Cache.cache c) = None) ->
  truthy (fst (analyse st1 p1 d1 iv1 ii1)) = true ->
  (t2 - t1' <= Cache.defaultTTL c)%Z ->
  let first := st_refine analyse st1 t1 t1' p1 d1 iv1 ii1 c in
  fst (fst first) = Text (fst (analyse st1 p1 d1 iv1 ii1))
  /\ fst (fst (st_refine analyse st2 t2 t2' p2 d2 iv2 ii2 (snd first)))
     = Text (fst (analyse st1 p1 d1 iv1 ii1)).
Proof.
  intros [Hlen1 Hmax1] Hmax2 Hpre Hplain Hl1 Hl2 Habsent Hr Httl.
  assert (Hlen2 : (13 <= List.length p2)%nat).
  { assert (E : List.length (firstn 13 p2) = 13%nat)
      by (rewrite Hpre, length_firstn; lia).
    rewrite length_firstn in E. lia. }
  destruct (latin1_prompt_has_key p1 d1 iv1 ii1 Hl1) as [k1 K1].
  destruct (latin1_prompt_has_key p2 d2 iv2 ii2 Hl2) as [k2 K2].
  assert (Ek : k2 = k1).
  { rewrite (key_of_head _ _ _ _ Hlen1 Hplain K1).
    rewrite <- Hpre in Hplain.
    rewrite (key_of_head _ _ _ _ Hlen2 Hplain K2). now rewrite Hpre. }
  subst k2.
  assert (Hd : forall d : option Domain,
             match d with
             | Some d' =>
                 match Utils.validateDomain (domain_name d') with
                 | Some _ => true
                 | None => false
                 end
             | None => false
             end = false)
    by (intros [d'|]; [rewrite domain_tag_valid|]; reflexivity).
  assert (E1 : st_refine analyse st1 t1 t1' p1 d1 iv1 ii1 c
               = (Text (fst (analyse st1 p1 d1 iv1 ii1)),
                  snd (analyse st1 p1 d1 iv1 ii1),
                  Cache.set t1' k1 (fst (analyse st1 p1 d1 iv1 ii1)) None
                            (Cache.miss c))).
  { unfold st_refine.
    rewrite (prompt_length_valid p1 ltac:(lia)), Hd, K1.
    rewrite (CacheFacts.get_absent jsstring c k1 t1 (Habsent k1 K1)).
    destruct (analyse st1 p1 d1 iv1 ii1) as [r st']. reflexivity. }
  cbv zeta. rewrite E1. cbn [fst snd]. split; [reflexivity|].
  set (r := fst (analyse st1 p1 d1 iv1 ii1)) in *.
  unfold st_refine.
  rewrite (prompt_length_valid p2 ltac:(lia)), Hd, K2.
  pose proof (CacheFacts.get_entry_after_set jsstring (Cache.miss c) k1 r
                None t1') as Hentry.
  destruct (CacheFacts.get_fresh jsstring _ k1 t2 _ Hentry) as [Hget _].
  { cbn [Cache.timestamp Cache.ttl Cache.actualTTL Cache.miss
         Cache.defaultTTL]. exact Httl. }
  cbn [Cache.value] in Hget.
  destruct (Cache.get t2 k1 (Cache.set t1' k1 r None (Cache.miss c)))
    as [cached c2].
  cbn [fst] in Hget. subst cached. rewrite Hr. reflexivity.
Qed.

End Handler.

Lemma similar_prompt_gets_cached_reply_witness :
  let analyse := fun (n : nat) (p : jsstring) (_ : option Domain)
                     (_ _ : bool) => (js "analysis of " ++ p, S n) in
  let p1 := js "Create a React component for login" in
  let p2 := js "Create a React hook" in
  fst (fst (st_refine analyse 1%nat 5 6 p2 (Some code) false true
              (snd (st_refine analyse 0%nat 0 1 p1 None true true
                              analysisCache))))
  = Text (js "analysis of Create a React component for login").
Proof.
  cbv zeta.
  refine (proj2 (similar_prompt_gets_cached_reply nat
                   (fun (n : nat) (p : jsstring) (_ : option Domain)
                        (_ _ : bool) => (js "analysis of " ++ p, S n))
                   0%nat 1%nat 0 1 5 6
                   (js "Create a React component for login")
                   (js "Create a React hook")
                   None (Some code) true true false true analysisCache
                   _ _ _ _ _ _ _ _ _)).
  - split; apply Nat.leb_le; vm_compute; reflexivity.
  - apply Nat.leb_le; vm_compute; reflexivity.
  - reflexivity.
  - reflexivity.
  - reflexivity.
  - reflexivity.
  - intros k _. reflexivity.
  - reflexivity.
  - vm_compute. discriminate.
Defined.

End RefineFacts.
